(** * minha-receita: staging keys, key-value options and the PostgreSQL writers

    A shallow embedding of the parts of the transform pipeline that the
    specification makes claims about:

    - [transform/badger.go]: [checksumFor], [newKVItem], [loadChunk],
      [newBadgerStorage];
    - [db/postgres.go]: [removeNonDigits], [truncateString],
      [CreateCompaniesStructuredDirect], [ImportPartnersOnly],
      [ImportPartnersBatch], [MetaSave];
    - [transform/transform.go]: the batching loop of [TransformPartnersOnly].

    Go strings are byte strings: a [string] here is a list of bytes
    ([ascii]), [String.length] is Go's [len], and slicing is by byte. *)

From Stdlib Require Import ZArith String Ascii List Lia DecimalString.
From stdpp Require Import base gmap strings list fin_maps.

Local Open Scope string_scope.
Local Open Scope Z_scope.
Local Open Scope list_scope.

(** ** Bytes and hexadecimal encoding *)

Module Bytes.

Definition byte_of_ascii (a : ascii) : Z := Z.of_N (N_of_ascii a).
Definition ascii_of_byte (b : Z) : ascii := ascii_of_N (Z.to_N (b mod 256)).

(** [[]byte(s)] *)
Definition of_string (s : string) : list Z :=
  map byte_of_ascii (list_ascii_of_string s).

Definition hexdigit (n : Z) : ascii :=
  if n <? 10 then ascii_of_byte (48 + n) else ascii_of_byte (87 + n).

(** [hex.EncodeToString]: two lower-case digits per byte, high nibble first. *)
Fixpoint hex_EncodeToString (bs : list Z) : string :=
  match bs with
  | [] => EmptyString
  | b :: bs' =>
      String (hexdigit (Z.shiftr b 4))
        (String (hexdigit (Z.land b 15)) (hex_EncodeToString bs'))
  end.

End Bytes.

(** ** MD5 (the algorithm behind Go's [crypto/md5]) *)

Module MD5.

Definition w32 (x : Z) : Z := x mod 2 ^ 32.

Definition rotl32 (x c : Z) : Z :=
  w32 (Z.lor (Z.shiftl x c) (Z.shiftr x (32 - c))).

Definition not32 (x : Z) : Z := Z.lxor x 0xffffffff.

Definition shifts : list Z :=
  [ 7; 12; 17; 22; 7; 12; 17; 22; 7; 12; 17; 22; 7; 12; 17; 22;
    5; 9; 14; 20; 5; 9; 14; 20; 5; 9; 14; 20; 5; 9; 14; 20;
    4; 11; 16; 23; 4; 11; 16; 23; 4; 11; 16; 23; 4; 11; 16; 23;
    6; 10; 15; 21; 6; 10; 15; 21; 6; 10; 15; 21; 6; 10; 15; 21 ].

Definition sines : list Z :=
  [ 0xd76aa478; 0xe8c7b756; 0x242070db; 0xc1bdceee;
    0xf57c0faf; 0x4787c62a; 0xa8304613; 0xfd469501;
    0x698098d8; 0x8b44f7af; 0xffff5bb1; 0x895cd7be;
    0x6b901122; 0xfd987193; 0xa679438e; 0x49b40821;
    0xf61e2562; 0xc040b340; 0x265e5a51; 0xe9b6c7aa;
    0xd62f105d; 0x02441453; 0xd8a1e681; 0xe7d3fbc8;
    0x21e1cde6; 0xc33707d6; 0xf4d50d87; 0x455a14ed;
    0xa9e3e905; 0xfcefa3f8; 0x676f02d9; 0x8d2a4c8a;
    0xfffa3942; 0x8771f681; 0x6d9d6122; 0xfde5380c;
    0xa4beea44; 0x4bdecfa9; 0xf6bb4b60; 0xbebfbc70;
    0x289b7ec6; 0xeaa127fa; 0xd4ef3085; 0x04881d05;
    0xd9d4d039; 0xe6db99e5; 0x1fa27cf8; 0xc4ac5665;
    0xf4292244; 0x432aff97; 0xab9423a7; 0xfc93a039;
    0x655b59c3; 0x8f0ccc92; 0xffeff47d; 0x85845dd1;
    0x6fa87e4f; 0xfe2ce6e0; 0xa3014314; 0x4e0811a1;
    0xf7537e82; 0xbd3af235; 0x2ad7d2bb; 0xeb86d391 ].

Definition nthZ (l : list Z) (i : Z) : Z := nth (Z.to_nat i) l 0.

(** Little-endian 32-bit words of a block. *)
Fixpoint words (bs : list Z) : list Z :=
  match bs with
  | b0 :: b1 :: b2 :: b3 :: rest =>
      (b0 + 256 * b1 + 65536 * b2 + 16777216 * b3) :: words rest
  | _ => []
  end.

Definition le_bytes32 (x : Z) : list Z :=
  [ x mod 256; (x / 256) mod 256; (x / 65536) mod 256; (x / 16777216) mod 256 ].

Definition le_bytes64 (x : Z) : list Z :=
  le_bytes32 (x mod 2 ^ 32) ++ le_bytes32 ((x / 2 ^ 32) mod 2 ^ 32).

(** Message padding: a [0x80] byte, zeros up to 56 modulo 64, then the bit
    length on 64 bits. *)
Definition pad (msg : list Z) : list Z :=
  let n := Z.of_nat (length msg) in
  let zeros := (55 - n) mod 64 in
  msg ++ [128] ++ repeat 0 (Z.to_nat zeros) ++ le_bytes64 ((8 * n) mod 2 ^ 64).

Record state := State { sa : Z; sb : Z; sc : Z; sd : Z }.

Definition init : state :=
  State 0x67452301 0xefcdab89 0x98badcfe 0x10325476.

Definition round (m : list Z) (st : state) (i : Z) : state :=
  let '(State a b c d) := st in
  let '(f, g) :=
    if i <? 16 then (Z.lor (Z.land b c) (Z.land (not32 b) d), i)
    else if i <? 32 then
      (Z.lor (Z.land d b) (Z.land (not32 d) c), (5 * i + 1) mod 16)
    else if i <? 48 then (Z.lxor b (Z.lxor c d), (3 * i + 5) mod 16)
    else (Z.lxor c (Z.lor b (not32 d)), (7 * i) mod 16) in
  let f' := w32 (f + a + nthZ sines i + nthZ m g) in
  State d (w32 (b + rotl32 f' (nthZ shifts i))) b c.

Definition indices : list Z := map Z.of_nat (seq 0 64).

Definition block (st : state) (blk : list Z) : state :=
  let m := words blk in
  let '(State a b c d) := fold_left (round m) indices st in
  State (w32 (sa st + a)) (w32 (sb st + b)) (w32 (sc st + c)) (w32 (sd st + d)).

Fixpoint blocks (fuel : nat) (st : state) (bs : list Z) : state :=
  match fuel with
  | O => st
  | S fuel' =>
      match bs with
      | [] => st
      | _ => blocks fuel' (block st (firstn 64 bs)) (skipn 64 bs)
      end
  end.

(** The 16-byte digest of a message. *)
Definition digest (msg : list Z) : list Z :=
  let p := pad msg in
  let '(State a b c d) := blocks (length p) init p in
  le_bytes32 a ++ le_bytes32 b ++ le_bytes32 c ++ le_bytes32 d.

(** Go's [hash.Hash]: [written] is what [Write] has fed so far.  [New]
    starts empty, and [Sum b] appends the digest of what was written to [b]
    without hashing [b] itself. *)
Record Hash := { written : list Z }.

Definition New : Hash := {| written := [] |}.

Definition Sum (h : Hash) (b : list Z) : list Z := b ++ digest (written h).

End MD5.

(** ** Go values: results, panics and map iteration *)

(** A call returns a value, returns an error, or panics (an index out of
    range). *)
Inductive result (A : Type) : Type :=
  | Ok (a : A)
  | Err (e : string)
  | Panic (e : string).
Arguments Ok {A} a.
Arguments Err {A} e.
Arguments Panic {A} e.

(** [r[i]] on a slice. *)
Definition index (r : list string) (i : nat) : result string :=
  match r !! i with
  | Some x => Ok x
  | None => Panic "index out of range"
  end.

(** [strings.Join(r, sep)] *)
Definition strings_Join (r : list string) (sep : string) : string :=
  String.concat sep r.

(** Go does not fix the order in which [range] visits a map.  A [MapOrder]
    is one way of visiting every entry exactly once; the functions that
    range over a map take it as a parameter, so that what is proved of them
    holds for every order. *)
Record MapOrder := {
  range : forall (K : Type) `{Countable K} (V : Type), gmap K V -> list (K * V);
  range_perm : forall (K : Type) `{Countable K} (V : Type) (m : gmap K V),
      range K V m ≡ₚ map_to_list m
}.
Arguments range _ {K _ _ V} m.

(** The order of [map_to_list]. *)
Definition sortedOrder : MapOrder :=
  {| range := fun K _ _ V m => map_to_list m;
     range_perm := fun K _ _ V m => reflexivity (map_to_list m) |}.

(** ** The key-value stager ([transform/badger.go]) *)

Module KV.

(** The source kinds of [newKVItem]'s switch.  [sourceType] is a string
    type, so a value outside the seven constants is possible: [otherSource]. *)
Inductive sourceType :=
  | base | partners | simpleTaxes
  | realProfit | presumedProfit | arbitratedProfit | noTaxes
  | otherSource (name : string).

(** Modelled from the spec: [isAccumulative] is declared in source.go, which
    is not under src/.  The accumulative kinds are partner, simple-taxes and
    the four tax regimes; base is not. *)
Definition isAccumulative (s : sourceType) : bool :=
  match s with
  | partners | simpleTaxes
  | realProfit | presumedProfit | arbitratedProfit | noTaxes => true
  | base | otherSource _ => false
  end.

(** Modelled from the spec: the [keyFor...] helpers are not under src/.  The
    key schema is [base:<base8>], [partner:<base8>], [simple:<base8>] and
    [regime:<14-digit ID>]. *)
Definition keyForBase (n : string) : string := "base:" +:+ n.
Definition keyForPartners (n : string) : string := "partner:" +:+ n.
Definition keyForSimpleTaxes (n : string) : string := "simple:" +:+ n.
Definition keyForTaxRegime (n : string) : string := "regime:" +:+ n.

Record item := { key : string; value : string; kind : sourceType }.

Definition checksumFor (r : list string) : string :=
  let b := Bytes.of_string (strings_Join r "") in
  let h := MD5.New in
  Bytes.hex_EncodeToString (MD5.Sum h b).

Section Loaders.
(** The lookup tables and the row decoders are not under src/: they are
    parameters of the stager. *)
Variable lookups : Type.
Variables loadPartnerRow loadBaseRow loadSimpleTaxesRow loadTaxRow :
  lookups -> list string -> result string.

Definition loader := lookups -> list string -> result string.

(** The [switch] of [newKVItem]: the key before the checksum suffix and
    the decoder to use. *)
Definition keyAndLoader (s : sourceType) (r : list string)
  : result (string * loader) :=
  match s with
  | partners =>
      match index r 0 with
      | Ok n => Ok (keyForPartners n, loadPartnerRow)
      | Err e => Err e | Panic e => Panic e
      end
  | base =>
      match index r 0 with
      | Ok n => Ok (keyForBase n, loadBaseRow)
      | Err e => Err e | Panic e => Panic e
      end
  | simpleTaxes =>
      match index r 0 with
      | Ok n => Ok (keyForSimpleTaxes n, loadSimpleTaxesRow)
      | Err e => Err e | Panic e => Panic e
      end
  | realProfit | presumedProfit | arbitratedProfit | noTaxes =>
      match index r 1 with
      | Ok n => Ok (keyForTaxRegime n, loadTaxRow)
      | Err e => Err e | Panic e => Panic e
      end
  | otherSource name => Err ("unknown source type " +:+ name)
  end.

Definition newKVItem (s : sourceType) (l : lookups) (r : list string)
  : result item :=
  match keyAndLoader s r with
  | Ok (k, h) =>
      let k := if isAccumulative s then k +:+ ":" +:+ checksumFor r else k in
      match h l r with
      | Ok v => Ok {| key := k; value := v; kind := s |}
      | Err e => Err ("error loading value from source: " +:+ e)
      | Panic e => Panic e
      end
  | Err e => Err e
  | Panic e => Panic e
  end.
End Loaders.

(** The store as a map from key to value; [tx.Set] replaces the value of a
    key that is already there. *)
Definition txSet (st : gmap string string) (i : item) : gmap string string :=
  <[key i := value i]> st.

(** [loadChunk]: every item of the chunk is set, in order, in one
    transaction. *)
Definition loadChunk (st : gmap string string) (items : list item)
  : gmap string string :=
  foldl txSet st items.

(** *** [newBadgerStorage] *)

(** The fields of [badger.Options] that [newBadgerStorage] touches. *)
Record Options := {
  Dir : string;
  ReadOnly : bool;
  NumMemtables : Z;
  NumLevelZeroTables : Z;
  NumLevelZeroTablesStall : Z;
  ValueLogMaxEntries : Z;
  ValueLogFileSize : Z;
  MemTableSize : Z;
  silentLogger : bool
}.

Definition WithReadOnly (v : bool) (o : Options) : Options :=
  {| Dir := Dir o; ReadOnly := v; NumMemtables := NumMemtables o;
     NumLevelZeroTables := NumLevelZeroTables o;
     NumLevelZeroTablesStall := NumLevelZeroTablesStall o;
     ValueLogMaxEntries := ValueLogMaxEntries o;
     ValueLogFileSize := ValueLogFileSize o;
     MemTableSize := MemTableSize o; silentLogger := silentLogger o |}.

Definition WithNumMemtables (v : Z) (o : Options) : Options :=
  {| Dir := Dir o; ReadOnly := ReadOnly o; NumMemtables := v;
     NumLevelZeroTables := NumLevelZeroTables o;
     NumLevelZeroTablesStall := NumLevelZeroTablesStall o;
     ValueLogMaxEntries := ValueLogMaxEntries o;
     ValueLogFileSize := ValueLogFileSize o;
     MemTableSize := MemTableSize o; silentLogger := silentLogger o |}.

Definition WithNumLevelZeroTables (v : Z) (o : Options) : Options :=
  {| Dir := Dir o; ReadOnly := ReadOnly o; NumMemtables := NumMemtables o;
     NumLevelZeroTables := v;
     NumLevelZeroTablesStall := NumLevelZeroTablesStall o;
     ValueLogMaxEntries := ValueLogMaxEntries o;
     ValueLogFileSize := ValueLogFileSize o;
     MemTableSize := MemTableSize o; silentLogger := silentLogger o |}.

Definition WithNumLevelZeroTablesStall (v : Z) (o : Options) : Options :=
  {| Dir := Dir o; ReadOnly := ReadOnly o; NumMemtables := NumMemtables o;
     NumLevelZeroTables := NumLevelZeroTables o;
     NumLevelZeroTablesStall := v;
     ValueLogMaxEntries := ValueLogMaxEntries o;
     ValueLogFileSize := ValueLogFileSize o;
     MemTableSize := MemTableSize o; silentLogger := silentLogger o |}.

Definition WithValueLogMaxEntries (v : Z) (o : Options) : Options :=
  {| Dir := Dir o; ReadOnly := ReadOnly o; NumMemtables := NumMemtables o;
     NumLevelZeroTables := NumLevelZeroTables o;
     NumLevelZeroTablesStall := NumLevelZeroTablesStall o;
     ValueLogMaxEntries := v;
     ValueLogFileSize := ValueLogFileSize o;
     MemTableSize := MemTableSize o; silentLogger := silentLogger o |}.

Definition WithValueLogFileSize (v : Z) (o : Options) : Options :=
  {| Dir := Dir o; ReadOnly := ReadOnly o; NumMemtables := NumMemtables o;
     NumLevelZeroTables := NumLevelZeroTables o;
     NumLevelZeroTablesStall := NumLevelZeroTablesStall o;
     ValueLogMaxEntries := ValueLogMaxEntries o;
     ValueLogFileSize := v;
     MemTableSize := MemTableSize o; silentLogger := silentLogger o |}.

Definition WithMemTableSize (v : Z) (o : Options) : Options :=
  {| Dir := Dir o; ReadOnly := ReadOnly o; NumMemtables := NumMemtables o;
     NumLevelZeroTables := NumLevelZeroTables o;
     NumLevelZeroTablesStall := NumLevelZeroTablesStall o;
     ValueLogMaxEntries := ValueLogMaxEntries o;
     ValueLogFileSize := ValueLogFileSize o;
     MemTableSize := v; silentLogger := silentLogger o |}.

(** [WithLogger(&noLogger{})] *)
Definition WithNoLogger (o : Options) : Options :=
  {| Dir := Dir o; ReadOnly := ReadOnly o; NumMemtables := NumMemtables o;
     NumLevelZeroTables := NumLevelZeroTables o;
     NumLevelZeroTablesStall := NumLevelZeroTablesStall o;
     ValueLogMaxEntries := ValueLogMaxEntries o;
     ValueLogFileSize := ValueLogFileSize o;
     MemTableSize := MemTableSize o; silentLogger := true |}.

Section Badger.
(** The library's defaults, its [Open], the platform name and the
    environment are given from outside. *)
Variable DefaultOptions : string -> Options.
Variable badgerDB : Type.
Variable badger_Open : Options -> result badgerDB.
Variable GOOS : string.
Variable Getenv : string -> string.

Record badgerStorage := { db : badgerDB; path : string }.

(** The options [newBadgerStorage] has built when it reaches
    [badger.Open]. *)
Definition storageOptions (dir : string) (ro : bool) : Options :=
  let opt := DefaultOptions dir in
  let opt :=
    if ro && negb (String.eqb GOOS "windows") then WithReadOnly ro opt
    else opt in
  let opt := WithNumMemtables 1 opt in
  let opt := WithNumLevelZeroTables 1 opt in
  let opt := WithNumLevelZeroTablesStall 2 opt in
  let opt := WithValueLogMaxEntries 100000 opt in
  let opt := WithValueLogFileSize (Z.shiftl 64 20) opt in
  let opt := WithMemTableSize (Z.shiftl 16 20) opt in
  if String.eqb (Getenv "DEBUG") "" then WithNoLogger opt else opt.

Definition newBadgerStorage (dir : string) (ro : bool)
  : result badgerStorage :=
  match badger_Open (storageOptions dir ro) with
  | Ok d => Ok {| db := d; path := dir |}
  | Err e => Err ("error creating badger key-value object: " +:+ e)
  | Panic e => Panic e
  end.
End Badger.

(** *** The chunks of [loadSource] *)

(** [kvChunkSize] *)
Definition kvChunkSize : Z := 1000.

Section Chunks.
Variable lookups : Type.
Variables loadPartnerRow loadBaseRow loadSimpleTaxesRow loadTaxRow :
  lookups -> list string -> result string.

(** The variables of the goroutine that fills the chunks, and the chunks it
    has sent to the workers so far. *)
Record chunker := {
  chunk : list item;
  sentChunks : list (list item)
}.

(** One row received from the source. *)
Definition chunkStep (s : sourceType) (l : lookups) (st : chunker)
    (r : list string) : result chunker :=
  match newKVItem lookups loadPartnerRow loadBaseRow loadSimpleTaxesRow
          loadTaxRow s l r with
  | Err e => Err ("error creating item: " +:+ e)
  | Panic e => Panic e
  | Ok i =>
      let chunk := chunk st ++ [i] in
      if kvChunkSize <=? Z.of_nat (length chunk) then
        Ok {| chunk := []; sentChunks := sentChunks st ++ [chunk] |}
      else
        Ok {| chunk := chunk; sentChunks := sentChunks st |}
  end.

(** The rows of the source, one after the other, until one fails. *)
Fixpoint chunkLoop (s : sourceType) (l : lookups) (st : chunker)
    (rows : list (list string)) : result chunker :=
  match rows with
  | [] => Ok st
  | r :: rows =>
      match chunkStep s l st r with
      | Ok st => chunkLoop s l st rows
      | Err e => Err e
      | Panic e => Panic e
      end
  end.

(** The chunks the workers receive when the run is not cancelled: the full
    ones, then what is left when the source is closed. *)
Definition sourceChunks (s : sourceType) (l : lookups)
    (rows : list (list string)) : result (list (list item)) :=
  match chunkLoop s l {| chunk := []; sentChunks := [] |} rows with
  | Ok st =>
      match chunk st with
      | [] => Ok (sentChunks st)
      | _ => Ok (sentChunks st ++ [chunk st])
      end
  | Err e => Err e
  | Panic e => Panic e
  end.

End Chunks.

End KV.

(** ** The PostgreSQL writers ([db/postgres.go]) *)

Module PG.

(** *** Strings *)

Definition len (s : string) : Z := Z.of_nat (String.length s).

(** [s[:n]] for [0 <= n <= len(s)] *)
Definition prefix (n : Z) (s : string) : string :=
  String.substring 0 (Z.to_nat n) s.

Definition isDigit (c : ascii) : bool :=
  let n := Bytes.byte_of_ascii c in (48 <=? n) && (n <=? 57).

(** [removeNonDigits]: the regular expression [\D] matches every character
    that is not an ASCII digit; every byte of a multi-byte character is
    above 127, so on bytes this keeps exactly the bytes ['0'..'9']. *)
Fixpoint removeNonDigits (s : string) : string :=
  match s with
  | EmptyString => EmptyString
  | String c s' =>
      if isDigit c then String c (removeNonDigits s') else removeNonDigits s'
  end.

Definition truncateString (s : string) (maxLen : Z) : string :=
  if maxLen <=? 0 then s
  else if len s <=? maxLen then s
  else if maxLen <=? 3 then prefix maxLen s
  else prefix (maxLen - 3) s +:+ "...".

Definition truncateTo120 (s : string) : string := truncateString s 120.

(** [strconv.Itoa] *)
Definition Itoa (n : Z) : string := NilZero.string_of_int (Z.to_int n).

(** [fmt.Sprintf("%07d", n)]: the sign, then zeros up to a width of 7. *)
Definition Sprintf_07d (n : Z) : string :=
  let digits := Itoa (Z.abs n) in
  let width := if n <? 0 then 6 else 7 in
  let zeros := String.concat "" (repeat "0" (Z.to_nat (width - len digits))) in
  (if n <? 0 then "-" else "") +:+ zeros +:+ digits.

(** *** The records of package [transform] that the writers read *)

(** An instant ([time.Time]; the package's [date] is the same type). *)
Definition Time := Z.

(** A [float64], by its bit pattern: the writers only copy it. *)
Inductive float64 := Float64bits (bits : Z).

Record CNAE := { Codigo : Z; Descricao : string }.

(** The fields of [PartnerData] that the writers read. *)
Record PartnerData := {
  NomeSocio : string;
  CNPJCPFDoSocio : string;
  QualificaoSocio : option string;
  DataEntradaSociedade : option Time
}.

(** The fields of [Company] that the writers read. *)
Record Company := {
  CNPJ : string;
  RazaoSocial : string;
  NomeFantasia : string;
  SituacaoCadastral : option Z;
  CNAEFiscal : option Z;
  CNAEFiscalDescricao : option string;
  CNAESecundarios : list CNAE;
  CapitalSocial : option float64;
  CodigoNaturezaJuridica : option Z;
  QualificacaoDoResponsavel : option Z;
  CodigoPorte : option Z;
  DescricaoMatrizFilial : option string;
  IdentificadorMatrizFilial : option Z;
  DataSituacaoCadastral : option Time;
  MotivoSituacaoCadastral : option Z;
  DataInicioAtividade : option Time;
  Email : option string;
  CEP : string;
  Numero : string;
  Logradouro : string;
  Bairro : string;
  Municipio : option string;
  UF : string;
  DescricaoTipoDeLogradouro : string;
  Complemento : string;
  Telefone1 : string;
  Telefone2 : string;
  Fax : string;
  QuadroSocietario : list PartnerData
}.

Definition formatPhones (company : Company) : string :=
  let phones := [] in
  let phones :=
    if String.eqb (Telefone1 company) "" then phones
    else phones ++ [Telefone1 company] in
  let phones :=
    if String.eqb (Telefone2 company) "" then phones
    else phones ++ [Telefone2 company] in
  let phones :=
    if String.eqb (Fax company) "" then phones
    else phones ++ [Fax company] in
  strings_Join phones ",".

Definition formatSecondaryCNAEs (cnaes : list CNAE) : string :=
  match cnaes with
  | [] => ""
  | _ => strings_Join (map (fun cnae => Itoa (Codigo cnae)) cnaes) ","
  end.

Definition formatCNAEPrincipal (cnae : option Z) : string :=
  match cnae with
  | None => ""
  | Some n => Sprintf_07d n
  end.

Definition situacaoCadastralToString (code : option Z) : string :=
  match code with
  | None => ""
  | Some 1 => "NULA"
  | Some 2 => "ATIVA"
  | Some 3 => "SUSPENSA"
  | Some 4 => "INAPTA"
  | Some 8 => "BAIXADA"
  | Some _ => ""
  end.

Definition getStringValue (s : option string) : string :=
  match s with
  | None => ""
  | Some v => v
  end.

(** [convertDate]: a nil pointer gives nil, a date gives the same instant. *)
Definition convertDate (d : option Time) : option Time := d.

(** *** Tables *)

(** The 25 columns of the venue insert, in the order of the statement. *)
Record BusinessArgs := {
  a_cnpj : string;
  a_razao_social : string;
  a_nome_fantasia : string;
  a_situacao_cadastral : string;
  a_cnae_principal : string;
  a_tipo_cnae_principal : string;
  a_cnaes_secundarios : string;
  a_capital_social : option float64;
  a_natureza_juridica : string;
  a_qualificacao_responsavel : string;
  a_porte_empresa : string;
  a_identificador_matriz_filial : string;
  a_data_situacao_cadastral : option Time;
  a_motivo_situacao_cadastral : string;
  a_data_inicio_atividade : option Time;
  a_email : string;
  a_endereco_cep : string;
  a_endereco_numero : string;
  a_endereco_logradouro : string;
  a_endereco_bairro : string;
  a_endereco_cidade : string;
  a_endereco_uf : string;
  a_endereco_tipo : Z;
  a_endereco_complemento : string;
  a_telefones : string
}.

(** A row of [business]: the surrogate key, the inserted columns and the
    two timestamps the table fills in. *)
Record BusinessRow := {
  b_id : Z;
  b_cols : BusinessArgs;
  b_created_at : Time;
  b_updated_at : Time
}.

Definition b_cnpj (b : BusinessRow) : string := a_cnpj (b_cols b).

(** The six columns of the partner insert. *)
Record SocioArgs := {
  s_business_id : Z;
  s_cnpj : string;
  s_nome_socio : string;
  s_cpf_socio : option string;
  s_data_entrada_sociedade : option Time;
  s_qualificacao : string
}.

Record SocioRow := { s_id : Z; s_cols : SocioArgs }.

Record DB := {
  business : list BusinessRow;
  business_seq : Z;
  socios_cnpj : list SocioRow;
  socios_seq : Z;
  meta : gmap string string
}.

Definition emptyDB : DB :=
  {| business := []; business_seq := 1; socios_cnpj := []; socios_seq := 1;
     meta := ∅ |}.

(** *** The statements the writers send, and what they do to the tables *)

Inductive Stmt :=
  | Begin
  | Commit
  | Rollback
  | SetLocal (setting value : string)
  (** [INSERT INTO business (...) VALUES ... ON CONFLICT (cnpj) DO NOTHING
      RETURNING id, cnpj] *)
  | InsertBusiness (rows : list BusinessArgs)
  (** [SELECT id, cnpj FROM business WHERE cnpj IN (...)] *)
  | SelectBusinessByCnpj (cnpjs : list string)
  (** [SELECT id, LEFT(cnpj, 8) FROM business WHERE LEFT(cnpj, 8) IN (...)] *)
  | SelectBusinessByBase (bases : list string)
  (** [SELECT id, cnpj FROM business WHERE id IN (...)] *)
  | SelectBusinessById (ids : list Z)
  (** [SELECT id FROM business WHERE cnpj LIKE $1 || '%'] *)
  | SelectIdByPrefix (cnpjBase : string)
  (** [SELECT id FROM business WHERE cnpj = $1] *)
  | SelectIdByCnpj (cnpj : string)
  (** [SELECT cnpj FROM business WHERE id = $1] *)
  | SelectCnpjById (id : Z)
  (** [INSERT INTO socios_cnpj (...) VALUES ... ON CONFLICT (cnpj,
      nome_socio) DO NOTHING] *)
  | InsertSocios (rows : list SocioArgs)
  (** the [meta_save] template with its two arguments *)
  | MetaSaveSQL (k v : string).

Definition withBusiness (rows : list BusinessRow) (seq : Z) (d : DB) : DB :=
  {| business := rows; business_seq := seq;
     socios_cnpj := socios_cnpj d; socios_seq := socios_seq d;
     meta := meta d |}.

Definition withSocios (rows : list SocioRow) (seq : Z) (d : DB) : DB :=
  {| business := business d; business_seq := business_seq d;
     socios_cnpj := rows; socios_seq := seq; meta := meta d |}.

Definition withMeta (m : gmap string string) (d : DB) : DB :=
  {| business := business d; business_seq := business_seq d;
     socios_cnpj := socios_cnpj d; socios_seq := socios_seq d; meta := m |}.

(** One proposed venue row under [ON CONFLICT (cnpj) DO NOTHING]: the
    sequence gives the row its id (a value is drawn even when the row is
    then dropped); a row whose [cnpj] is already in the table, or earlier in
    the same statement, is dropped; a new row gets both timestamps from the
    clock of the transaction.

    Modelled from the spec: the table definition is not under src/; the
    output schema lists [id], [updated_at] and [created_at], which the insert
    does not name and the table fills in. *)
Definition insertBusinessRow (now : Time) (acc : DB * list (Z * string))
    (a : BusinessArgs) : DB * list (Z * string) :=
  let '(d, returning) := acc in
  let id := business_seq d in
  if decide (a_cnpj a ∈ b_cnpj <$> business d)
  then (withBusiness (business d) (id + 1) d, returning)
  else
    let row := {| b_id := id; b_cols := a;
                  b_created_at := now; b_updated_at := now |} in
    (withBusiness (business d ++ [row]) (id + 1) d,
     returning ++ [(id, a_cnpj a)]).

Definition insertBusiness (now : Time) (rows : list BusinessArgs) (d : DB)
  : DB * list (Z * string) :=
  foldl (insertBusinessRow now) (d, []) rows.

Definition selectBusinessByCnpj (cnpjs : list string) (d : DB)
  : list (Z * string) :=
  (fun b => (b_id b, b_cnpj b)) <$> filter (fun b => b_cnpj b ∈ cnpjs) (business d).

(** [LEFT(cnpj, 8)] *)
Definition LEFT8 (cnpj : string) : string := String.substring 0 8 cnpj.

Definition selectBusinessByBase (bases : list string) (d : DB)
  : list (Z * string) :=
  (fun b => (b_id b, LEFT8 (b_cnpj b)))
    <$> filter (fun b => LEFT8 (b_cnpj b) ∈ bases) (business d).

Definition selectBusinessById (ids : list Z) (d : DB) : list (Z * string) :=
  (fun b => (b_id b, b_cnpj b)) <$> filter (fun b => b_id b ∈ ids) (business d).

Definition selectIdByPrefix (p : string) (d : DB) : list Z :=
  b_id <$> filter (fun b => String.prefix p (b_cnpj b) = true) (business d).

Definition selectIdByCnpj (c : string) (d : DB) : list Z :=
  b_id <$> filter (fun b => b_cnpj b = c) (business d).

Definition selectCnpjById (id : Z) (d : DB) : list string :=
  b_cnpj <$> filter (fun b => b_id b = id) (business d).

Definition sameSocio (a : SocioArgs) (r : SocioRow) : Prop :=
  s_cnpj (s_cols r) = s_cnpj a /\ s_nome_socio (s_cols r) = s_nome_socio a.

#[global] Instance sameSocio_dec a r : Decision (sameSocio a r).
Proof. unfold sameSocio. apply _. Defined.

(** One proposed partner row under [ON CONFLICT (cnpj, nome_socio) DO
    NOTHING]. *)
Definition insertSocioRow (d : DB) (a : SocioArgs) : DB :=
  let id := socios_seq d in
  if decide (Exists (sameSocio a) (socios_cnpj d))
  then withSocios (socios_cnpj d) (id + 1) d
  else withSocios (socios_cnpj d ++ [{| s_id := id; s_cols := a |}]) (id + 1) d.

Definition insertSocios (rows : list SocioArgs) (d : DB) : DB :=
  foldl insertSocioRow d rows.

(** Modelled from the spec: the [meta_save] template is not under src/;
    saving a pair stores the value under the key in [meta(key, value)],
    replacing an earlier value. *)
Definition metaSave (k v : string) (d : DB) : DB :=
  withMeta (<[k := v]> (meta d)) d.

(** *** Logging, failures and the state the writers run in *)

Inductive Level := LevelInfo | LevelWarn | LevelError.

Inductive Attr :=
  | AttrStr (k v : string)
  | AttrInt (k : string) (v : Z).

Record LogEntry := { level : Level; message : string; attrs : list Attr }.

Definition Warn (msg : string) (a : list Attr) : LogEntry :=
  {| level := LevelWarn; message := msg; attrs := a |}.

Definition Error (msg : string) (a : list Attr) : LogEntry :=
  {| level := LevelError; message := msg; attrs := a |}.

(** The places where a call to the database can fail. *)
Inductive Site :=
  | AtBegin
  | AtSetLocal (setting : string)
  | AtInsertBusiness
  | AtSelectExisting
  | AtInsertPartners
  | AtCommit
  | AtRollback
  | AtQueryBases
  | AtQueryFull
  | AtQueryIds
  | AtQueryOne
  | AtQueryCnpj
  | AtFallbackInsert (i : nat)
  | AtRenderTemplate (key : string)
  | AtMetaExec
  (** a site inside the loop iteration of one business *)
  | ForBusiness (businessID : Z) (s : Site).

(** The environment decides which calls fail, and with which error; a call
    that fails changes nothing. *)
Definition Env := Site -> option string.

Definition noFaults : Env := fun _ => None.

(** What a database call gives back. *)
Inductive outcome (A : Type) : Type :=
  | Done (a : A)
  | Failed (e : string).
Arguments Done {A} a.
Arguments Failed {A} e.

(** A run of a writer: what it returns, the committed tables after it, the
    log entries it wrote and the statements it sent, in order. *)
Record Ran (A : Type) : Type := {
  returned : A;
  tables : DB;
  logged : list LogEntry;
  statements : list Stmt
}.
Arguments returned {A} r.
Arguments tables {A} r.
Arguments logged {A} r.
Arguments statements {A} r.

(** A writer runs from the committed tables. *)
Definition M (A : Type) : Type := DB -> Ran A.

Definition ret {A} (a : A) : M A :=
  fun d => {| returned := a; tables := d; logged := []; statements := [] |}.

Definition bind {A B} (m : M A) (k : A -> M B) : M B :=
  fun d =>
    let r1 := m d in
    let r2 := k (returned r1) (tables r1) in
    {| returned := returned r2; tables := tables r2;
       logged := logged r1 ++ logged r2;
       statements := statements r1 ++ statements r2 |}.

Notation "x <- m ;; k" := (bind m (fun x => k))
  (at level 100, m at next level, right associativity).
Notation "m ;; k" := (bind m (fun _ => k))
  (at level 100, right associativity).

Definition slogs (es : list LogEntry) : M unit :=
  fun d => {| returned := tt; tables := d; logged := es; statements := [] |}.

Definition slog (e : LogEntry) : M unit := slogs [e].

Definition sent (st : Stmt) : M unit :=
  fun d => {| returned := tt; tables := d; logged := []; statements := [st] |}.

(** [pool.Begin]: the transaction works on its own copy of the tables. *)
Definition pool_Begin (env : Env) (site : Site) : M (outcome DB) :=
  sent Begin ;;
  fun d =>
    {| returned := match env site with
                   | Some e => Failed e
                   | None => Done d
                   end;
       tables := d; logged := []; statements := [] |}.

(** A statement inside a transaction: [sem] is what it does to the copy. *)
Definition tx_run {A} (env : Env) (site : Site) (st : Stmt)
    (sem : DB -> DB * A) (tx : DB) : M (outcome A * DB) :=
  sent st ;;
  ret (match env site with
       | Some e => (Failed e, tx)
       | None => (Done (snd (sem tx)), fst (sem tx))
       end).

(** A statement sent through the pool, outside a transaction. *)
Definition pool_run {A} (env : Env) (site : Site) (st : Stmt)
    (sem : DB -> DB * A) : M (outcome A) :=
  sent st ;;
  fun d =>
    match env site with
    | Some e =>
        {| returned := Failed e; tables := d; logged := []; statements := [] |}
    | None =>
        {| returned := Done (snd (sem d)); tables := fst (sem d);
           logged := []; statements := [] |}
    end.

(** [tx.Commit]: the copy becomes the committed tables. *)
Definition tx_Commit (env : Env) (site : Site) (tx : DB) : M (option string) :=
  sent Commit ;;
  fun d =>
    match env site with
    | Some e =>
        {| returned := Some e; tables := d; logged := []; statements := [] |}
    | None =>
        {| returned := None; tables := tx; logged := []; statements := [] |}
    end.

(** [tx.Rollback]: the copy is dropped. *)
Definition tx_Rollback (env : Env) (site : Site) : M (option string) :=
  sent Rollback ;; ret (env site).

Definition query {A} (f : DB -> A) : DB -> DB * A := fun d => (d, f d).
Definition exec (f : DB -> DB) : DB -> DB * unit := fun d => (f d, tt).

(** *** [CreateCompaniesStructuredDirect] *)

(** [SET LOCAL ...]: a failure is logged and the writer goes on. *)
Definition setLocal (env : Env) (site : Site) (setting value warning : string)
    (tx : DB) : M DB :=
  r <- tx_run env site (SetLocal setting value) (exec id) tx ;;
  match r with
  | (Done _, tx) => ret tx
  | (Failed e, tx) => slog (Warn warning [AttrStr "error" e]) ;; ret tx
  end.

(** [s] cut to its first 200 bytes when it is longer. *)
Definition cut200 (s : string) : string :=
  if 200 <? len s then prefix 200 s else s.

(** The 25 arguments the first loop appends for one company. *)
Definition businessArgs (company : Company) (cleanCNPJ : string)
  : BusinessArgs :=
  let capitalSocial := CapitalSocial company in
  let naturezaJuridica :=
    match CodigoNaturezaJuridica company with Some n => Itoa n | None => "" end in
  let qualificacaoResponsavel :=
    match QualificacaoDoResponsavel company with Some n => Itoa n | None => "" end in
  let porteEmpresa :=
    match CodigoPorte company with Some n => Itoa n | None => "" end in
  let identificadorMatrizFilial :=
    match DescricaoMatrizFilial company with
    | Some d => d
    | None =>
        match IdentificadorMatrizFilial company with
        | Some 2 => "FILIAL"
        | _ => "MATRIZ"
        end
    end in
  let motivoSituacaoCadastral :=
    match MotivoSituacaoCadastral company with Some n => Itoa n | None => "" end in
  let cleanCEP := removeNonDigits (CEP company) in
  let cleanCEP := if 8 <? len cleanCEP then prefix 8 cleanCEP else cleanCEP in
  let enderecoTipo := 0 in
  let municipio :=
    match Municipio company with Some m => m | None => "" end in
  {| a_cnpj := cleanCNPJ;
     a_razao_social := cut200 (RazaoSocial company);
     a_nome_fantasia := cut200 (NomeFantasia company);
     a_situacao_cadastral := situacaoCadastralToString (SituacaoCadastral company);
     a_cnae_principal := formatCNAEPrincipal (CNAEFiscal company);
     a_tipo_cnae_principal := getStringValue (CNAEFiscalDescricao company);
     a_cnaes_secundarios := formatSecondaryCNAEs (CNAESecundarios company);
     a_capital_social := capitalSocial;
     a_natureza_juridica := naturezaJuridica;
     a_qualificacao_responsavel := qualificacaoResponsavel;
     a_porte_empresa := porteEmpresa;
     a_identificador_matriz_filial := identificadorMatrizFilial;
     a_data_situacao_cadastral := convertDate (DataSituacaoCadastral company);
     a_motivo_situacao_cadastral := motivoSituacaoCadastral;
     a_data_inicio_atividade := convertDate (DataInicioAtividade company);
     a_email := getStringValue (Email company);
     a_endereco_cep := cleanCEP;
     a_endereco_numero := Numero company;
     a_endereco_logradouro := cut200 (Logradouro company);
     a_endereco_bairro := cut200 (Bairro company);
     a_endereco_cidade := cut200 municipio;
     a_endereco_uf := UF company;
     a_endereco_tipo := enderecoTipo;
     a_endereco_complemento := cut200 (Complemento company);
     a_telefones := formatPhones company |}.

(** The accumulators of the first loop: [values]/[args], [businessIDMap],
    and the warnings it logs, in order. *)
Definition businessStep
    (acc : list BusinessArgs * gmap string Z * list LogEntry)
    (company : Company) : list BusinessArgs * gmap string Z * list LogEntry :=
  let '(values, businessIDMap, warnings) := acc in
  let cleanCNPJ := removeNonDigits (CNPJ company) in
  if negb (len cleanCNPJ =? 14) then
    (values, businessIDMap,
     warnings ++ [Warn "invalid CNPJ length" [AttrStr "cnpj" cleanCNPJ]])
  else
    (values ++ [businessArgs company cleanCNPJ],
     <[cleanCNPJ := 0]> businessIDMap,
     warnings).

Definition businessLoop (batch : list Company)
  : list BusinessArgs * gmap string Z * list LogEntry :=
  foldl businessStep ([], ∅, []) batch.

(** [businessIDMap[cnpj] = businessID] for every returned row. *)
Definition fillIDs (businessIDMap : gmap string Z) (rows : list (Z * string))
  : gmap string Z :=
  foldl (fun m row => <[snd row := fst row]> m) businessIDMap rows.

(** The keys of [businessIDMap] that [RETURNING] did not give back. *)
Definition missingOf (order : MapOrder) (businessIDMap : gmap string Z)
    (insertedCNPJs : gset string) : list string :=
  filter (fun cnpj => cnpj ∉ insertedCNPJs) (fst <$> range order businessIDMap).

(** The block under [if len(values) > 0]: the one multi-row insert, then the
    lookup of the ids of the venues that were already there. *)
Definition insertBusinesses (order : MapOrder) (env : Env) (now : Time)
    (values : list BusinessArgs) (businessIDMap : gmap string Z) (tx : DB)
  : M (outcome (gmap string Z) * DB) :=
  match values with
  | [] => ret (Done businessIDMap, tx)
  | _ =>
      r <- tx_run env AtInsertBusiness (InsertBusiness values)
             (insertBusiness now values) tx ;;
      match r with
      | (Failed e, tx) =>
          slog (Error "error batch inserting businesses"
                  [AttrStr "error" e;
                   AttrInt "count" (Z.of_nat (length values))]) ;;
          ret (Failed ("error batch inserting businesses: " +:+ e), tx)
      | (Done rows, tx) =>
          let businessIDMap := fillIDs businessIDMap rows in
          let insertedCNPJs : gset string := list_to_set (snd <$> rows) in
          let missingCNPJs := missingOf order businessIDMap insertedCNPJs in
          match missingCNPJs with
          | [] => ret (Done businessIDMap, tx)
          | _ =>
              r <- tx_run env AtSelectExisting
                     (SelectBusinessByCnpj missingCNPJs)
                     (query (selectBusinessByCnpj missingCNPJs)) tx ;;
              match r with
              | (Failed e, tx) =>
                  slog (Warn "error querying existing businesses"
                          [AttrStr "error" e]) ;;
                  ret (Done businessIDMap, tx)
              | (Done existingRows, tx) =>
                  ret (Done (fillIDs businessIDMap existingRows), tx)
              end
          end
      end
  end.

(** The body of the loop over one company's partners. *)
Definition partnerStep (businessID : Z) (cleanCNPJ : string)
    (acc : list SocioArgs * list LogEntry) (partner : PartnerData)
  : list SocioArgs * list LogEntry :=
  let '(partnerValues, warnings) := acc in
  let dataEntrada := DataEntradaSociedade partner in
  let qualificacao := getStringValue (QualificaoSocio partner) in
  let cleanCPFSocio := removeNonDigits (CNPJCPFDoSocio partner) in
  if 11 <? len cleanCPFSocio then
    (partnerValues,
     warnings ++ [Warn "CPF com mais de 11 dígitos, ignorando sócio"
                    [AttrInt "business_id" businessID;
                     AttrStr "cpf" cleanCPFSocio;
                     AttrStr "partner" (NomeSocio partner)]])
  else
    let cpfSocioValue :=
      if String.eqb cleanCPFSocio "" then None else Some cleanCPFSocio in
    (partnerValues ++
       [{| s_business_id := businessID; s_cnpj := cleanCNPJ;
           s_nome_socio := cut200 (NomeSocio partner);
           s_cpf_socio := cpfSocioValue;
           s_data_entrada_sociedade := dataEntrada;
           s_qualificacao := cut200 qualificacao |}],
     warnings).

(** The second loop over the batch. *)
Definition partnersStep (businessIDMap : gmap string Z)
    (acc : list SocioArgs * list LogEntry) (company : Company)
  : list SocioArgs * list LogEntry :=
  let cleanCNPJ := removeNonDigits (CNPJ company) in
  if negb (len cleanCNPJ =? 14) then acc
  else
    match businessIDMap !! cleanCNPJ with
    | None => acc
    | Some businessID =>
        if businessID =? 0 then acc
        else foldl (partnerStep businessID cleanCNPJ) acc
               (QuadroSocietario company)
    end.

Definition partnersLoop (businessIDMap : gmap string Z) (batch : list Company)
  : list SocioArgs * list LogEntry :=
  foldl (partnersStep businessIDMap) ([], []) batch.

(** The partner insert: a failure is logged and the writer goes on to the
    commit. *)
Definition insertPartners (env : Env) (partnerValues : list SocioArgs)
    (tx : DB) : M DB :=
  match partnerValues with
  | [] => ret tx
  | _ =>
      r <- tx_run env AtInsertPartners (InsertSocios partnerValues)
             (exec (insertSocios partnerValues)) tx ;;
      match r with
      | (Done _, tx) => ret tx
      | (Failed e, tx) =>
          slog (Warn "error batch inserting partners"
                  [AttrStr "error" e;
                   AttrInt "count" (Z.of_nat (length partnerValues))]) ;;
          ret tx
      end
  end.

(** The commit and what follows it. *)
Definition commitBatch (env : Env) (tx : DB) : M (option string) :=
  r <- tx_Commit env AtCommit tx ;;
  match r with
  | Some e =>
      rb <- tx_Rollback env AtRollback ;;
      match rb with
      | Some rbErr =>
          slog (Warn "error rolling back failed commit"
                  [AttrStr "error" rbErr])
      | None => ret tt
      end ;;
      ret (Some ("error committing transaction: " +:+ e))
  | None => ret None
  end.

(** The writer returns Go's [error]: [None] is [nil].  [now] is the clock
    of the transaction.  The deferred [tx.Rollback] drops the copy on every
    path that has not committed it. *)
Definition CreateCompaniesStructuredDirect (order : MapOrder) (env : Env)
    (now : Time) (batch : list Company) : M (option string) :=
  r <- pool_Begin env AtBegin ;;
  match r with
  | Failed e => ret (Some ("error beginning transaction: " +:+ e))
  | Done tx =>
      tx <- setLocal env (AtSetLocal "synchronous_commit")
              "synchronous_commit" "OFF"
              "Could not disable synchronous commit" tx ;;
      tx <- setLocal env (AtSetLocal "work_mem") "work_mem" "'256MB'"
              "Could not set work_mem" tx ;;
      tx <- setLocal env (AtSetLocal "maintenance_work_mem")
              "maintenance_work_mem" "'512MB'"
              "Could not set maintenance_work_mem" tx ;;
      tx <- setLocal env (AtSetLocal "constraint_exclusion")
              "constraint_exclusion" "off"
              "Could not set constraint_exclusion" tx ;;
      let '(values, businessIDMap, warnings) := businessLoop batch in
      slogs warnings ;;
      r <- insertBusinesses order env now values businessIDMap tx ;;
      match r with
      | (Failed e, _) => ret (Some e)
      | (Done businessIDMap, tx) =>
          let '(partnerValues, warnings) := partnersLoop businessIDMap batch in
          slogs warnings ;;
          tx <- insertPartners env partnerValues tx ;;
          commitBatch env tx
      end
  end.

(** Modelled from the spec: the batch-writer loop of Phase B (venues.go) is
    not under src/.  The batches of a run are written one transaction per
    batch; the first error a writer returns cancels the run.  Each call has
    its own environment and clock. *)
Fixpoint runBatches (order : MapOrder)
    (calls : list (Env * Time * list Company)) : M (option string) :=
  match calls with
  | [] => ret None
  | (env, now, batch) :: rest =>
      r <- CreateCompaniesStructuredDirect order env now batch ;;
      match r with
      | Some e => ret (Some e)
      | None => runBatches order rest
      end
  end.

(** *** The partners-only writers *)

(** The loop that builds the rows of one business's partner insert; the
    same text is in [ImportPartnersOnly] and in [ImportPartnersBatch]. *)
Definition partnerRowStep (businessID : Z) (fullCNPJ : string)
    (acc : list SocioArgs * list LogEntry) (partner : PartnerData)
  : list SocioArgs * list LogEntry :=
  let '(values, warnings) := acc in
  let dataEntrada := DataEntradaSociedade partner in
  let qualificacao := getStringValue (QualificaoSocio partner) in
  let cleanCPFSocio := removeNonDigits (CNPJCPFDoSocio partner) in
  if 11 <? len cleanCPFSocio then
    (values,
     warnings ++ [Warn "CPF com mais de 11 dígitos, ignorando sócio"
                    [AttrInt "business_id" businessID;
                     AttrStr "cpf" cleanCPFSocio;
                     AttrStr "partner" (NomeSocio partner)]])
  else
    let cpfSocioValue :=
      if String.eqb cleanCPFSocio "" then None else Some cleanCPFSocio in
    let nomeSocio := truncateTo120 (NomeSocio partner) in
    let qualificacaoTrunc := truncateTo120 qualificacao in
    (values ++
       [{| s_business_id := businessID; s_cnpj := fullCNPJ;
           s_nome_socio := nomeSocio;
           s_cpf_socio := cpfSocioValue;
           s_data_entrada_sociedade := dataEntrada;
           s_qualificacao := qualificacaoTrunc |}],
     warnings).

Definition partnerRows (businessID : Z) (fullCNPJ : string)
    (partners : list PartnerData) : list SocioArgs * list LogEntry :=
  foldl (partnerRowStep businessID fullCNPJ) ([], []) partners.

(** The first loop of [ImportPartnersBatch]: the keys by length. *)
Definition splitStep
    (acc : list string * list string * gmap string (list PartnerData))
    (entry : string * list PartnerData)
  : list string * list string * gmap string (list PartnerData) :=
  let '(baseCNPJs, fullCNPJs, cnpjToPartners) := acc in
  let '(cnpj, partners) := entry in
  let cleanCNPJ := removeNonDigits cnpj in
  let cnpjToPartners := <[cleanCNPJ := partners]> cnpjToPartners in
  if len cleanCNPJ =? 8 then
    (baseCNPJs ++ [cleanCNPJ], fullCNPJs, cnpjToPartners)
  else if len cleanCNPJ =? 14 then
    (baseCNPJs, fullCNPJs ++ [cleanCNPJ], cnpjToPartners)
  else (baseCNPJs, fullCNPJs, cnpjToPartners).

(** [m[k] = append(m[k], x)] *)
Definition appendTo {K} `{Countable K} {A} (m : gmap K (list A)) (k : K)
    (xs : list A) : gmap K (list A) :=
  <[k := default [] (m !! k) ++ xs]> m.

Definition appendIDs (m : gmap string (list Z)) (rows : list (Z * string))
  : gmap string (list Z) :=
  foldl (fun m row => appendTo m (snd row) [fst row]) m rows.

(** The ids without repetition, each at its first place. *)
Definition uniqueStep (acc : gset Z * list Z) (id : Z) : gset Z * list Z :=
  let '(seen, uniqueBusinessIDs) := acc in
  if decide (id ∈ seen) then acc
  else ({[id]} ∪ seen, uniqueBusinessIDs ++ [id]).

Definition uniqueIDs (ids : list Z) : list Z :=
  snd (foldl uniqueStep (∅, []) ids).

Definition fillCNPJs (m : gmap Z string) (rows : list (Z * string))
  : gmap Z string :=
  foldl (fun m row => <[fst row := snd row]> m) m rows.

(** The loop that groups the partners by business. *)
Definition groupIDStep (businessIDToCNPJ : gmap Z string)
    (partners : list PartnerData)
    (acc : gmap Z (list PartnerData) * gmap Z string * list LogEntry)
    (businessID : Z)
  : gmap Z (list PartnerData) * gmap Z string * list LogEntry :=
  let '(businessIDToPartners, businessIDToFullCNPJ, warnings) := acc in
  match businessIDToCNPJ !! businessID with
  | None =>
      (businessIDToPartners, businessIDToFullCNPJ,
       warnings ++ [Warn "CNPJ not found for business_id"
                      [AttrInt "business_id" businessID]])
  | Some fullCNPJ =>
      (appendTo businessIDToPartners businessID partners,
       <[businessID := fullCNPJ]> businessIDToFullCNPJ,
       warnings)
  end.

Definition groupStep (cnpjToBusinessIDs : gmap string (list Z))
    (businessIDToCNPJ : gmap Z string)
    (acc : gmap Z (list PartnerData) * gmap Z string * list LogEntry)
    (entry : string * list PartnerData)
  : gmap Z (list PartnerData) * gmap Z string * list LogEntry :=
  let '(cnpj, partners) := entry in
  match default [] (cnpjToBusinessIDs !! cnpj) with
  | [] =>
      let '(businessIDToPartners, businessIDToFullCNPJ, warnings) := acc in
      (businessIDToPartners, businessIDToFullCNPJ,
       warnings ++ [Warn "No businesses found for CNPJ, skipping partners"
                      [AttrStr "cnpj" cnpj]])
  | businessIDs => foldl (groupIDStep businessIDToCNPJ partners) acc businessIDs
  end.

(** One iteration of the loop over the businesses: [Some e] when the
    function returns [e], [None] when the loop goes on. *)
Definition importBusiness (env : Env) (businessID : Z) (fullCNPJ : string)
    (partners : list PartnerData) : M (option string) :=
  r <- pool_Begin env (ForBusiness businessID AtBegin) ;;
  match r with
  | Failed e => ret (Some ("error beginning transaction: " +:+ e))
  | Done tx =>
      tx <- setLocal env (ForBusiness businessID (AtSetLocal "synchronous_commit"))
              "synchronous_commit" "OFF"
              "Could not disable synchronous commit" tx ;;
      tx <- setLocal env (ForBusiness businessID (AtSetLocal "work_mem"))
              "work_mem" "'64MB'" "Could not set work_mem" tx ;;
      let commit tx :=
        r <- tx_Commit env (ForBusiness businessID AtCommit) tx ;;
        match r with
        | Some e =>
            slog (Warn "error committing transaction"
                    [AttrInt "business_id" businessID; AttrStr "error" e]) ;;
            tx_Rollback env (ForBusiness businessID AtRollback) ;;
            ret None
        | None => ret None
        end in
      let '(values, warnings) := partnerRows businessID fullCNPJ partners in
      slogs warnings ;;
      match values with
      | [] => commit tx
      | _ =>
          r <- tx_run env (ForBusiness businessID AtInsertPartners)
                 (InsertSocios values) (exec (insertSocios values)) tx ;;
          match r with
          | (Failed e, _) =>
              slog (Warn "error batch inserting partners"
                      [AttrInt "business_id" businessID;
                       AttrInt "partners_count" (Z.of_nat (length partners));
                       AttrStr "error" e]) ;;
              tx_Rollback env (ForBusiness businessID AtRollback) ;;
              ret None
          | (Done _, tx) => commit tx
          end
      end
  end.

Fixpoint importBusinesses (env : Env) (businessIDToFullCNPJ : gmap Z string)
    (todo : list (Z * list PartnerData)) : M (option string) :=
  match todo with
  | [] => ret None
  | (businessID, partners) :: rest =>
      let fullCNPJ := default "" (businessIDToFullCNPJ !! businessID) in
      r <- importBusiness env businessID fullCNPJ partners ;;
      match r with
      | Some e => ret (Some e)
      | None => importBusinesses env businessIDToFullCNPJ rest
      end
  end.

(** The two lookups by key, then the lookup of the national ids. *)
Definition queryBases (env : Env) (baseCNPJs : list string)
    (cnpjToBusinessIDs : gmap string (list Z))
  : M (outcome (gmap string (list Z))) :=
  match baseCNPJs with
  | [] => ret (Done cnpjToBusinessIDs)
  | _ =>
      r <- pool_run env AtQueryBases (SelectBusinessByBase baseCNPJs)
             (query (selectBusinessByBase baseCNPJs)) ;;
      match r with
      | Failed e =>
          ret (Failed ("error batch querying businesses for CNPJ bases: " +:+ e))
      | Done rows => ret (Done (appendIDs cnpjToBusinessIDs rows))
      end
  end.

Definition queryFull (env : Env) (fullCNPJs : list string)
    (cnpjToBusinessIDs : gmap string (list Z))
  : M (outcome (gmap string (list Z))) :=
  match fullCNPJs with
  | [] => ret (Done cnpjToBusinessIDs)
  | _ =>
      r <- pool_run env AtQueryFull (SelectBusinessByCnpj fullCNPJs)
             (query (selectBusinessByCnpj fullCNPJs)) ;;
      match r with
      | Failed e =>
          ret (Failed ("error batch querying businesses for full CNPJs: " +:+ e))
      | Done rows => ret (Done (appendIDs cnpjToBusinessIDs rows))
      end
  end.

Definition queryCNPJs (order : MapOrder) (env : Env)
    (cnpjToBusinessIDs : gmap string (list Z)) : M (outcome (gmap Z string)) :=
  if decide (cnpjToBusinessIDs = ∅) then ret (Done ∅)
  else
    let allBusinessIDs := concat (snd <$> range order cnpjToBusinessIDs) in
    match uniqueIDs allBusinessIDs with
    | [] => ret (Done ∅)
    | uniqueBusinessIDs =>
        r <- pool_run env AtQueryIds (SelectBusinessById uniqueBusinessIDs)
               (query (selectBusinessById uniqueBusinessIDs)) ;;
        match r with
        | Failed e =>
            ret (Failed ("error batch fetching CNPJs for business_ids: " +:+ e))
        | Done rows => ret (Done (fillCNPJs ∅ rows))
        end
    end.

Definition ImportPartnersBatch (order : MapOrder) (env : Env)
    (batch : gmap string (list PartnerData)) : M (option string) :=
  if decide (batch = ∅) then ret None
  else
    let '(baseCNPJs, fullCNPJs, cnpjToPartners) :=
      foldl splitStep ([], [], ∅) (range order batch) in
    r <- queryBases env baseCNPJs ∅ ;;
    match r with
    | Failed e => ret (Some e)
    | Done cnpjToBusinessIDs =>
        r <- queryFull env fullCNPJs cnpjToBusinessIDs ;;
        match r with
        | Failed e => ret (Some e)
        | Done cnpjToBusinessIDs =>
            r <- queryCNPJs order env cnpjToBusinessIDs ;;
            match r with
            | Failed e => ret (Some e)
            | Done businessIDToCNPJ =>
                let '(businessIDToPartners, businessIDToFullCNPJ, warnings) :=
                  foldl (groupStep cnpjToBusinessIDs businessIDToCNPJ)
                    (∅, ∅, []) (range order cnpjToPartners) in
                slogs warnings ;;
                importBusinesses env businessIDToFullCNPJ
                  (range order businessIDToPartners)
            end
        end
    end.

(** The fallback of [ImportPartnersOnly]: one insert per partner, in the
    same transaction; a failure is logged. *)
Fixpoint fallbackInserts (env : Env) (businessID : Z) (fullCNPJ : string)
    (i : nat) (partners : list PartnerData) (tx : DB) : M DB :=
  match partners with
  | [] => ret tx
  | partner :: rest =>
      match partnerRowStep businessID fullCNPJ ([], []) partner with
      | ([], _) =>
          slog (Warn "CPF com mais de 11 dígitos, ignorando sócio (fallback)"
                  [AttrInt "business_id" businessID;
                   AttrStr "cpf" (removeNonDigits (CNPJCPFDoSocio partner));
                   AttrStr "partner" (NomeSocio partner)]) ;;
          fallbackInserts env businessID fullCNPJ (S i) rest tx
      | (row, _) =>
          r <- tx_run env (ForBusiness businessID (AtFallbackInsert i))
                 (InsertSocios row) (exec (insertSocios row)) tx ;;
          match r with
          | (Failed e, tx) =>
              slog (Warn "error inserting partner (fallback)"
                      [AttrInt "business_id" businessID;
                       AttrStr "partner" (NomeSocio partner);
                       AttrStr "error" e]) ;;
              fallbackInserts env businessID fullCNPJ (S i) rest tx
          | (Done _, tx) =>
              fallbackInserts env businessID fullCNPJ (S i) rest tx
          end
      end
  end.

(** One iteration of the loop of [ImportPartnersOnly] over the ids. *)
Definition importOnlyBusiness (env : Env) (partners : list PartnerData)
    (businessID : Z) : M (option string) :=
  r <- pool_run env (ForBusiness businessID AtQueryCnpj)
         (SelectCnpjById businessID) (query (selectCnpjById businessID)) ;;
  match r with
  | Failed e =>
      slog (Warn "error getting CNPJ for business_id"
              [AttrInt "business_id" businessID; AttrStr "error" e]) ;;
      ret None
  | Done [] =>
      slog (Warn "error getting CNPJ for business_id"
              [AttrInt "business_id" businessID;
               AttrStr "error" "no rows in result set"]) ;;
      ret None
  | Done (fullCNPJ :: _) =>
      r <- pool_Begin env (ForBusiness businessID AtBegin) ;;
      match r with
      | Failed e => ret (Some ("error beginning transaction: " +:+ e))
      | Done tx =>
          tx <- setLocal env
                  (ForBusiness businessID (AtSetLocal "synchronous_commit"))
                  "synchronous_commit" "OFF"
                  "Could not disable synchronous commit" tx ;;
          tx <- setLocal env (ForBusiness businessID (AtSetLocal "work_mem"))
                  "work_mem" "'64MB'" "Could not set work_mem" tx ;;
          let '(values, warnings) := partnerRows businessID fullCNPJ partners in
          slogs warnings ;;
          tx <- match values with
                | [] => ret tx
                | _ =>
                    r <- tx_run env (ForBusiness businessID AtInsertPartners)
                           (InsertSocios values) (exec (insertSocios values)) tx ;;
                    match r with
                    | (Done _, tx) => ret tx
                    | (Failed e, tx) =>
                        slog (Warn "error batch inserting partners"
                                [AttrInt "business_id" businessID;
                                 AttrInt "partners_count"
                                   (Z.of_nat (length partners));
                                 AttrStr "error" e]) ;;
                        fallbackInserts env businessID fullCNPJ 0 partners tx
                    end
                end ;;
          r <- tx_Commit env (ForBusiness businessID AtCommit) tx ;;
          match r with
          | Some e =>
              slog (Warn "error committing transaction"
                      [AttrInt "business_id" businessID; AttrStr "error" e]) ;;
              tx_Rollback env (ForBusiness businessID AtRollback) ;;
              ret None
          | None => ret None
          end
      end
  end.

Fixpoint importOnlyBusinesses (env : Env) (partners : list PartnerData)
    (businessIDs : list Z) : M (option string) :=
  match businessIDs with
  | [] => ret None
  | businessID :: rest =>
      r <- importOnlyBusiness env partners businessID ;;
      match r with
      | Some e => ret (Some e)
      | None => importOnlyBusinesses env partners rest
      end
  end.

Definition ImportPartnersOnly (env : Env) (partners : list PartnerData)
    (cnpj : string) : M (option string) :=
  let cleanCNPJ := removeNonDigits cnpj in
  if len cleanCNPJ =? 8 then
    r <- pool_run env AtQueryBases (SelectIdByPrefix cleanCNPJ)
           (query (selectIdByPrefix cleanCNPJ)) ;;
    match r with
    | Failed e =>
        ret (Some ("error querying businesses for CNPJ base " +:+ cleanCNPJ
                   +:+ ": " +:+ e))
    | Done [] =>
        slog (Warn "No businesses found for CNPJ base, skipping partners"
                [AttrStr "cnpj_base" cleanCNPJ]) ;;
        ret None
    | Done businessIDs => importOnlyBusinesses env partners businessIDs
    end
  else if len cleanCNPJ =? 14 then
    r <- pool_run env AtQueryOne (SelectIdByCnpj cleanCNPJ)
           (query (selectIdByCnpj cleanCNPJ)) ;;
    match r with
    | Failed e =>
        ret (Some ("error getting business_id for CNPJ " +:+ cleanCNPJ
                   +:+ ": " +:+ e))
    | Done [] =>
        slog (Warn "Business not found for CNPJ, skipping partners"
                [AttrStr "cnpj" cleanCNPJ]) ;;
        ret None
    | Done (businessID :: _) => importOnlyBusinesses env partners [businessID]
    end
  else
    ret (Some ("invalid CNPJ length (expected 8 or 14 digits): " +:+ cleanCNPJ
               +:+ " (length: " +:+ Itoa (len cleanCNPJ) +:+ ")")).

(** *** [MetaSave] *)

(** [renderTemplate]: reading and rendering an embedded template can fail;
    the text it gives is the statement. *)
Definition renderTemplate (env : Env) (key : string) : M (outcome unit) :=
  match env (AtRenderTemplate key) with
  | Some e => ret (Failed e)
  | None => ret (Done tt)
  end.

Definition MetaSave (env : Env) (k v : string) : M (option string) :=
  if 16 <? len k then
    ret (Some "metatable can only take keys that are at maximum 16 chars long")
  else
    s <- renderTemplate env "meta_save" ;;
    match s with
    | Failed e => ret (Some ("error rendering meta-save template: " +:+ e))
    | Done _ =>
        r <- pool_run env AtMetaExec (MetaSaveSQL k v) (exec (metaSave k v)) ;;
        match r with
        | Failed e =>
            ret (Some ("error saving " +:+ k +:+ " to metadata: " +:+ e))
        | Done _ => ret None
        end
    end.

(** *** The batching loop of [TransformPartnersOnly] *)

Section Producer.
(** The lookup tables and the partner decoder are not under src/. *)
Variable lookups : Type.
Variable newPartnerData : lookups -> list string -> outcome PartnerData.

Definition batchSize : Z := 5000.

(** The variables of the goroutine that fills the batches, and the batches
    it has sent to the workers so far. *)
Record producer := {
  batch : gmap string (list PartnerData);
  currentBatchCount : Z;
  sentBatches : list (gmap string (list PartnerData))
}.

Definition produceStep (l : lookups) (st : producer) (row : list string)
  : producer :=
  if Z.of_nat (length row) <? 11 then st
  else
    match newPartnerData l row with
    | Failed _ => st
    | Done partner =>
        match row with
        | [] => st
        | cnpj :: _ =>
            let batch := appendTo (batch st) cnpj [partner] in
            let currentBatchCount := currentBatchCount st + 1 in
            if batchSize <=? currentBatchCount then
              {| batch := ∅; currentBatchCount := 0;
                 sentBatches := sentBatches st ++ [batch] |}
            else
              {| batch := batch; currentBatchCount := currentBatchCount;
                 sentBatches := sentBatches st |}
        end
    end.

(** The batches the workers receive when the run is not cancelled: the
    full ones, then what is left when the rows end. *)
Definition partnerBatches (l : lookups) (rows : list (list string))
  : list (gmap string (list PartnerData)) :=
  let st := foldl (produceStep l)
              {| batch := ∅; currentBatchCount := 0; sentBatches := [] |} rows in
  if decide (batch st = ∅) then sentBatches st
  else sentBatches st ++ [batch st].

End Producer.

(** [processPartnersBatchOptimized], without the progress bar. *)
Definition processPartnersBatchOptimized (order : MapOrder) (env : Env)
    (batch : gmap string (list PartnerData)) : M (option string) :=
  r <- ImportPartnersBatch order env batch ;;
  match r with
  | Some e => ret (Some ("error importing partners batch: " +:+ e))
  | None => ret None
  end.

(** *** [saveUpdatedAt] and the extra indexes *)

Definition Info (msg : string) (a : list Attr) : LogEntry :=
  {| level := LevelInfo; message := msg; attrs := a |}.

(** [saveUpdatedAt]; [saveUpdatedAtPartners] has the same body.  [p] is the
    path of the file with the date and [file] what [os.ReadFile] gives for
    it. *)
Definition saveUpdatedAt (env : Env) (p : string) (file : outcome string)
  : M (option string) :=
  slog (Info "Saving the updated at date to the database…" []) ;;
  match file with
  | Failed e => ret (Some ("error reading " +:+ p +:+ ": " +:+ e))
  | Done v => MetaSave env "updated-at" v
  end.

Record ExtraIndex := { IsRoot : bool; Name : string; Value : string }.

(** [strings.Contains(s, ".")] *)
Fixpoint containsDot (s : string) : bool :=
  match s with
  | EmptyString => false
  | String c s' => if Ascii.eqb c "." then true else containsDot s'
  end.

(** [strings.SplitN(s, ".", 2)]: [s] cut at its first dot, or [s] alone. *)
Fixpoint splitN2 (s : string) : list string :=
  match s with
  | EmptyString => [EmptyString]
  | String c s' =>
      if Ascii.eqb c "." then [EmptyString; s']
      else
        match splitN2 s' with
        | p0 :: rest => String c p0 :: rest
        | [] => []
        end
  end.

(** [NestedPath], with what it logs. *)
Definition NestedPath (e : ExtraIndex) : string * list LogEntry :=
  if IsRoot e then
    ("",
     [Error "cannot not parse nested path for index at the root of the json"
        [AttrStr "index" (Value e)]])
  else
    match splitN2 (Value e) with
    | [p0; p1] => ("$." +:+ p0 +:+ "[*]." +:+ p1, [])
    | _ => ("", [Error "could not parse nested path" [AttrStr "index" (Value e)]])
    end.

(** The index [CreateExtraIndexes] appends for a name. *)
Definition newExtraIndex (idx : string) : ExtraIndex :=
  {| IsRoot := negb (containsDot idx); Name := "json." +:+ idx; Value := idx |}.

End PG.

(** ** The vocabulary of the specification *)

Module Spec.
Import KV PG.

(** A decoder that stages the row as it came, for concrete runs of
    [newKVItem]. *)
Definition rawLoader : unit -> list string -> result string :=
  fun _ r => Ok (strings_Join r ";").

Definition stage (s : sourceType) (r : list string) : result item :=
  newKVItem unit rawLoader rawLoader rawLoader rawLoader s tt r.

(** The field of a row that holds the ID its key is built from. *)
Definition idField (s : sourceType) (r : list string) : option string :=
  match s with
  | base | partners | simpleTaxes => r !! 0%nat
  | realProfit | presumedProfit | arbitratedProfit | noTaxes => r !! 1%nat
  | otherSource _ => None
  end.

(** The key the specification describes: the kind's key for the ID, a
    colon, and the MD5 hash of the concatenated fields in hexadecimal. *)
Definition md5Key (keyFor : string -> string) (id : string) (r : list string)
  : string :=
  keyFor id +:+ ":"
  +:+ Bytes.hex_EncodeToString (MD5.digest (Bytes.of_string (strings_Join r ""))).

(** The statement that two rows of a kind with the same ID and a differing
    field never share a key. *)
Definition differingRowsGetDistinctKeys (s : sourceType)
    (r1 r2 : list string) : Prop :=
  forall i1 i2,
    isAccumulative s = true ->
    idField s r1 = idField s r2 ->
    r1 <> r2 ->
    stage s r1 = Ok i1 ->
    stage s r2 = Ok i2 ->
    key i1 <> key i2.

(** The key of a kind for an ID, before the checksum suffix. *)
Definition keyOf (s : sourceType) (id : string) : string :=
  match s with
  | base => keyForBase id
  | partners => keyForPartners id
  | simpleTaxes => keyForSimpleTaxes id
  | realProfit | presumedProfit | arbitratedProfit | noTaxes =>
      keyForTaxRegime id
  | otherSource _ => ""
  end.

Definition unhexdigit (c : ascii) : Z :=
  let n := Bytes.byte_of_ascii c in
  if n <? 58 then n - 48 else n - 87.

(** The inverse of [hex.EncodeToString]. *)
Fixpoint hex_Decode (s : string) : list Z :=
  match s with
  | String hi (String lo rest) =>
      (16 * unhexdigit hi + unhexdigit lo) :: hex_Decode rest
  | _ => []
  end.

Definition isByte (b : Z) : Prop := 0 <= b < 256.


(** The row the partners-only writers build for one partner: none when the
    tax ID has more than 11 digits. *)
Definition partnerRow (businessID : Z) (fullCNPJ : string)
    (partner : PartnerData) : option SocioArgs :=
  let cleanCPFSocio := removeNonDigits (CNPJCPFDoSocio partner) in
  if 11 <? len cleanCPFSocio then None
  else
    Some {| s_business_id := businessID; s_cnpj := fullCNPJ;
            s_nome_socio := truncateTo120 (NomeSocio partner);
            s_cpf_socio :=
              if String.eqb cleanCPFSocio "" then None else Some cleanCPFSocio;
            s_data_entrada_sociedade := DataEntradaSociedade partner;
            s_qualificacao :=
              truncateTo120 (getStringValue (QualificaoSocio partner)) |}.



(** Every partner row of [d'] is a row of [d] or satisfies [R]. *)
Definition sociosGrow (R : SocioArgs -> Prop) (d d' : DB) : Prop :=
  forall row, row ∈ socios_cnpj d' -> row ∈ socios_cnpj d \/ R (s_cols row).

(** *** The venue writer *)

Definition validCNPJ (company : Company) : Prop :=
  len (removeNonDigits (CNPJ company)) = 14.

(** The rows of the venue insert: one per company with a valid ID, in the
    order of the batch. *)
Definition venueArgs (company : Company) : option BusinessArgs :=
  let cleanCNPJ := removeNonDigits (CNPJ company) in
  if len cleanCNPJ =? 14 then Some (businessArgs company cleanCNPJ) else None.

Definition validArgs (batch : list Company) : list BusinessArgs :=
  omap venueArgs batch.

Definition invalidWarning (company : Company) : option LogEntry :=
  let cleanCNPJ := removeNonDigits (CNPJ company) in
  if len cleanCNPJ =? 14 then None
  else Some (Warn "invalid CNPJ length" [AttrStr "cnpj" cleanCNPJ]).

(** The row the venue writer builds for one partner. *)
Definition venuePartnerRow (businessID : Z) (cleanCNPJ : string)
    (partner : PartnerData) : option SocioArgs :=
  let cleanCPFSocio := removeNonDigits (CNPJCPFDoSocio partner) in
  if 11 <? len cleanCPFSocio then None
  else
    Some {| s_business_id := businessID; s_cnpj := cleanCNPJ;
            s_nome_socio := cut200 (NomeSocio partner);
            s_cpf_socio :=
              if String.eqb cleanCPFSocio "" then None else Some cleanCPFSocio;
            s_data_entrada_sociedade := DataEntradaSociedade partner;
            s_qualificacao := cut200 (getStringValue (QualificaoSocio partner)) |}.

(** The partner rows of one company, given the ids found for the batch. *)
Definition venuePartnerRows (businessIDMap : gmap string Z) (company : Company)
  : list SocioArgs :=
  let cleanCNPJ := removeNonDigits (CNPJ company) in
  if len cleanCNPJ =? 14 then
    match businessIDMap !! cleanCNPJ with
    | Some businessID =>
        if businessID =? 0 then []
        else omap (venuePartnerRow businessID cleanCNPJ)
               (QuadroSocietario company)
    | None => []
    end
  else [].


Definition shortTaxID (partner : PartnerData) : Prop :=
  len (removeNonDigits (CNPJCPFDoSocio partner)) <= 11.



(** The venue inserts among the statements of a run. *)
Definition venueInserts (stmts : list Stmt) : list (list BusinessArgs) :=
  omap (fun st => match st with InsertBusiness rows => Some rows | _ => None end)
    stmts.

(** The ids the venue writer has found after its insert and its lookup. *)
Definition resolvedIDs (order : MapOrder) (env : Env) (now : Time)
    (values : list BusinessArgs) (businessIDMap : gmap string Z) (tx : DB)
  : gmap string Z :=
  let rows := snd (insertBusiness now values tx) in
  let m := fillIDs businessIDMap rows in
  match missingOf order m (list_to_set (snd <$> rows)) with
  | [] => m
  | missing =>
      match env AtSelectExisting with
      | Some _ => m
      | None =>
          fillIDs m (selectBusinessByCnpj missing
                       (fst (insertBusiness now values tx)))
      end
  end.

(** The statement of the spec on a venue that is already there: after a
    write that returns no error, the row with its national ID has the
    columns of the new record and [updated_at] at the clock of the write. *)
Definition existingVenueRefreshed (order : MapOrder) (env : Env) (now : Time)
    (batch : list Company) (d : DB) : Prop :=
  let r := CreateCompaniesStructuredDirect order env now batch d in
  forall company old,
    company ∈ batch -> validCNPJ company ->
    old ∈ business d -> b_cnpj old = removeNonDigits (CNPJ company) ->
    returned r = None ->
    exists new,
      new ∈ business (tables r)
      /\ b_id new = b_id old
      /\ b_cols new = businessArgs company (removeNonDigits (CNPJ company))
      /\ b_updated_at new = now.

(** The statement of the spec on a second run over the same batches at
    clock [now]: every venue row is as the first run left it, except for
    [updated_at], which is [now]. *)
Definition secondRunRestamps (order : MapOrder)
    (first second : list (Env * Time * list Company)) (now : Time) (d : DB)
  : Prop :=
  let r1 := runBatches order first d in
  let r2 := runBatches order second (tables r1) in
  returned r1 = None -> returned r2 = None ->
  snd <$> second = snd <$> first ->
  Forall (fun call => snd (fst call) = now) second ->
  Forall2 (fun row1 row2 =>
             b_id row2 = b_id row1 /\ b_cols row2 = b_cols row1
             /\ b_created_at row2 = b_created_at row1
             /\ b_updated_at row2 = now)
    (business (tables r1)) (business (tables r2)).



(** The national IDs in the venue table. *)
Definition cnpjs (d : DB) : list string := b_cnpj <$> business d.

(** The row a venue insert adds for new columns. *)
Definition freshRow (now : Time) (rows : list BusinessArgs) (d : DB)
    (row : BusinessRow) : Prop :=
  b_cols row ∈ rows /\ (b_cnpj row ∉ cnpjs d)
  /\ b_created_at row = now /\ b_updated_at row = now.

(** Every valid ID of the batches is in the venue table. *)
Definition allPresent (d : DB) (batches : list (list Company)) : Prop :=
  forall batch a, batch ∈ batches -> a ∈ validArgs batch -> a_cnpj a ∈ cnpjs d.

(** The tables after further runs of the pipeline, one after the other. *)
Definition rerun (order : MapOrder)
    (runs : list (list (Env * Time * list Company))) (d : DB) : DB :=
  foldl (fun d calls => tables (runBatches order calls d)) d runs.

(** *** The partners-only path *)

(** The number of partners in a batch. *)
Definition partnersIn (b : gmap string (list PartnerData)) : nat :=
  map_fold (fun _ partners n => (length partners + n)%nat) 0%nat b.

(** What the batching loop takes from a row: the ID in its first field and
    the decoded partner; nothing when the row has fewer than 11 fields or
    does not decode. *)
Definition accepted {lookups : Type}
    (newPartnerData : lookups -> list string -> outcome PartnerData)
    (l : lookups) (row : list string) : option (string * PartnerData) :=
  if Z.of_nat (length row) <? 11 then None
  else
    match newPartnerData l row, row with
    | Done partner, cnpj :: _ => Some (cnpj, partner)
    | _, _ => None
    end.

(** The lookups among the statements of a run. *)
Definition isLookup (st : Stmt) : bool :=
  match st with
  | SelectBusinessByCnpj _ | SelectBusinessByBase _ | SelectBusinessById _
  | SelectIdByPrefix _ | SelectIdByCnpj _ | SelectCnpjById _ => true
  | _ => false
  end.

Definition lookupsOf (stmts : list Stmt) : list Stmt :=
  List.filter isLookup stmts.

(** The statements that write to a table, and among them the partner
    insert with [ON CONFLICT (cnpj, nome_socio) DO NOTHING]. *)
Definition isWrite (st : Stmt) : bool :=
  match st with
  | InsertBusiness _ | InsertSocios _ | MetaSaveSQL _ _ => true
  | _ => false
  end.

Definition isPartnerInsert (st : Stmt) : bool :=
  match st with InsertSocios _ => true | _ => false end.

(** The cleaned keys of a batch with a given number of digits, in the order
    the map is ranged over. *)
Definition keysOfLength (n : Z) (order : MapOrder)
    (batch : gmap string (list PartnerData)) : list string :=
  List.filter (fun k => len k =? n)
    (removeNonDigits <$> (fst <$> range order batch)).

(** A venue is found for a key of 8 digits when the key is the first 8
    digits of its national ID, for a key of 14 digits when the key is its
    national ID. *)
Definition keyFinds (key : string) (b : BusinessRow) : Prop :=
  (len key = 8 /\ LEFT8 (b_cnpj b) = key)
  \/ (len key = 14 /\ b_cnpj b = key).

(** A partner row built from a partner of the batch for a venue that the
    partner's key finds. *)
Definition resolvedRow (batch : gmap string (list PartnerData)) (d : DB)
    (a : SocioArgs) : Prop :=
  exists cnpj partners partner b,
    batch !! cnpj = Some partners /\ partner ∈ partners
    /\ b ∈ business d /\ keyFinds (removeNonDigits cnpj) b
    /\ partnerRow (b_id b) (b_cnpj b) partner = Some a.

(** No two keys of the batch are the same once cleaned. *)
Definition distinctWhenClean (batch : gmap string (list PartnerData)) : Prop :=
  forall k1 k2, is_Some (batch !! k1) -> is_Some (batch !! k2) ->
    removeNonDigits k1 = removeNonDigits k2 -> k1 = k2.

(** What holds of the producer after any number of rows. *)
Definition producing {lookups : Type}
    (newPartnerData : lookups -> list string -> outcome PartnerData)
    (l : lookups) (rows : list (list string)) (st : producer) : Prop :=
  Z.of_nat (partnersIn (batch st)) = currentBatchCount st
  /\ 0 <= currentBatchCount st < batchSize
  /\ Forall (fun b => partnersIn b = 5000%nat) (sentBatches st)
  /\ (forall k ps, batch st !! k = Some ps -> ps <> [])
  /\ (forall b k ps p,
        b ∈ sentBatches st ++ [batch st] -> b !! k = Some ps -> p ∈ ps ->
        exists row, row ∈ rows /\ accepted newPartnerData l row = Some (k, p))
  /\ (length (omap (accepted newPartnerData l) rows)
      = sum_list_with partnersIn (sentBatches st) + partnersIn (batch st))%nat.

(** The statements of the loop that inserts the partners of one venue
    after the other. *)
Definition isLoopStmt (st : Stmt) : bool :=
  match st with
  | Begin | Commit | Rollback | SetLocal _ _ | InsertSocios _ => true
  | _ => false
  end.

(** The lookup by the first 8 digits, sent when the batch has keys of 8
    digits, and the lookup by national ID, sent when it has keys of 14. *)
Definition baseLookup (bases : list string) : list Stmt :=
  match bases with [] => [] | _ => [SelectBusinessByBase bases] end.

Definition fullLookup (fulls : list string) : list Stmt :=
  match fulls with [] => [] | _ => [SelectBusinessByCnpj fulls] end.

Definition keyLookups (order : MapOrder)
    (batch : gmap string (list PartnerData)) : list Stmt :=
  baseLookup (keysOfLength 8 order batch)
  ++ fullLookup (keysOfLength 14 order batch).

(** The ids the venue writer has for the national IDs of a batch when it
    builds the partner rows. *)
Definition venueIDs (order : MapOrder) (env : Env) (now : Time)
    (batch : list Company) (d : DB) : gmap string Z :=
  let values := validArgs batch in
  let businessIDMap := foldl (fun m a => <[a_cnpj a := 0]> m) ∅ values in
  match values with
  | [] => businessIDMap
  | _ => resolvedIDs order env now values businessIDMap d
  end.

(** A partner row built by the venue writer from a partner of a company of
    the batch, for a venue of the table with the company's national ID. *)
Definition venuePartnerOf (batch : list Company) (d : DB) (a : SocioArgs)
  : Prop :=
  exists company partner b,
    company ∈ batch /\ validCNPJ company
    /\ partner ∈ QuadroSocietario company
    /\ b ∈ business d /\ b_cnpj b = removeNonDigits (CNPJ company)
    /\ venuePartnerRow (b_id b) (b_cnpj b) partner = Some a.

(** The sequence has not given out 0 and will not. *)
Definition idsFromOne (d : DB) : Prop :=
  0 < business_seq d /\ Forall (fun b => b_id b <> 0) (business d).

(** The sizes of a partner row of the venue writer: a national ID of 14
    bytes, a name and a qualification of at most 200, and a tax ID that is
    absent or has between 1 and 11 bytes. *)
Definition venuePartnerSizes (a : SocioArgs) : Prop :=
  len (s_cnpj a) = 14
  /\ len (s_nome_socio a) <= 200
  /\ len (s_qualificacao a) <= 200
  /\ match s_cpf_socio a with
     | Some cpf => 1 <= len cpf <= 11
     | None => True
     end.

(** The shape of a venue row built by the venue writer: a national ID of 14
    digits, a postal code of at most 8 digits, at most 200 bytes for each of
    the names and address fields it cuts, the address type 0, and a
    registration status that is empty or one of five names. *)
Definition venueRowSizes (a : BusinessArgs) : Prop :=
  len (a_cnpj a) = 14
  /\ Forall (fun c => isDigit c = true) (list_ascii_of_string (a_cnpj a))
  /\ len (a_endereco_cep a) <= 8
  /\ Forall (fun c => isDigit c = true)
       (list_ascii_of_string (a_endereco_cep a))
  /\ len (a_razao_social a) <= 200
  /\ len (a_nome_fantasia a) <= 200
  /\ len (a_endereco_logradouro a) <= 200
  /\ len (a_endereco_bairro a) <= 200
  /\ len (a_endereco_cidade a) <= 200
  /\ len (a_endereco_complemento a) <= 200
  /\ a_endereco_tipo a = 0
  /\ a_situacao_cadastral a
     ∈ [""; "NULA"; "ATIVA"; "SUSPENSA"; "INAPTA"; "BAIXADA"].

(** The keys of the venue table are in order: the ids are distinct, above 0
    and below the next value of the sequence, and the national IDs are
    distinct. *)
Definition wellKeyed (d : DB) : Prop :=
  NoDup (b_id <$> business d)
  /\ NoDup (cnpjs d)
  /\ Forall (fun b => 0 < b_id b < business_seq d) (business d)
  /\ 0 < business_seq d.

(** No two partner rows have the same national ID and name: what the
    unique index behind [ON CONFLICT (cnpj, nome_socio)] asks. *)
Definition socioKey (a : SocioArgs) : string * string :=
  (s_cnpj a, s_nome_socio a).

Definition distinctSocios (d : DB) : Prop :=
  NoDup ((fun row => socioKey (s_cols row)) <$> socios_cnpj d).

End Spec.

(** ** Sample data *)

Module Sample.
Import PG.

Definition venue (cnpj razaoSocial : string) (qsa : list PartnerData)
  : Company :=
  {| CNPJ := cnpj; RazaoSocial := razaoSocial; NomeFantasia := "";
     SituacaoCadastral := Some 2; CNAEFiscal := Some 4711302;
     CNAEFiscalDescricao := None; CNAESecundarios := [];
     CapitalSocial := None; CodigoNaturezaJuridica := Some 2062;
     QualificacaoDoResponsavel := None; CodigoPorte := None;
     DescricaoMatrizFilial := None; IdentificadorMatrizFilial := Some 1;
     DataSituacaoCadastral := None; MotivoSituacaoCadastral := None;
     DataInicioAtividade := None; Email := None; CEP := "01310-100";
     Numero := "1000"; Logradouro := "PAULISTA"; Bairro := "BELA VISTA";
     Municipio := Some "SAO PAULO"; UF := "SP";
     DescricaoTipoDeLogradouro := "AVENIDA"; Complemento := "";
     Telefone1 := "1133334444"; Telefone2 := ""; Fax := "";
     QuadroSocietario := qsa |}.

Definition partner (name cpf : string) : PartnerData :=
  {| NomeSocio := name; CNPJCPFDoSocio := cpf;
     QualificaoSocio := Some "Sócio-Administrador";
     DataEntradaSociedade := None |}.

(** A name of 130 bytes. *)
Definition longName : string :=
  Eval vm_compute in String.concat "" (repeat "ABCDEFGHIJ" 13).

(** The tables after a first write of one venue, at time 10. *)
Definition oneVenue : DB :=
  Eval vm_compute in
    tables (CreateCompaniesStructuredDirect sortedOrder noFaults 10
              [venue "12.345.678/0001-99" "ACME LTDA" []] emptyDB).


(** The row of that venue. *)
Definition acmeCols : BusinessArgs :=
  Eval vm_compute in
    businessArgs (venue "12.345.678/0001-99" "ACME LTDA" []) "12345678000199".

Definition acmeRow : BusinessRow :=
  {| b_id := 1; b_cols := acmeCols; b_created_at := 10; b_updated_at := 10 |}.

(** The environment in which the commit of business 1 fails. *)
Definition commitFails : Env :=
  fun site =>
    match site with
    | ForBusiness 1 AtCommit => Some "connection reset"
    | _ => None
    end.

(** The environment in which the partner insert of the venue writer
    fails. *)
Definition partnerInsertFails : Env :=
  fun site =>
    match site with
    | AtInsertPartners => Some "deadlock detected"
    | _ => None
    end.

(** A decoder that reads the name and the tax ID of a partner row from its
    third and fourth fields, a partner row of 11 fields, and the batch and
    the table row it gives. *)
Definition decode (_ : unit) (row : list string) : outcome PartnerData :=
  match row with
  | _ :: _ :: name :: cpf :: _ => Done (partner name cpf)
  | _ => Failed "short row"
  end.

Definition aliceFields : list string :=
  ["12345678"; "2"; "ALICE"; "***123456**"; "49"; "20200101"; ""; "";
   ""; "00"; "0"].

Definition aliceBatch : gmap string (list PartnerData) :=
  {[ "12345678" := [partner "ALICE" "***123456**"] ]}.

Definition aliceArgs : SocioArgs :=
  {| s_business_id := 1; s_cnpj := "12345678000199";
     s_nome_socio := "ALICE"; s_cpf_socio := Some "123456";
     s_data_entrada_sociedade := None;
     s_qualificacao := "Sócio-Administrador" |}.

End Sample.

(** * Properties *)

(** ** Hexadecimal encoding and the checksum *)

Section HexFacts.
Import Bytes Spec.

Lemma unhexdigit_hexdigit (n : Z) :
  0 <= n < 16 -> unhexdigit (hexdigit n) = n.
Proof.
  intros Hn.
  assert (Hcases : Exists (fun k => n = k) (Z.of_nat <$> seq 0 16)).
  { apply Exists_exists. exists n. split; [|done].
    apply list_elem_of_fmap. exists (Z.to_nat n). split; [lia|].
    apply elem_of_seq. lia. }
  cbn in Hcases.
  repeat (apply Exists_cons in Hcases as [->|Hcases]; [reflexivity|]).
  by apply Exists_nil in Hcases.
Qed.

Lemma byte_split (b : Z) :
  isByte b ->
  0 <= Z.shiftr b 4 < 16 /\ 0 <= Z.land b 15 < 16
  /\ 16 * Z.shiftr b 4 + Z.land b 15 = b.
Proof.
  intros [Hlo Hhi].
  rewrite Z.shiftr_div_pow2 by lia.
  change 15 with (Z.ones 4). rewrite Z.land_ones by lia.
  change (2 ^ 4) with 16.
  pose proof (Z.div_mod b 16 ltac:(lia)).
  pose proof (Z.mod_pos_bound b 16 ltac:(lia)).
  assert (0 <= b / 16 < 16)
    by (split; [apply Z.div_pos; lia | apply Z.div_lt_upper_bound; lia]).
  lia.
Qed.

Lemma hex_Decode_Encode (bs : list Z) :
  Forall isByte bs -> hex_Decode (hex_EncodeToString bs) = bs.
Proof.
  induction 1 as [|b bs Hb _ IH]; [done|].
  destruct (byte_split b Hb) as (Hhi & Hlo & Hsum).
  cbn [hex_EncodeToString hex_Decode].
  rewrite !unhexdigit_hexdigit, IH by done. by rewrite Hsum.
Qed.

Lemma hex_EncodeToString_inj (bs1 bs2 : list Z) :
  Forall isByte bs1 -> Forall isByte bs2 ->
  hex_EncodeToString bs1 = hex_EncodeToString bs2 -> bs1 = bs2.
Proof.
  intros H1 H2 Heq.
  rewrite <- (hex_Decode_Encode bs1 H1), <- (hex_Decode_Encode bs2 H2).
  by rewrite Heq.
Qed.

Lemma hex_EncodeToString_app (bs1 bs2 : list Z) :
  hex_EncodeToString (bs1 ++ bs2)
  = hex_EncodeToString bs1 +:+ hex_EncodeToString bs2.
Proof.
  induction bs1 as [|b bs1 IH]; [done|].
  cbn [hex_EncodeToString app]. rewrite IH. reflexivity.
Qed.

Lemma byte_of_ascii_isByte (a : ascii) : isByte (byte_of_ascii a).
Proof.
  unfold isByte, byte_of_ascii. pose proof (N_ascii_bounded a). lia.
Qed.

Lemma of_string_isByte (s : string) : Forall isByte (of_string s).
Proof.
  unfold of_string. apply Forall_fmap, Forall_forall.
  intros a _. apply byte_of_ascii_isByte.
Qed.

Lemma byte_of_ascii_inj (a b : ascii) :
  byte_of_ascii a = byte_of_ascii b -> a = b.
Proof.
  unfold byte_of_ascii. intros H.
  rewrite <- (ascii_N_embedding a), <- (ascii_N_embedding b).
  f_equal. lia.
Qed.

Lemma of_string_inj (s1 s2 : string) : of_string s1 = of_string s2 -> s1 = s2.
Proof.
  unfold of_string. intros H.
  rewrite <- (string_of_list_ascii_of_string s1),
          <- (string_of_list_ascii_of_string s2).
  f_equal. revert H.
  generalize (list_ascii_of_string s1) (list_ascii_of_string s2).
  induction l as [|a l IH]; intros [|b l'] H; simplify_eq/=; [done|].
  f_equal; [by apply byte_of_ascii_inj | by apply IH].
Qed.

Lemma digest_isByte (msg : list Z) : Forall isByte (MD5.digest msg).
Proof.
  unfold MD5.digest.
  destruct (MD5.blocks _ _ _) as [a b c d].
  cbn [MD5.le_bytes32 app].
  repeat (constructor; [apply Z.mod_pos_bound; lia|]). constructor.
Qed.

End HexFacts.

(** ** The stage keys of [newKVItem] *)

Section StageKeys.
Import Bytes KV Spec.

(** What [checksumFor] computes: the row's bytes in hexadecimal, followed by
    the digest of the empty message. *)
Lemma checksumFor_unfold (r : list string) :
  checksumFor r
  = hex_EncodeToString (of_string (strings_Join r ""))
    +:+ "d41d8cd98f00b204e9800998ecf8427e".
Proof.
  unfold checksumFor, MD5.Sum, MD5.New. cbn [MD5.written].
  rewrite hex_EncodeToString_app. f_equal.
Qed.

Lemma checksumFor_inj (r1 r2 : list string) :
  checksumFor r1 = checksumFor r2 -> strings_Join r1 "" = strings_Join r2 "".
Proof.
  unfold checksumFor, MD5.Sum. intros H.
  apply hex_EncodeToString_inj in H.
  - apply app_inv_tail in H. by apply of_string_inj.
  - apply Forall_app; split; [apply of_string_isByte | apply digest_isByte].
  - apply Forall_app; split; [apply of_string_isByte | apply digest_isByte].
Qed.

Section WithLoaders.
Variable lookups : Type.
Variables loadPartnerRow loadBaseRow loadSimpleTaxesRow loadTaxRow :
  lookups -> list string -> result string.

Let newItem :=
  newKVItem lookups loadPartnerRow loadBaseRow loadSimpleTaxesRow loadTaxRow.

(** The key of an item of an accumulative kind. *)
Lemma newKVItem_accumulative_key s l r i :
  isAccumulative s = true ->
  newItem s l r = Ok i ->
  exists id,
    idField s r = Some id /\ key i = keyOf s id +:+ ":" +:+ checksumFor r.
Proof.
  intros Hacc Hnew. unfold newItem, newKVItem, keyAndLoader, index in Hnew.
  destruct s; try discriminate Hacc; cbn [idField keyOf isAccumulative] in *.
  all: destruct (r !! _) as [id|]; [|discriminate Hnew].
  all: case_match; try discriminate Hnew.
  all: injection Hnew as <-; cbn [key]; by exists id.
Qed.

(** C6 (as amended): for every accumulative kind, two rows with the same ID
    whose concatenated fields differ are staged under distinct keys, and
    after both are set each key holds its own row's value. *)
Theorem C6_rows_with_distinct_concatenations_coexist
    (s : sourceType) (l : lookups) (r1 r2 : list string) (i1 i2 : item)
    (st : gmap string string) :
  isAccumulative s = true ->
  idField s r1 = idField s r2 ->
  strings_Join r1 "" <> strings_Join r2 "" ->
  newItem s l r1 = Ok i1 ->
  newItem s l r2 = Ok i2 ->
  key i1 <> key i2
  /\ loadChunk st [i1; i2] !! key i1 = Some (value i1)
  /\ loadChunk st [i1; i2] !! key i2 = Some (value i2).
Proof.
  intros Hacc Hid Hjoin H1 H2.
  assert (Hne : key i1 <> key i2).
  { destruct (newKVItem_accumulative_key s l r1 i1 Hacc H1)
      as (id1 & Hid1 & Hkey1).
    destruct (newKVItem_accumulative_key s l r2 i2 Hacc H2)
      as (id2 & Hid2 & Hkey2).
    assert (id1 = id2) as <- by congruence.
    rewrite Hkey1, Hkey2. intros Heq.
    apply String.app_inj in Heq. apply String.app_inj in Heq.
    by apply Hjoin, checksumFor_inj. }
  split; [done|]. unfold loadChunk, txSet. cbn [foldl].
  split.
  - rewrite lookup_insert_ne by done. apply lookup_insert_eq.
  - apply lookup_insert_eq.
Qed.

End WithLoaders.

Lemma C6_witness :
  key {| key := "partner:12345678:3132333435363738414cd41d8cd98f00b204e9800998ecf8427e";
         value := "12345678;AL"; kind := partners |}
  <> key {| key := "partner:12345678:3132333435363738424fd41d8cd98f00b204e9800998ecf8427e";
            value := "12345678;BO"; kind := partners |}
  /\ loadChunk ∅
       [ {| key := "partner:12345678:3132333435363738414cd41d8cd98f00b204e9800998ecf8427e";
            value := "12345678;AL"; kind := partners |};
         {| key := "partner:12345678:3132333435363738424fd41d8cd98f00b204e9800998ecf8427e";
            value := "12345678;BO"; kind := partners |} ]
     !! "partner:12345678:3132333435363738414cd41d8cd98f00b204e9800998ecf8427e"
     = Some "12345678;AL"
  /\ loadChunk ∅
       [ {| key := "partner:12345678:3132333435363738414cd41d8cd98f00b204e9800998ecf8427e";
            value := "12345678;AL"; kind := partners |};
         {| key := "partner:12345678:3132333435363738424fd41d8cd98f00b204e9800998ecf8427e";
            value := "12345678;BO"; kind := partners |} ]
     !! "partner:12345678:3132333435363738424fd41d8cd98f00b204e9800998ecf8427e"
     = Some "12345678;BO".
Proof.
  apply (C6_rows_with_distinct_concatenations_coexist unit
           rawLoader rawLoader rawLoader rawLoader
           partners tt ["12345678"; "AL"] ["12345678"; "BO"]).
  - reflexivity.
  - reflexivity.
  - vm_compute. discriminate.
  - vm_compute. reflexivity.
  - vm_compute. reflexivity.
Defined.

(** Two partner rows of the same company that differ in two fields and
    have the same concatenation: they get the same key. *)
Lemma C6_counterexample :
  ~ differingRowsGetDistinctKeys partners
      ["12345678"; "AB"; "C"] ["12345678"; "A"; "BC"].
Proof.
  intros H.
  refine (H {| key := _; value := _; kind := _ |}
            {| key := _; value := _; kind := _ |} _ _ _ _ _ _).
  - reflexivity.
  - reflexivity.
  - discriminate.
  - vm_compute. reflexivity.
  - vm_compute. reflexivity.
  - reflexivity.
Qed.

(** The second of two such rows replaces the first in the store. *)
Example shifted_fields_overwrite :
  forall i1 i2,
    stage partners ["12345678"; "AB"; "C"] = Ok i1 ->
    stage partners ["12345678"; "A"; "BC"] = Ok i2 ->
    loadChunk ∅ [i1; i2] !! key i1 = Some "12345678;A;BC"
    /\ size (loadChunk ∅ [i1; i2]) = 1%nat.
Proof.
  intros i1 i2 H1 H2. vm_compute in H1, H2.
  injection H1 as <-. injection H2 as <-. split; reflexivity.
Qed.

(** C3: at the partner row [12345678;2;ALICE] the key [newKVItem] builds
    ends in the row's own bytes in hexadecimal followed by the MD5 digest of
    the empty message; it is not the key with the MD5 hash of the row's
    concatenated fields. *)
Theorem C3_stage_key_suffix_is_not_the_md5_of_the_row :
  exists i,
    stage partners ["12345678"; "2"; "ALICE"] = Ok i
    /\ key i = "partner:12345678:"
               +:+ hex_EncodeToString (of_string "123456782ALICE")
               +:+ "d41d8cd98f00b204e9800998ecf8427e"
    /\ md5Key keyForPartners "12345678" ["12345678"; "2"; "ALICE"]
       = "partner:12345678:1c62aa4c5fa7c547f92bdb9d1b4b1ef4"
    /\ key i <> md5Key keyForPartners "12345678" ["12345678"; "2"; "ALICE"].
Proof.
  eexists. split; [vm_compute; reflexivity|].
  split; [vm_compute; reflexivity|].
  split; [vm_compute; reflexivity|].
  vm_compute. discriminate.
Qed.

End StageKeys.

(** The digests of three messages, against the published test vectors. *)
Example md5_empty :
  Bytes.hex_EncodeToString (MD5.digest []) = "d41d8cd98f00b204e9800998ecf8427e".
Proof. vm_compute. reflexivity. Qed.

Example md5_abc :
  Bytes.hex_EncodeToString (MD5.digest (Bytes.of_string "abc"))
  = "900150983cd24fb0d6963f7d28e17f72".
Proof. vm_compute. reflexivity. Qed.

Example md5_two_blocks :
  Bytes.hex_EncodeToString
    (MD5.digest (Bytes.of_string
       "12345678901234567890123456789012345678901234567890123456789012345678901234567890"))
  = "57edf4a22be3c955ac49da2e2107b67a".
Proof. vm_compute. reflexivity. Qed.

(** ** The options of the key-value store *)

Section StoreOptions.
Import KV.

(** C8: whatever the library's defaults, the platform, the environment, the
    directory and the read-only flag, the options [newBadgerStorage] hands
    to [badger.Open] have 1 memtable, a level-0 stall threshold of 2, a
    value-log file size of 64 MiB, a memtable size of 16 MiB and at most
    100,000 entries per value-log file. *)
Theorem C8_store_opened_with_tuned_options
    (DefaultOptions : string -> Options) (badgerDB : Type)
    (badger_Open : Options -> result badgerDB) (GOOS : string)
    (Getenv : string -> string) (dir : string) (ro : bool) :
  let opt := storageOptions DefaultOptions GOOS Getenv dir ro in
  newBadgerStorage DefaultOptions badgerDB badger_Open GOOS Getenv dir ro
  = match badger_Open opt with
    | Ok d => Ok {| db := d; path := dir |}
    | Err e => Err ("error creating badger key-value object: " +:+ e)
    | Panic e => Panic e
    end
  /\ NumMemtables opt = 1
  /\ NumLevelZeroTablesStall opt = 2
  /\ ValueLogFileSize opt = 64 * 1024 * 1024
  /\ MemTableSize opt = 16 * 1024 * 1024
  /\ ValueLogMaxEntries opt = 100000.
Proof.
  cbv zeta. split; [reflexivity|].
  unfold storageOptions.
  destruct (String.eqb (Getenv "DEBUG") "");
    destruct (ro && negb (String.eqb GOOS "windows")); repeat split.
Qed.

End StoreOptions.

(** ** [MetaSave] *)

Section Meta.
Import PG.

Lemma MetaSave_long_key (env : Env) (k v : string) (d : DB) :
  16 < len k ->
  MetaSave env k v d
  = {| returned :=
         Some "metatable can only take keys that are at maximum 16 chars long";
       tables := d; logged := []; statements := [] |}.
Proof.
  intros Hlen. unfold MetaSave.
  destruct (16 <? len k) eqn:E; [reflexivity|]. apply Z.ltb_ge in E. lia.
Qed.

(** A key that is written to the table has at most 16 bytes. *)
Lemma MetaSave_written_key_short (env : Env) (k v : string) (d : DB) :
  tables (MetaSave env k v d) <> d -> len k <= 16.
Proof.
  intros Hchanged. destruct (Z_lt_le_dec 16 (len k)) as [Hlong|]; [|done].
  rewrite MetaSave_long_key in Hchanged by done. by destruct Hchanged.
Qed.

(** A key of at most 16 bytes is saved when nothing fails. *)
Lemma MetaSave_short_key_saved (k v : string) (d : DB) :
  len k <= 16 ->
  returned (MetaSave noFaults k v d) = None
  /\ meta (tables (MetaSave noFaults k v d)) !! k = Some v.
Proof.
  intros Hlen. unfold MetaSave.
  destruct (16 <? len k) eqn:E; [apply Z.ltb_lt in E; lia|].
  cbn. split; [reflexivity|]. apply lookup_insert_eq.
Qed.

(** C9: with a key of more than 16 bytes [MetaSave] returns its error,
    sends no statement and leaves the tables (the metadata table among them)
    as they were; so a key that is written has at most 16 bytes. *)
Theorem C9_MetaSave_rejects_long_keys
    (env : Env) (k v : string) (d : DB) :
  16 < len k ->
  returned (MetaSave env k v d)
  = Some "metatable can only take keys that are at maximum 16 chars long"
  /\ statements (MetaSave env k v d) = []
  /\ tables (MetaSave env k v d) = d
  /\ meta (tables (MetaSave env k v d)) = meta d.
Proof.
  intros Hlen. by rewrite MetaSave_long_key.
Qed.

Lemma C9_witness :
  16 < len "updated-at-of-the-dataset"
  /\ returned (MetaSave noFaults "updated-at-of-the-dataset" "2024-01-01" emptyDB)
     = Some "metatable can only take keys that are at maximum 16 chars long"
  /\ statements (MetaSave noFaults "updated-at-of-the-dataset" "2024-01-01" emptyDB)
     = []
  /\ tables (MetaSave noFaults "updated-at-of-the-dataset" "2024-01-01" emptyDB)
     = emptyDB
  /\ meta (tables (MetaSave noFaults "updated-at-of-the-dataset" "2024-01-01"
                     emptyDB))
     = meta emptyDB.
Proof.
  split; [reflexivity|].
  apply (C9_MetaSave_rejects_long_keys noFaults); reflexivity.
Defined.

End Meta.

(** ** Runs of the writers *)

Section Runs.
Import PG.

Lemma bind_returned {A B} (m : M A) (k : A -> M B) d :
  returned (bind m k d) = returned (k (returned (m d)) (tables (m d))).
Proof. reflexivity. Qed.

Lemma bind_tables {A B} (m : M A) (k : A -> M B) d :
  tables (bind m k d) = tables (k (returned (m d)) (tables (m d))).
Proof. reflexivity. Qed.

Lemma bind_logged {A B} (m : M A) (k : A -> M B) d :
  logged (bind m k d)
  = logged (m d) ++ logged (k (returned (m d)) (tables (m d))).
Proof. reflexivity. Qed.

Lemma bind_statements {A B} (m : M A) (k : A -> M B) d :
  statements (bind m k d)
  = statements (m d) ++ statements (k (returned (m d)) (tables (m d))).
Proof. reflexivity. Qed.

Lemma setLocal_returned env site setting value warning tx d :
  returned (setLocal env site setting value warning tx d) = tx.
Proof. unfold setLocal, tx_run. cbn. by destruct (env site). Qed.

Lemma setLocal_tables env site setting value warning tx d :
  tables (setLocal env site setting value warning tx d) = d.
Proof. unfold setLocal, tx_run. cbn. by destruct (env site). Qed.

Lemma setLocal_statements env site setting value warning tx d :
  statements (setLocal env site setting value warning tx d)
  = [SetLocal setting value].
Proof. unfold setLocal, tx_run. cbn. by destruct (env site). Qed.

Lemma setLocal_logged env site setting value warning tx d :
  logged (setLocal env site setting value warning tx d)
  = match env site with
    | Some e => [Warn warning [AttrStr "error" e]]
    | None => []
    end.
Proof. unfold setLocal, tx_run. cbn. by destruct (env site). Qed.

Lemma pool_Begin_returned env site d :
  returned (pool_Begin env site d)
  = match env site with Some e => Failed e | None => Done d end.
Proof. reflexivity. Qed.

Lemma pool_Begin_tables env site d : tables (pool_Begin env site d) = d.
Proof. reflexivity. Qed.

Lemma tx_run_returned {A} env site st (sem : DB -> DB * A) tx d :
  returned (tx_run env site st sem tx d)
  = match env site with
    | Some e => (Failed e, tx)
    | None => (Done (snd (sem tx)), fst (sem tx))
    end.
Proof. reflexivity. Qed.

Lemma tx_run_tables {A} env site st (sem : DB -> DB * A) tx d :
  tables (tx_run env site st sem tx d) = d.
Proof. reflexivity. Qed.

Lemma tx_Commit_returned env site tx d :
  returned (tx_Commit env site tx d) = env site.
Proof. unfold tx_Commit. cbn. by destruct (env site). Qed.

Lemma tx_Commit_tables env site tx d :
  tables (tx_Commit env site tx d)
  = match env site with Some _ => d | None => tx end.
Proof. unfold tx_Commit. cbn. by destruct (env site). Qed.

Lemma slogs_tables es d : tables (slogs es d) = d.
Proof. reflexivity. Qed.

Lemma slog_tables e d : tables (slog e d) = d.
Proof. reflexivity. Qed.

Lemma ret_tables {A} (a : A) d : tables (ret a d) = d.
Proof. reflexivity. Qed.

Lemma ret_returned {A} (a : A) d : returned (ret a d) = a.
Proof. reflexivity. Qed.

Lemma tx_Rollback_tables env site d : tables (tx_Rollback env site d) = d.
Proof. reflexivity. Qed.

Lemma tx_Rollback_returned env site d :
  returned (tx_Rollback env site d) = env site.
Proof. reflexivity. Qed.

Lemma tx_Commit_statements env site tx d :
  statements (tx_Commit env site tx d) = [Commit].
Proof. unfold tx_Commit. cbn. by destruct (env site). Qed.

Lemma tx_Commit_logged env site tx d : logged (tx_Commit env site tx d) = [].
Proof. unfold tx_Commit. cbn. by destruct (env site). Qed.

Lemma tx_Rollback_statements env site d :
  statements (tx_Rollback env site d) = [Rollback].
Proof. reflexivity. Qed.

Lemma tx_Rollback_logged env site d : logged (tx_Rollback env site d) = [].
Proof. reflexivity. Qed.

Lemma pool_Begin_statements env site d :
  statements (pool_Begin env site d) = [Begin].
Proof. reflexivity. Qed.

Lemma pool_Begin_logged env site d : logged (pool_Begin env site d) = [].
Proof. reflexivity. Qed.

Lemma tx_run_statements {A} env site st (sem : DB -> DB * A) tx d :
  statements (tx_run env site st sem tx d) = [st].
Proof. reflexivity. Qed.

Lemma tx_run_logged {A} env site st (sem : DB -> DB * A) tx d :
  logged (tx_run env site st sem tx d) = [].
Proof. reflexivity. Qed.

Lemma pool_run_statements {A} env site st (sem : DB -> DB * A) d :
  statements (pool_run env site st sem d) = [st].
Proof. unfold pool_run. cbn. by destruct (env site). Qed.

Lemma pool_run_logged {A} env site st (sem : DB -> DB * A) d :
  logged (pool_run env site st sem d) = [].
Proof. unfold pool_run. cbn. by destruct (env site). Qed.

Lemma pool_run_returned {A} env site st (sem : DB -> DB * A) d :
  returned (pool_run env site st sem d)
  = match env site with
    | Some e => Failed e
    | None => Done (snd (sem d))
    end.
Proof. unfold pool_run. cbn. by destruct (env site). Qed.

Lemma pool_run_tables {A} env site st (sem : DB -> DB * A) d :
  tables (pool_run env site st sem d)
  = match env site with
    | Some e => d
    | None => fst (sem d)
    end.
Proof. unfold pool_run. cbn. by destruct (env site). Qed.

Lemma slogs_statements es d : statements (slogs es d) = [].
Proof. reflexivity. Qed.

Lemma slog_statements e d : statements (slog e d) = [].
Proof. reflexivity. Qed.

Lemma slogs_logged es d : logged (slogs es d) = es.
Proof. reflexivity. Qed.

Lemma slog_logged e d : logged (slog e d) = [e].
Proof. reflexivity. Qed.

Lemma ret_statements {A} (a : A) d : statements (ret a d) = [].
Proof. reflexivity. Qed.

Lemma ret_logged {A} (a : A) d : logged (ret a d) = [].
Proof. reflexivity. Qed.

Lemma pool_run_tables_query {A} env site st (f : DB -> A) d :
  tables (pool_run env site st (query f) d) = d.
Proof. unfold pool_run. cbn. by destruct (env site). Qed.

End Runs.

Ltac run_simpl :=
  repeat first
    [ rewrite bind_returned | rewrite bind_tables
    | rewrite bind_logged | rewrite bind_statements
    | rewrite setLocal_returned | rewrite setLocal_tables
    | rewrite setLocal_statements
    | rewrite pool_Begin_returned | rewrite pool_Begin_tables
    | rewrite tx_run_returned | rewrite tx_run_tables
    | rewrite tx_Commit_returned | rewrite tx_Commit_tables
    | rewrite pool_run_tables_query
    | rewrite slogs_tables | rewrite slog_tables
    | rewrite ret_tables | rewrite ret_returned
    | rewrite tx_Rollback_tables | rewrite tx_Rollback_returned
    | rewrite tx_Commit_statements | rewrite tx_Commit_logged
    | rewrite tx_Rollback_statements | rewrite tx_Rollback_logged
    | rewrite pool_Begin_statements | rewrite pool_Begin_logged
    | rewrite tx_run_statements | rewrite tx_run_logged
    | rewrite pool_run_statements | rewrite pool_run_logged
    | rewrite slogs_statements | rewrite slog_statements
    | rewrite slogs_logged | rewrite slog_logged
    | rewrite ret_statements | rewrite ret_logged ].

(** ** Strings and truncation *)

Section Truncation.
Import PG Spec.

Lemma length_substring_0 (n : nat) (s : string) :
  String.length (String.substring 0 n s) = Nat.min n (String.length s).
Proof.
  revert n. induction s as [|c s IH]; intros [|n]; cbn; auto.
Qed.

Lemma length_append (a b : string) :
  String.length (a +:+ b) = (String.length a + String.length b)%nat.
Proof.
  induction a as [|c a IH]; [reflexivity|].
  change (String.length (String c (a +:+ b))
          = S (String.length a + String.length b)).
  cbn [String.length]. by rewrite IH.
Qed.

Lemma len_prefix (n : Z) (s : string) :
  0 <= n <= len s -> len (prefix n s) = n.
Proof. unfold len, prefix. rewrite length_substring_0. lia. Qed.

Lemma len_append (a b : string) : len (a +:+ b) = len a + len b.
Proof. unfold len. rewrite length_append. lia. Qed.


(** The loop that builds the partner rows, in closed form. *)
Lemma partnerRowStep_fold businessID fullCNPJ partners values warnings :
  fst (foldl (partnerRowStep businessID fullCNPJ) (values, warnings) partners)
  = values ++ omap (partnerRow businessID fullCNPJ) partners.
Proof.
  revert values warnings.
  induction partners as [|p ps IH]; intros values warnings.
  - cbn. by rewrite app_nil_r.
  - change (omap ?f (p :: ps))
      with (match f p with Some a => a :: omap f ps | None => omap f ps end).
    cbn [foldl]. unfold partnerRowStep at 2, partnerRow at 1.
    destruct (11 <? len (removeNonDigits (CNPJCPFDoSocio p))).
    + apply IH.
    + rewrite IH. by rewrite <- app_assoc.
Qed.

Lemma partnerRows_rows businessID fullCNPJ partners :
  fst (partnerRows businessID fullCNPJ partners)
  = omap (partnerRow businessID fullCNPJ) partners.
Proof. unfold partnerRows. by rewrite partnerRowStep_fold. Qed.



End Truncation.

(** ** What the partner inserts add *)

Section PartnerInserts.
Import PG Spec.

Lemma foldl_invariant {A B} (I : B -> Prop) (f : B -> A -> B) (l : list A) b :
  I b -> (forall b x, x ∈ l -> I b -> I (f b x)) -> I (foldl f b l).
Proof.
  revert b. induction l as [|x l IH]; intros b Hb Hstep; [done|].
  cbn. apply IH.
  - apply Hstep; [left | done].
  - intros b' y Hy. apply Hstep. by right.
Qed.

Lemma sociosGrow_refl R d : sociosGrow R d d.
Proof. intros row Hrow. by left. Qed.

Lemma sociosGrow_trans R d1 d2 d3 :
  sociosGrow R d1 d2 -> sociosGrow R d2 d3 -> sociosGrow R d1 d3.
Proof.
  intros H12 H23 row Hrow. destruct (H23 row Hrow) as [H|H]; [|by right].
  by apply H12.
Qed.

Lemma insertSocioRow_elem d a row :
  row ∈ socios_cnpj (insertSocioRow d a) ->
  row ∈ socios_cnpj d \/ s_cols row = a.
Proof.
  unfold insertSocioRow. destruct (decide _); cbn; [by left|].
  intros [H| ->%list_elem_of_singleton]%elem_of_app; [by left | by right].
Qed.

Lemma insertSocios_grow (R : SocioArgs -> Prop) rows d :
  Forall R rows -> sociosGrow R d (insertSocios rows d).
Proof.
  unfold insertSocios. revert d.
  induction rows as [|a rows IH]; intros d Hrows; [apply sociosGrow_refl|].
  apply Forall_cons in Hrows as [Ha Hrows]. cbn [foldl].
  eapply sociosGrow_trans; [|by apply IH].
  intros row [H| ->]%insertSocioRow_elem; [by left | by right].
Qed.

(** One iteration of [ImportPartnersBatch]'s loop leaves the tables as they
    were or commits the one partner insert. *)
Lemma importBusiness_tables env businessID fullCNPJ partners d :
  tables (importBusiness env businessID fullCNPJ partners d) = d
  \/ tables (importBusiness env businessID fullCNPJ partners d)
     = insertSocios (fst (partnerRows businessID fullCNPJ partners)) d.
Proof.
  unfold importBusiness. run_simpl.
  destruct (env (ForBusiness businessID AtBegin)); [by left|].
  run_simpl.
  destruct (partnerRows businessID fullCNPJ partners) as [values warnings].
  run_simpl. cbn [fst].
  destruct values as [|a values].
  - run_simpl. destruct (env (ForBusiness businessID AtCommit)); by left.
  - run_simpl.
    destruct (env (ForBusiness businessID AtInsertPartners)); [by left|].
    run_simpl. cbn [fst snd exec].
    destruct (env (ForBusiness businessID AtCommit)); [by left | by right].
Qed.

Lemma importBusiness_grow (R : SocioArgs -> Prop) env businessID fullCNPJ
    partners d :
  Forall R (fst (partnerRows businessID fullCNPJ partners)) ->
  sociosGrow R d (tables (importBusiness env businessID fullCNPJ partners d)).
Proof.
  intros HR.
  destruct (importBusiness_tables env businessID fullCNPJ partners d) as [->| ->].
  - apply sociosGrow_refl.
  - by apply insertSocios_grow.
Qed.


End PartnerInserts.

(** ** The maps of [ImportPartnersBatch] *)

Section BatchMaps.
Import PG Spec.

Lemma range_elem (order : MapOrder) {K} `{Countable K} {V} (m : gmap K V) k v :
  (k, v) ∈ range order m <-> m !! k = Some v.
Proof. rewrite (range_perm order K V m). apply elem_of_map_to_list. Qed.

Lemma range_NoDup_fst (order : MapOrder) {K} `{Countable K} {V}
    (m : gmap K V) : NoDup (fst <$> range order m).
Proof.
  rewrite (range_perm order K V m). apply NoDup_fst_map_to_list.
Qed.

Lemma range_nil (order : MapOrder) {K} `{Countable K} {V} (m : gmap K V) :
  range order m = [] <-> m = ∅.
Proof.
  split.
  - intros Hnil. apply map_to_list_empty_iff.
    apply Permutation_nil_r. by rewrite <- (range_perm order K V m), Hnil.
  - intros ->. apply Permutation_nil_r.
    by rewrite (range_perm order K V ∅), map_to_list_empty.
Qed.


Lemma appendTo_lookup {K} `{Countable K} {A} (m : gmap K (list A)) k xs k' ys :
  appendTo m k xs !! k' = Some ys ->
  (k' = k /\ ys = default [] (m !! k) ++ xs) \/ (k' <> k /\ m !! k' = Some ys).
Proof.
  unfold appendTo. destruct (decide (k = k')) as [<-|Hne].
  - rewrite lookup_insert_eq. intros [= <-]. by left.
  - rewrite lookup_insert_ne by done. intros. right. split; congruence.
Qed.


Lemma queryBases_tables env baseCNPJs m d :
  tables (queryBases env baseCNPJs m d) = d.
Proof.
  unfold queryBases. destruct baseCNPJs; [done|]. run_simpl.
  by destruct (returned _).
Qed.

Lemma queryFull_tables env fullCNPJs m d :
  tables (queryFull env fullCNPJs m d) = d.
Proof.
  unfold queryFull. destruct fullCNPJs; [done|]. run_simpl.
  by destruct (returned _).
Qed.

Lemma queryCNPJs_tables order env m d :
  tables (queryCNPJs order env m d) = d.
Proof.
  unfold queryCNPJs. destruct (decide _); [done|].
  destruct (uniqueIDs _); [done|]. run_simpl. by destruct (returned _).
Qed.


End BatchMaps.

(** ** [ImportPartnersOnly] *)

Section OnlyOne.
Import PG Spec.

Lemma fallbackInserts_grow (R : SocioArgs -> Prop) env businessID fullCNPJ
    i partners tx d :
  Forall R (omap (partnerRow businessID fullCNPJ) partners) ->
  tables (fallbackInserts env businessID fullCNPJ i partners tx d) = d
  /\ sociosGrow R tx
       (returned (fallbackInserts env businessID fullCNPJ i partners tx d)).
Proof.
  revert i tx. induction partners as [|p ps IH]; intros i tx HR.
  - split; [done | apply sociosGrow_refl].
  - change (omap ?f (p :: ps))
      with (match f p with Some a => a :: omap f ps | None => omap f ps end)
      in HR.
    cbn [fallbackInserts].
    pose proof (partnerRowStep_fold businessID fullCNPJ [p] [] []) as Hrow.
    cbn [foldl app] in Hrow.
    destruct (partnerRowStep businessID fullCNPJ ([], []) p) as [row ws].
    cbn [fst] in Hrow. subst row.
    change (omap ?f [p])
      with (match f p with Some a => [a] | None => [] end).
    destruct (partnerRow businessID fullCNPJ p) as [a|].
    + apply Forall_cons in HR as [Ha HR]. run_simpl.
      destruct (env (ForBusiness businessID (AtFallbackInsert i))).
      * run_simpl. apply (IH (S i) tx HR).
      * cbn [exec fst snd]. run_simpl.
        destruct (IH (S i) (insertSocios [a] tx) HR) as [Ht Hg].
        split; [exact Ht|].
        eapply sociosGrow_trans; [|exact Hg].
        apply insertSocios_grow. by apply Forall_singleton.
    + run_simpl. apply (IH (S i) tx HR).
Qed.






End OnlyOne.

(** ** The venue writer, block by block *)

Section VenueWriter.
Import PG Spec.

Lemma omap_cons {A B} (f : A -> option B) x l :
  omap f (x :: l)
  = match f x with Some y => y :: omap f l | None => omap f l end.
Proof. reflexivity. Qed.

(** The first loop in closed form. *)
Lemma businessStep_fold batch values m ws :
  foldl businessStep (values, m, ws) batch
  = (values ++ validArgs batch,
     foldl (fun m a => <[a_cnpj a := 0]> m) m (validArgs batch),
     ws ++ omap invalidWarning batch).
Proof.
  revert values m ws. unfold validArgs.
  induction batch as [|c batch IH]; intros values m ws.
  - cbn. by rewrite !app_nil_r.
  - rewrite !omap_cons. cbn [foldl]. unfold businessStep at 2.
    change (venueArgs c)
      with (if len (removeNonDigits (CNPJ c)) =? 14
            then Some (businessArgs c (removeNonDigits (CNPJ c))) else None).
    change (invalidWarning c)
      with (if len (removeNonDigits (CNPJ c)) =? 14 then None
            else Some (Warn "invalid CNPJ length"
                         [AttrStr "cnpj" (removeNonDigits (CNPJ c))])).
    destruct (len (removeNonDigits (CNPJ c)) =? 14); cbn [negb].
    + rewrite IH. cbn [foldl]. by rewrite <- app_assoc.
    + rewrite IH. by rewrite <- app_assoc.
Qed.

Lemma businessLoop_closed batch :
  businessLoop batch
  = (validArgs batch,
     foldl (fun m a => <[a_cnpj a := 0]> m) ∅ (validArgs batch),
     omap invalidWarning batch).
Proof. unfold businessLoop. by rewrite businessStep_fold. Qed.

Lemma partnerStep_fold businessID cleanCNPJ partners values ws :
  fst (foldl (partnerStep businessID cleanCNPJ) (values, ws) partners)
  = values ++ omap (venuePartnerRow businessID cleanCNPJ) partners.
Proof.
  revert values ws.
  induction partners as [|p ps IH]; intros values ws.
  - cbn. by rewrite app_nil_r.
  - rewrite omap_cons. cbn [foldl].
    unfold partnerStep at 2, venuePartnerRow at 1.
    destruct (11 <? len (removeNonDigits (CNPJCPFDoSocio p))).
    + apply IH.
    + rewrite IH. by rewrite <- app_assoc.
Qed.

Lemma partnersStep_fst businessIDMap acc company :
  fst (partnersStep businessIDMap acc company)
  = fst acc ++ venuePartnerRows businessIDMap company.
Proof.
  unfold partnersStep, venuePartnerRows.
  destruct (len (removeNonDigits (CNPJ company)) =? 14); cbn [negb];
    [|by rewrite app_nil_r].
  destruct (businessIDMap !! _) as [businessID|]; [|by rewrite app_nil_r].
  destruct (businessID =? 0); [by rewrite app_nil_r|].
  destruct acc as [values ws]. apply partnerStep_fold.
Qed.

(** The second loop in closed form. *)
Lemma partnersStep_fold businessIDMap batch acc :
  fst (foldl (partnersStep businessIDMap) acc batch)
  = fst acc ++ concat (venuePartnerRows businessIDMap <$> batch).
Proof.
  revert acc. induction batch as [|c batch IH]; intros acc.
  - cbn. by rewrite app_nil_r.
  - cbn [foldl fmap list_fmap concat]. rewrite IH, partnersStep_fst.
    by rewrite <- app_assoc.
Qed.

Lemma partnersLoop_rows businessIDMap batch :
  fst (partnersLoop businessIDMap batch)
  = concat (venuePartnerRows businessIDMap <$> batch).
Proof. unfold partnersLoop. by rewrite partnersStep_fold. Qed.

Lemma insertBusinesses_returned order env now values m tx d :
  returned (insertBusinesses order env now values m tx d)
  = match values with
    | [] => (Done m, tx)
    | _ =>
        match env AtInsertBusiness with
        | Some e => (Failed ("error batch inserting businesses: " +:+ e), tx)
        | None =>
            (Done (resolvedIDs order env now values m tx),
             fst (insertBusiness now values tx))
        end
    end.
Proof.
  unfold insertBusinesses, resolvedIDs.
  destruct values as [|a values]; [done|]. run_simpl.
  destruct (env AtInsertBusiness); [done|]. cbn [fst snd].
  destruct (missingOf _ _ _); [done|]. run_simpl.
  by destruct (env AtSelectExisting).
Qed.

Lemma insertBusinesses_tables order env now values m tx d :
  tables (insertBusinesses order env now values m tx d) = d.
Proof.
  unfold insertBusinesses.
  destruct values as [|a values]; [done|]. run_simpl.
  destruct (env AtInsertBusiness); [done|]. cbn [fst snd].
  destruct (missingOf _ _ _); [done|]. run_simpl.
  by destruct (env AtSelectExisting).
Qed.

Lemma insertBusinesses_venueInserts order env now values m tx d :
  venueInserts (statements (insertBusinesses order env now values m tx d))
  = match values with [] => [] | _ => [values] end.
Proof.
  unfold insertBusinesses.
  destruct values as [|a values]; [done|]. run_simpl.
  destruct (env AtInsertBusiness); [done|]. cbn [fst snd].
  destruct (missingOf _ _ _); [done|]. run_simpl.
  by destruct (env AtSelectExisting).
Qed.

Lemma insertPartners_returned env partnerValues tx d :
  returned (insertPartners env partnerValues tx d)
  = match partnerValues with
    | [] => tx
    | _ =>
        match env AtInsertPartners with
        | Some _ => tx
        | None => insertSocios partnerValues tx
        end
    end.
Proof.
  unfold insertPartners. destruct partnerValues as [|a rest]; [done|].
  run_simpl. by destruct (env AtInsertPartners).
Qed.

Lemma insertPartners_tables env partnerValues tx d :
  tables (insertPartners env partnerValues tx d) = d.
Proof.
  unfold insertPartners. destruct partnerValues as [|a rest]; [done|].
  run_simpl. by destruct (env AtInsertPartners).
Qed.

Lemma insertPartners_venueInserts env partnerValues tx d :
  venueInserts (statements (insertPartners env partnerValues tx d)) = [].
Proof.
  unfold insertPartners. destruct partnerValues as [|a rest]; [done|].
  run_simpl. by destruct (env AtInsertPartners).
Qed.

Lemma commitBatch_returned env tx d :
  returned (commitBatch env tx d)
  = match env AtCommit with
    | Some e => Some ("error committing transaction: " +:+ e)
    | None => None
    end.
Proof.
  unfold commitBatch. run_simpl. by destruct (env AtCommit).
Qed.

Lemma commitBatch_tables env tx d :
  tables (commitBatch env tx d)
  = match env AtCommit with Some _ => d | None => tx end.
Proof.
  unfold commitBatch. run_simpl. destruct (env AtCommit); [|done].
  run_simpl. by destruct (env AtRollback).
Qed.

Lemma commitBatch_venueInserts env tx d :
  venueInserts (statements (commitBatch env tx d)) = [].
Proof.
  unfold commitBatch. run_simpl. destruct (env AtCommit); [|done].
  run_simpl. by destruct (env AtRollback).
Qed.

(** What the venue writer returns. *)
Lemma CCSD_returned order env now batch d :
  returned (CreateCompaniesStructuredDirect order env now batch d)
  = match env AtBegin with
    | Some e => Some ("error beginning transaction: " +:+ e)
    | None =>
        match validArgs batch, env AtInsertBusiness with
        | _ :: _, Some e => Some ("error batch inserting businesses: " +:+ e)
        | _, _ =>
            match env AtCommit with
            | Some e => Some ("error committing transaction: " +:+ e)
            | None => None
            end
        end
    end.
Proof.
  unfold CreateCompaniesStructuredDirect. run_simpl.
  destruct (env AtBegin); [done|]. run_simpl.
  rewrite businessLoop_closed. run_simpl.
  rewrite insertBusinesses_returned.
  destruct (validArgs batch) as [|a values].
  - destruct (partnersLoop _ _). run_simpl. apply commitBatch_returned.
  - destruct (env AtInsertBusiness); [done|].
    destruct (partnersLoop _ _). run_simpl. apply commitBatch_returned.
Qed.

(** The tables after the venue writer: as before when it returns an error;
    with the venue insert and possibly the partner insert done when it
    returns none. *)
Lemma CCSD_tables order env now batch d :
  match returned (CreateCompaniesStructuredDirect order env now batch d) with
  | Some _ =>
      tables (CreateCompaniesStructuredDirect order env now batch d) = d
  | None =>
      exists partnerValues,
        tables (CreateCompaniesStructuredDirect order env now batch d)
        = insertSocios partnerValues
            (fst (insertBusiness now (validArgs batch) d))
  end.
Proof.
  rewrite CCSD_returned.
  unfold CreateCompaniesStructuredDirect. run_simpl.
  destruct (env AtBegin); [done|]. run_simpl.
  rewrite businessLoop_closed. run_simpl.
  rewrite insertBusinesses_returned, !insertBusinesses_tables.
  destruct (validArgs batch) as [|a values].
  - destruct (partnersLoop _ _) as [pv ws]. run_simpl.
    rewrite insertPartners_tables, commitBatch_tables, insertPartners_returned.
    destruct (env AtCommit); [done|].
    destruct pv as [|p pv]; [by exists []|].
    destruct (env AtInsertPartners); [by exists [] | by exists (p :: pv)].
  - destruct (env AtInsertBusiness); [done|].
    destruct (partnersLoop _ _) as [pv ws]. run_simpl.
    rewrite insertPartners_tables, commitBatch_tables, insertPartners_returned.
    destruct (env AtCommit); [done|].
    destruct pv as [|p pv]; [by exists []|].
    destruct (env AtInsertPartners); [by exists [] | by exists (p :: pv)].
Qed.

(** The venue writer sends at most one venue insert, with the rows of all
    the valid companies of the batch. *)
Lemma CCSD_venueInserts order env now batch d :
  venueInserts
    (statements (CreateCompaniesStructuredDirect order env now batch d)) = []
  \/ venueInserts
       (statements (CreateCompaniesStructuredDirect order env now batch d))
     = [validArgs batch].
Proof.
  unfold CreateCompaniesStructuredDirect. run_simpl.
  destruct (env AtBegin); [by left|]. run_simpl.
  rewrite businessLoop_closed. run_simpl.
  unfold venueInserts. rewrite !omap_app. fold venueInserts.
  rewrite insertBusinesses_venueInserts, insertBusinesses_returned.
  cbn [statements pool_Begin sent ret slogs bind app omap list_omap].
  destruct (validArgs batch) as [|a values].
  - left. destruct (partnersLoop _ _) as [pv ws]. run_simpl.
    unfold venueInserts. rewrite !omap_app. fold venueInserts.
    by rewrite insertPartners_venueInserts, commitBatch_venueInserts.
  - right. destruct (env AtInsertBusiness); [done|].
    destruct (partnersLoop _ _) as [pv ws]. run_simpl.
    unfold venueInserts. rewrite !omap_app. fold venueInserts.
    by rewrite insertPartners_venueInserts, commitBatch_venueInserts.
Qed.

End VenueWriter.

(** ** The venue insert: [ON CONFLICT (cnpj) DO NOTHING] *)

Section VenueInsert.
Import PG Spec.

Lemma insertSocioRow_business d a :
  business (insertSocioRow d a) = business d.
Proof. unfold insertSocioRow. by destruct (decide _). Qed.

Lemma insertSocios_business rows d :
  business (insertSocios rows d) = business d.
Proof.
  unfold insertSocios. revert d.
  induction rows as [|a rows IH]; intros d; [done|].
  cbn [foldl]. by rewrite IH, insertSocioRow_business.
Qed.

(** The venue insert only appends: the table before is a prefix of the table
    after, and what is appended are fresh rows for IDs that were not there. *)
Lemma insertBusiness_fold now rows d returning :
  exists new,
    business (fst (foldl (insertBusinessRow now) (d, returning) rows))
    = business d ++ new
    /\ Forall (freshRow now rows d) new
    /\ (forall a, a ∈ rows ->
          a_cnpj a ∈ cnpjs d \/ a_cnpj a ∈ (b_cnpj <$> new))
    /\ (NoDup (cnpjs d) -> NoDup (cnpjs d ++ (b_cnpj <$> new))).
Proof.
  revert d returning.
  induction rows as [|a rows IH]; intros d returning.
  - exists []. cbn. rewrite !app_nil_r.
    split; [done|]. split; [constructor|]. split; [|done].
    intros a Ha. by apply elem_of_nil in Ha.
  - cbn [foldl]. unfold insertBusinessRow at 2.
    destruct (decide (a_cnpj a ∈ b_cnpj <$> business d)) as [Hin|Hnew].
    + destruct (IH (withBusiness (business d) (business_seq d + 1) d) returning)
        as (new & Heq & Hfresh & Hall & Hnd).
      exists new. split; [exact Heq|]. split; [|split].
      * eapply Forall_impl; [exact Hfresh|].
        intros row (Hc & Hn & Ht). split; [by right | done].
      * intros a' [->|Ha']%elem_of_cons; [by left | by apply Hall].
      * exact Hnd.
    + set (row := {| b_id := business_seq d; b_cols := a;
                     b_created_at := now; b_updated_at := now |}).
      destruct (IH (withBusiness (business d ++ [row]) (business_seq d + 1) d)
                  (returning ++ [(business_seq d, a_cnpj a)]))
        as (new & Heq & Hfresh & Hall & Hnd).
      cbn [business withBusiness] in Heq.
      unfold cnpjs in Hall, Hnd, Hfresh. cbn [business withBusiness] in Hall, Hnd.
      exists (row :: new). split; [by rewrite Heq, <- app_assoc|].
      split; [|split].
      * constructor.
        -- split; [by left|]. by split.
        -- eapply Forall_impl; [exact Hfresh|].
           intros row' (Hc & Hn & Ht). split; [by right|]. split; [|done].
           unfold cnpjs in *. cbn [business withBusiness] in Hn.
           rewrite fmap_app in Hn. intros Hin. apply Hn.
           apply elem_of_app. by left.
      * intros a' [->|Ha']%elem_of_cons.
        -- right. cbn. left.
        -- destruct (Hall a' Ha') as [H|H].
           ++ rewrite fmap_app in H. apply elem_of_app in H as [H|H].
              ** by left.
              ** right. cbn in H. apply list_elem_of_singleton in H as ->.
                 cbn. left.
           ++ right. cbn. by right.
      * intros Hd. unfold cnpjs in *. rewrite fmap_app in Hnd. cbn in Hnd.
        rewrite <- app_assoc in Hnd. cbn in Hnd. apply Hnd.
        apply NoDup_app. split; [done|]. split.
        -- intros x Hx [->|H]%elem_of_cons; [done|]. by apply elem_of_nil in H.
        -- apply NoDup_singleton.
Qed.

Lemma insertBusiness_appends now rows d :
  exists new,
    business (fst (insertBusiness now rows d)) = business d ++ new
    /\ Forall (freshRow now rows d) new
    /\ (forall a, a ∈ rows ->
          a_cnpj a ∈ cnpjs d \/ a_cnpj a ∈ (b_cnpj <$> new))
    /\ (NoDup (cnpjs d) -> NoDup (cnpjs d ++ (b_cnpj <$> new))).
Proof. apply insertBusiness_fold. Qed.

(** When every proposed ID is already in the table the venue rows stay as
    they are. *)
Lemma insertBusiness_all_present now rows d :
  (forall a, a ∈ rows -> a_cnpj a ∈ cnpjs d) ->
  business (fst (insertBusiness now rows d)) = business d.
Proof.
  intros Hall.
  destruct (insertBusiness_appends now rows d) as (new & Heq & Hfresh & _).
  rewrite Heq. destruct new as [|row new]; [by rewrite app_nil_r|].
  apply Forall_cons in Hfresh as [(Hc & Hn & _) _].
  destruct Hn. apply Hall. exact Hc.
Qed.

Lemma NoDup_fmap_eq {A B} (f : A -> B) (l : list A) x y :
  NoDup (f <$> l) -> x ∈ l -> y ∈ l -> f x = f y -> x = y.
Proof.
  induction l as [|z l IH]; intros Hnd Hx Hy Hf; [by apply elem_of_nil in Hx|].
  cbn in Hnd. apply NoDup_cons in Hnd as [Hz Hnd].
  apply elem_of_cons in Hx as [->|Hx]; apply elem_of_cons in Hy as [->|Hy].
  - done.
  - destruct Hz. rewrite Hf. by apply list_elem_of_fmap_2.
  - destruct Hz. rewrite <- Hf. by apply list_elem_of_fmap_2.
  - by apply IH.
Qed.

(** The venue rows after the venue writer. *)
Lemma CCSD_business order env now batch d :
  exists new,
    business (tables (CreateCompaniesStructuredDirect order env now batch d))
    = business d ++ new
    /\ Forall (freshRow now (validArgs batch) d) new
    /\ (NoDup (cnpjs d) -> NoDup (cnpjs d ++ (b_cnpj <$> new)))
    /\ (returned (CreateCompaniesStructuredDirect order env now batch d) = None ->
        forall a, a ∈ validArgs batch ->
          a_cnpj a ∈ cnpjs d \/ a_cnpj a ∈ (b_cnpj <$> new)).
Proof.
  pose proof (CCSD_tables order env now batch d) as Ht.
  destruct (returned _) as [e|].
  - rewrite Ht. exists []. rewrite !app_nil_r.
    split; [done|]. split; [constructor|]. split; done.
  - destruct Ht as [pv ->]. rewrite insertSocios_business.
    destruct (insertBusiness_appends now (validArgs batch) d)
      as (new & Heq & Hfresh & Hall & Hnd).
    exists new. split; [done|]. split; [done|]. split; [done|]. by intros _.
Qed.

End VenueInsert.

(** ** Venues that are already there *)

Section ExistingVenues.
Import PG Spec.

(** C1 (as amended): the venue writer sends at most one venue insert, a
    multi-row insert with [ON CONFLICT (cnpj) DO NOTHING] carrying the rows
    of all the valid companies of the batch.  A venue that is already in the
    table stays as it is, columns and [updated_at] included, and remains the
    only row with its national ID; every other row is a row that was there
    or a new row for an ID that was not, stamped with the clock of the
    batch; and when the writer returns no error every valid ID of the batch
    is in the table. *)
Theorem C1_existing_venue_is_left_as_it_is
    (order : MapOrder) (env : Env) (now : Time) (batch : list Company)
    (d : DB) (old : BusinessRow) :
  NoDup (cnpjs d) ->
  old ∈ business d ->
  let r := CreateCompaniesStructuredDirect order env now batch d in
  (venueInserts (statements r) = []
   \/ venueInserts (statements r) = [validArgs batch])
  /\ old ∈ business (tables r)
  /\ (forall row, row ∈ business (tables r) -> b_cnpj row = b_cnpj old ->
        row = old)
  /\ (forall row, row ∈ business (tables r) ->
        row ∈ business d \/ freshRow now (validArgs batch) d row)
  /\ (returned r = None ->
      forall a, a ∈ validArgs batch -> a_cnpj a ∈ cnpjs (tables r)).
Proof.
  intros Hnd Hold r. subst r.
  destruct (CCSD_business order env now batch d)
    as (new & Heq & Hfresh & Hnd' & Hall).
  split; [apply CCSD_venueInserts|].
  assert (Hin : old ∈ business
                  (tables (CreateCompaniesStructuredDirect order env now batch d)))
    by (rewrite Heq; apply elem_of_app; by left).
  split; [exact Hin|]. split; [|split].
  - intros row Hrow Hcnpj.
    apply (NoDup_fmap_eq b_cnpj
             (business (tables
                (CreateCompaniesStructuredDirect order env now batch d))));
      try done.
    rewrite Heq, fmap_app. by apply Hnd'.
  - intros row Hrow. rewrite Heq in Hrow.
    apply elem_of_app in Hrow as [Hrow|Hrow]; [by left|]. right.
    by eapply Forall_forall in Hfresh.
  - intros Hret a Ha. unfold cnpjs at 1. rewrite Heq, fmap_app.
    apply elem_of_app. by apply Hall.
Qed.

Lemma C1_witness :
  NoDup (cnpjs Sample.oneVenue)
  /\ Sample.acmeRow ∈ business Sample.oneVenue
  /\ let r := CreateCompaniesStructuredDirect sortedOrder noFaults 20
                [Sample.venue "12345678000199" "ACME COMERCIO LTDA" [];
                 Sample.venue "22222222000100" "BETA SA" []]
                Sample.oneVenue in
     (venueInserts (statements r) = []
      \/ venueInserts (statements r)
         = [validArgs [Sample.venue "12345678000199" "ACME COMERCIO LTDA" [];
                       Sample.venue "22222222000100" "BETA SA" []]])
     /\ Sample.acmeRow ∈ business (tables r)
     /\ (forall row, row ∈ business (tables r) ->
           b_cnpj row = b_cnpj Sample.acmeRow -> row = Sample.acmeRow)
     /\ (forall row, row ∈ business (tables r) ->
           row ∈ business Sample.oneVenue
           \/ freshRow 20
                (validArgs
                   [Sample.venue "12345678000199" "ACME COMERCIO LTDA" [];
                    Sample.venue "22222222000100" "BETA SA" []])
                Sample.oneVenue row)
     /\ (returned r = None ->
         forall a,
           a ∈ validArgs [Sample.venue "12345678000199" "ACME COMERCIO LTDA" [];
                          Sample.venue "22222222000100" "BETA SA" []] ->
           a_cnpj a ∈ cnpjs (tables r)).
Proof.
  assert (Hnd : NoDup (cnpjs Sample.oneVenue))
    by (vm_compute; apply NoDup_singleton).
  assert (Hold : Sample.acmeRow ∈ business Sample.oneVenue)
    by (vm_compute; constructor).
  split; [exact Hnd|]. split; [exact Hold|].
  exact (C1_existing_venue_is_left_as_it_is sortedOrder noFaults 20
           [Sample.venue "12345678000199" "ACME COMERCIO LTDA" [];
            Sample.venue "22222222000100" "BETA SA" []]
           Sample.oneVenue Sample.acmeRow Hnd Hold).
Defined.

(** A venue written at time 10 and written again at time 20 with another
    registered name keeps its name and its [updated_at]. *)
Lemma C1_counterexample :
  ~ existingVenueRefreshed sortedOrder noFaults 20
      [Sample.venue "12.345.678/0001-99" "ACME COMERCIO LTDA" []]
      Sample.oneVenue.
Proof.
  intros H.
  destruct (H (Sample.venue "12.345.678/0001-99" "ACME COMERCIO LTDA" [])
              Sample.acmeRow)
    as (new & Hin & _ & _ & Hstamp).
  - constructor.
  - reflexivity.
  - vm_compute. constructor.
  - reflexivity.
  - reflexivity.
  - vm_compute in Hin. apply list_elem_of_singleton in Hin. subst new.
    discriminate Hstamp.
Qed.

(** The venue rows stay as they are when every valid ID of the batch is
    already in the table. *)
Lemma CCSD_all_present order env now batch d :
  (forall a, a ∈ validArgs batch -> a_cnpj a ∈ cnpjs d) ->
  business (tables (CreateCompaniesStructuredDirect order env now batch d))
  = business d.
Proof.
  intros Hall.
  destruct (CCSD_business order env now batch d) as (new & Heq & Hfresh & _).
  rewrite Heq. destruct new as [|row new]; [by rewrite app_nil_r|].
  apply Forall_cons in Hfresh as [(Hc & Hn & _) _].
  destruct Hn. by apply Hall.
Qed.

Lemma CCSD_cnpjs_mono order env now batch d x :
  x ∈ cnpjs d ->
  x ∈ cnpjs (tables (CreateCompaniesStructuredDirect order env now batch d)).
Proof.
  intros Hx.
  destruct (CCSD_business order env now batch d) as (new & Heq & _).
  unfold cnpjs. rewrite Heq, fmap_app. apply elem_of_app. by left.
Qed.

Lemma CCSD_success_present order env now batch d a :
  returned (CreateCompaniesStructuredDirect order env now batch d) = None ->
  a ∈ validArgs batch ->
  a_cnpj a ∈ cnpjs (tables (CreateCompaniesStructuredDirect order env now batch d)).
Proof.
  intros Hret Ha.
  destruct (CCSD_business order env now batch d) as (new & Heq & _ & _ & Hall).
  unfold cnpjs at 1. rewrite Heq, fmap_app. apply elem_of_app. by apply Hall.
Qed.

Lemma runBatches_cnpjs_mono order calls d x :
  x ∈ cnpjs d -> x ∈ cnpjs (tables (runBatches order calls d)).
Proof.
  revert d. induction calls as [|[[env now] batch] calls IH]; intros d Hx;
    [done|].
  cbn [runBatches]. run_simpl.
  pose proof (CCSD_cnpjs_mono order env now batch d x Hx) as Hstep.
  destruct (returned (CreateCompaniesStructuredDirect _ _ _ _ _));
    [exact Hstep | by apply IH].
Qed.

(** After a run that returned no error every valid ID of its batches is in
    the table. *)
Lemma runBatches_success_present order calls d :
  returned (runBatches order calls d) = None ->
  allPresent (tables (runBatches order calls d)) (snd <$> calls).
Proof.
  revert d. induction calls as [|[[env now] batch] calls IH]; intros d Hret.
  - intros batch a Hb. by apply elem_of_nil in Hb.
  - cbn [runBatches] in *. revert Hret. run_simpl.
    pose proof (CCSD_success_present order env now batch d) as Hstep.
    destruct (returned (CreateCompaniesStructuredDirect _ _ _ _ _));
      [done|].
    intros Hret batch' a Hb Ha. cbn in Hb.
    apply elem_of_cons in Hb as [->|Hb].
    + apply runBatches_cnpjs_mono. by apply Hstep.
    + by eapply IH.
Qed.

(** A run over batches whose valid IDs are all in the table leaves the
    venue rows as they are. *)
Lemma runBatches_all_present order calls d :
  allPresent d (snd <$> calls) ->
  business (tables (runBatches order calls d)) = business d.
Proof.
  revert d. induction calls as [|[[env now] batch] calls IH]; intros d Hall;
    [done|].
  cbn [runBatches]. run_simpl.
  assert (Hstep : business
            (tables (CreateCompaniesStructuredDirect order env now batch d))
            = business d).
  { apply CCSD_all_present. intros a Ha. eapply Hall; [|exact Ha]. left. }
  destruct (returned (CreateCompaniesStructuredDirect _ _ _ _ _));
    [exact Hstep|].
  rewrite IH; [exact Hstep|].
  intros batch' a Hb Ha. unfold cnpjs. rewrite Hstep.
  eapply Hall; [|exact Ha]. by right.
Qed.

(** C2 (as amended): after a first run that returned no error, a second run
    over the same batches, and every run after it, leaves every venue row
    identical to the first run's output, [updated_at] included, whatever the
    clocks of the later runs and whatever fails in them. *)
Theorem C2_later_runs_leave_the_venue_rows_untouched
    (order : MapOrder) (first : list (Env * Time * list Company))
    (later : list (list (Env * Time * list Company))) (d : DB) :
  returned (runBatches order first d) = None ->
  Forall (fun calls => snd <$> calls = snd <$> first) later ->
  business (rerun order later (tables (runBatches order first d)))
  = business (tables (runBatches order first d)).
Proof.
  intros Hret Hlater.
  pose proof (runBatches_success_present order first d Hret) as Hall.
  revert Hall. generalize (tables (runBatches order first d)). intros d1 Hall.
  assert (Hgen : forall d2, business d2 = business d1 ->
             business (rerun order later d2) = business d1).
  { induction Hlater as [|calls later Hcalls _ IH]; intros d2 Hd2; [done|].
    cbn [rerun foldl]. apply IH.
    rewrite runBatches_all_present; [done|].
    rewrite Hcalls. intros batch a Hb Ha. unfold cnpjs. rewrite Hd2.
    by eapply Hall. }
  by apply Hgen.
Qed.

Lemma C2_witness :
  returned (runBatches sortedOrder
              [(noFaults, 10, [Sample.venue "12.345.678/0001-99" "ACME LTDA" []])]
              emptyDB) = None
  /\ Forall (fun calls =>
               snd <$> calls
               = snd <$> [(noFaults, 10,
                           [Sample.venue "12.345.678/0001-99" "ACME LTDA" []])])
       [[(noFaults, 20, [Sample.venue "12.345.678/0001-99" "ACME LTDA" []])];
        [(noFaults, 30, [Sample.venue "12.345.678/0001-99" "ACME LTDA" []])]]
  /\ business
       (rerun sortedOrder
          [[(noFaults, 20, [Sample.venue "12.345.678/0001-99" "ACME LTDA" []])];
           [(noFaults, 30, [Sample.venue "12.345.678/0001-99" "ACME LTDA" []])]]
          (tables (runBatches sortedOrder
                     [(noFaults, 10,
                       [Sample.venue "12.345.678/0001-99" "ACME LTDA" []])]
                     emptyDB)))
     = business
         (tables (runBatches sortedOrder
                    [(noFaults, 10,
                      [Sample.venue "12.345.678/0001-99" "ACME LTDA" []])]
                    emptyDB)).
Proof.
  assert (H1 : returned (runBatches sortedOrder
              [(noFaults, 10, [Sample.venue "12.345.678/0001-99" "ACME LTDA" []])]
              emptyDB) = None) by reflexivity.
  assert (H2 : Forall (fun calls =>
               snd <$> calls
               = snd <$> [(noFaults, 10,
                           [Sample.venue "12.345.678/0001-99" "ACME LTDA" []])])
       [[(noFaults, 20, [Sample.venue "12.345.678/0001-99" "ACME LTDA" []])];
        [(noFaults, 30, [Sample.venue "12.345.678/0001-99" "ACME LTDA" []])]])
    by (repeat constructor).
  split; [exact H1|]. split; [exact H2|].
  exact (C2_later_runs_leave_the_venue_rows_untouched sortedOrder _ _ emptyDB
           H1 H2).
Defined.

(** A second run at time 20 over the venue written at time 10: the row
    keeps [updated_at] at 10. *)
Lemma C2_counterexample :
  ~ secondRunRestamps sortedOrder
      [(noFaults, 10, [Sample.venue "12.345.678/0001-99" "ACME LTDA" []])]
      [(noFaults, 20, [Sample.venue "12.345.678/0001-99" "ACME LTDA" []])]
      20 emptyDB.
Proof.
  intros H. unfold secondRunRestamps in H.
  specialize (H eq_refl eq_refl eq_refl).
  assert (Hclock : Forall (fun call : Env * Time * list Company =>
                             snd (fst call) = 20)
            [(noFaults, 20, [Sample.venue "12.345.678/0001-99" "ACME LTDA" []])])
    by (repeat constructor).
  specialize (H Hclock). vm_compute in H.
  apply Forall2_cons_1 in H as [(_ & _ & _ & Hstamp) _].
  discriminate Hstamp.
Qed.

End ExistingVenues.

(** ** Invalid rows *)

Section InvalidRows.
Import PG Spec.













End InvalidRows.

(** ** Which failures are returned *)

Section Failures.
Import PG Spec.

Lemma importBusiness_returned env businessID fullCNPJ partners d :
  returned (importBusiness env businessID fullCNPJ partners d)
  = match env (ForBusiness businessID AtBegin) with
    | Some e => Some ("error beginning transaction: " +:+ e)
    | None => None
    end.
Proof.
  unfold importBusiness. run_simpl.
  destruct (env (ForBusiness businessID AtBegin)); [done|]. run_simpl.
  destruct (partnerRows businessID fullCNPJ partners) as [values warnings].
  run_simpl. destruct values as [|a values]; run_simpl.
  - by destruct (env (ForBusiness businessID AtCommit)).
  - destruct (env (ForBusiness businessID AtInsertPartners)); [done|].
    run_simpl. by destruct (env (ForBusiness businessID AtCommit)).
Qed.


Lemma queryBases_returned env baseCNPJs m d :
  env AtQueryBases = None ->
  exists m', returned (queryBases env baseCNPJs m d) = Done m'.
Proof.
  intros Hok. unfold queryBases. destruct baseCNPJs; [by eexists|].
  run_simpl. rewrite pool_run_returned, Hok. by eexists.
Qed.

Lemma queryFull_returned env fullCNPJs m d :
  env AtQueryFull = None ->
  exists m', returned (queryFull env fullCNPJs m d) = Done m'.
Proof.
  intros Hok. unfold queryFull. destruct fullCNPJs; [by eexists|].
  run_simpl. rewrite pool_run_returned, Hok. by eexists.
Qed.

Lemma queryCNPJs_returned order env m d :
  env AtQueryIds = None ->
  exists m', returned (queryCNPJs order env m d) = Done m'.
Proof.
  intros Hok. unfold queryCNPJs. destruct (decide _); [by eexists|].
  destruct (uniqueIDs _); [by eexists|].
  run_simpl. rewrite pool_run_returned, Hok. by eexists.
Qed.





(** In the venue writer a partner insert that fails is logged, and the
    batch is committed without the partners. *)
Example partner_insert_failure_is_logged :
  let r := CreateCompaniesStructuredDirect sortedOrder
             Sample.partnerInsertFails 10
             [Sample.venue "12.345.678/0001-99" "ACME LTDA"
                [Sample.partner "ALICE" "***123456**"]] emptyDB in
  returned r = None
  /\ logged r = [Warn "error batch inserting partners"
                   [AttrStr "error" "deadlock detected"; AttrInt "count" 1]]
  /\ tables r = Sample.oneVenue.
Proof. vm_compute. repeat split. Qed.

End Failures.

(** ** The batches of the partners-only path *)

Section Batching.
Import PG Spec.

Variable lookups : Type.
Variable newPartnerData : lookups -> list string -> outcome PartnerData.
Variable l : lookups.

Lemma partnersIn_empty : partnersIn ∅ = 0%nat.
Proof. apply map_fold_empty. Qed.

Lemma partnersIn_insert_fresh b k ps :
  b !! k = None -> partnersIn (<[k := ps]> b) = (length ps + partnersIn b)%nat.
Proof.
  intros Hk. unfold partnersIn.
  apply (map_fold_insert_L
           (fun _ (partners : list PartnerData) n => (length partners + n)%nat));
    [|done].
  intros. lia.
Qed.

Lemma partnersIn_appendTo b k p :
  partnersIn (appendTo b k [p]) = S (partnersIn b).
Proof.
  unfold appendTo. destruct (b !! k) as [old|] eqn:E; cbn [default].
  - rewrite <- (insert_delete_id b k old E) at 2.
    rewrite <- insert_delete_eq.
    rewrite !partnersIn_insert_fresh by apply lookup_delete_eq.
    rewrite length_app. cbn. lia.
  - rewrite partnersIn_insert_fresh by done. cbn. lia.
Qed.

Lemma partnersIn_positive b : b <> ∅ -> (0 < partnersIn b)%nat \/
  exists k, b !! k = Some [].
Proof.
  induction b as [|k ps b Hk _ IH] using map_first_key_ind.
  - done.
  - intros _. rewrite partnersIn_insert_fresh by done.
    destruct ps as [|p ps].
    + right. exists k. apply lookup_insert_eq.
    + left. cbn. lia.
Qed.

Lemma producing_start :
  producing newPartnerData l [] {| batch := ∅; currentBatchCount := 0; sentBatches := [] |}.
Proof.
  unfold producing. cbn. rewrite partnersIn_empty.
  split; [done|]. split; [done|]. split; [constructor|].
  split; [intros k ps H; by rewrite lookup_empty in H|].
  split; [|done].
  intros b k ps p ->%list_elem_of_singleton H. by rewrite lookup_empty in H.
Qed.

Lemma appendTo_lookup_new {K} `{Countable K} {A} (m : gmap K (list A)) k x :
  exists old, appendTo m k [x] !! k = Some (old ++ [x])
              /\ old = default [] (m !! k).
Proof. unfold appendTo. rewrite lookup_insert_eq. eauto. Qed.

Lemma producing_step rows st row :
  producing newPartnerData l rows st ->
  producing newPartnerData l (rows ++ [row]) (produceStep lookups newPartnerData l st row).
Proof.
  intros (Hcount & Hrange & Hsent & Hne & Hfrom & Htotal).
  assert (Hweak : forall b k ps p,
             b ∈ sentBatches st ++ [batch st] -> b !! k = Some ps -> p ∈ ps ->
             exists row', row' ∈ rows ++ [row]
                          /\ accepted newPartnerData l row' = Some (k, p)).
  { intros b k ps p Hb Hk Hp.
    destruct (Hfrom b k ps p Hb Hk Hp) as (row' & Hin & Hacc).
    exists row'. split; [|done]. apply elem_of_app. by left. }
  unfold producing. rewrite omap_app. rewrite length_app.
  change (omap ?f [row]) with (match f row with Some y => [y] | None => [] end).
  unfold produceStep, accepted in *.
  destruct (Z.of_nat (length row) <? 11) eqn:Elen.
  { cbn [length]. rewrite Nat.add_0_r.
    do 4 (split; [done|]). split; [exact Hweak | exact Htotal]. }
  destruct (newPartnerData l row) as [partner|e] eqn:Edec.
  2:{ cbn [length]. rewrite Nat.add_0_r.
    do 4 (split; [done|]). split; [exact Hweak | exact Htotal]. }
  destruct row as [|cnpj fields] eqn:Erow.
  { cbn [length]. rewrite Nat.add_0_r.
    do 4 (split; [done|]). split; [exact Hweak | exact Htotal]. }
  assert (Hnew : forall k ps p,
             appendTo (batch st) cnpj [partner] !! k = Some ps -> p ∈ ps ->
             exists row', row' ∈ rows ++ [cnpj :: fields]
               /\ (if Z.of_nat (length row') <? 11 then None
                   else match newPartnerData l row', row' with
                        | Done partner0, cnpj0 :: _ => Some (cnpj0, partner0)
                        | _, _ => None
                        end) = Some (k, p)).
  { intros k ps p [[-> ->]|[_ Hold]]%appendTo_lookup Hp.
    - apply elem_of_app in Hp as [Hp|Hp].
      + destruct (batch st !! cnpj) as [old|] eqn:Eold; cbn in Hp;
          [|by apply elem_of_nil in Hp].
        eapply (Hweak (batch st)); eauto.
        apply elem_of_app. right. by apply list_elem_of_singleton.
      + apply list_elem_of_singleton in Hp as ->.
        exists (cnpj :: fields). split.
        * apply elem_of_app. right. by apply list_elem_of_singleton.
        * by rewrite Elen, Edec.
    - eapply (Hweak (batch st)); eauto.
      apply elem_of_app. right. by apply list_elem_of_singleton. }
  assert (Hin : partnersIn (appendTo (batch st) cnpj [partner])
                = S (partnersIn (batch st))) by apply partnersIn_appendTo.
  unfold batchSize in *.
  destruct (5000 <=? currentBatchCount st + 1) eqn:Efull.
  - apply Z.leb_le in Efull. cbn [batch currentBatchCount sentBatches].
    rewrite partnersIn_empty.
    split; [done|]. split; [lia|]. split.
    { apply Forall_app. split; [done|]. apply Forall_singleton. lia. }
    split; [intros k ps H; by rewrite lookup_empty in H|]. split.
    + intros b k ps p Hb Hk Hp.
      apply elem_of_app in Hb as [Hb|Hb].
      * apply elem_of_app in Hb as [Hb|Hb].
        -- eapply Hweak; eauto. apply elem_of_app. by left.
        -- apply list_elem_of_singleton in Hb as ->. by eapply Hnew.
      * apply list_elem_of_singleton in Hb as ->.
        by rewrite lookup_empty in Hk.
    + rewrite sum_list_with_app. cbn. rewrite Hin. lia.
  - apply Z.leb_gt in Efull. cbn [batch currentBatchCount sentBatches].
    split; [lia|]. split; [lia|]. split; [done|]. split.
    { intros k ps [[-> ->]|[_ Hold]]%appendTo_lookup; [|by eapply Hne].
      by destruct (default [] (batch st !! cnpj)). }
    split.
    + intros b k ps p Hb Hk Hp.
      apply elem_of_app in Hb as [Hb|Hb].
      * eapply Hweak; eauto. apply elem_of_app. by left.
      * apply list_elem_of_singleton in Hb as ->. by eapply Hnew.
    + cbn. rewrite Hin. lia.
Qed.

Lemma producing_all rows :
  producing newPartnerData l rows
    (foldl (produceStep lookups newPartnerData l)
       {| batch := ∅; currentBatchCount := 0; sentBatches := [] |} rows).
Proof.
  induction rows as [|row rows IH] using rev_ind; [apply producing_start|].
  rewrite foldl_app. cbn [foldl]. by apply producing_step.
Qed.

(** The batches the workers receive: each holds between 1 and 5,000
    partners and every one before the last exactly 5,000; a partner is under
    the ID of the row it was decoded from; and the batches hold as many
    partners as there are accepted rows. *)
Lemma partnerBatches_shape rows :
  let batches := partnerBatches lookups newPartnerData l rows in
  Forall (fun b => (1 <= partnersIn b <= 5000)%nat) batches
  /\ (forall i b, batches !! i = Some b -> (S i < length batches)%nat ->
        partnersIn b = 5000%nat)
  /\ (forall b k ps p, b ∈ batches -> b !! k = Some ps -> p ∈ ps ->
        exists row, row ∈ rows /\ accepted newPartnerData l row = Some (k, p))
  /\ sum_list_with partnersIn batches
     = length (omap (accepted newPartnerData l) rows).
Proof.
  cbv zeta. unfold partnerBatches.
  destruct (producing_all rows)
    as (Hcount & Hrange & Hsent & Hne & Hfrom & Htotal).
  set (st := foldl _ _ rows) in *. unfold batchSize in *.
  destruct (decide (batch st = ∅)) as [Hempty|Hnonempty].
  - rewrite Hempty, partnersIn_empty in Htotal.
    split; [eapply Forall_impl; [exact Hsent|]; intros; cbn in *; lia|].
    split.
    { intros i b Hi _. eapply Forall_forall in Hsent; [exact Hsent|].
      by eapply list_elem_of_lookup_2. }
    split; [|lia].
    intros b k ps p Hb. eapply Hfrom. apply elem_of_app. by left.
  - assert (Hpos : (0 < partnersIn (batch st))%nat).
    { destruct (partnersIn_positive (batch st) Hnonempty) as [?|[k Hk]];
        [done|]. by destruct (Hne k [] Hk). }
    split.
    { apply Forall_app. split.
      - eapply Forall_impl; [exact Hsent|]. intros; cbn in *; lia.
      - apply Forall_singleton. lia. }
    split.
    { intros i b Hi Hlt. rewrite length_app in Hlt. cbn in Hlt.
      rewrite lookup_app_l in Hi by lia.
      eapply Forall_forall in Hsent; [exact Hsent|].
      by eapply list_elem_of_lookup_2. }
    split; [exact Hfrom|].
    rewrite sum_list_with_app. cbn. lia.
Qed.

End Batching.

(** ** The lookups of [ImportPartnersBatch] *)

Section Lookups.
Import PG Spec.

(** The first loop in closed form: the keys by length, cleaned. *)
Lemma splitStep_keys entries bases fulls m :
  let '(bases', fulls', _) := foldl splitStep (bases, fulls, m) entries in
  bases' = bases ++ List.filter (fun k => len k =? 8)
                      (removeNonDigits <$> (fst <$> entries))
  /\ fulls' = fulls ++ List.filter (fun k => len k =? 14)
                         (removeNonDigits <$> (fst <$> entries)).
Proof.
  revert bases fulls m.
  induction entries as [|[k ps] entries IH]; intros bases fulls m.
  - cbn. by rewrite !app_nil_r.
  - cbn [foldl fmap list_fmap fst List.filter]. unfold splitStep at 2.
    destruct (len (removeNonDigits k) =? 8) eqn:E8.
    + specialize (IH (bases ++ [removeNonDigits k]) fulls
                    (<[removeNonDigits k := ps]> m)).
      destruct (foldl splitStep _ entries) as [[bases' fulls'] m'].
      destruct IH as [-> ->]. apply Z.eqb_eq in E8.
      assert ((len (removeNonDigits k) =? 14) = false) as -> by lia.
      by rewrite <- app_assoc.
    + destruct (len (removeNonDigits k) =? 14) eqn:E14.
      * specialize (IH bases (fulls ++ [removeNonDigits k])
                      (<[removeNonDigits k := ps]> m)).
        destruct (foldl splitStep _ entries) as [[bases' fulls'] m'].
        destruct IH as [-> ->]. by rewrite <- app_assoc.
      * specialize (IH bases fulls (<[removeNonDigits k := ps]> m)).
        destruct (foldl splitStep _ entries) as [[bases' fulls'] m'].
        exact IH.
Qed.

(** The values of [cnpjToPartners], with the keys they came from. *)
Lemma splitStep_sound entries :
  let '(_, _, cnpjToPartners) := foldl splitStep ([], [], ∅) entries in
  forall c partners,
    cnpjToPartners !! c = Some partners ->
    exists cnpj, (cnpj, partners) ∈ entries /\ removeNonDigits cnpj = c.
Proof.
  apply (foldl_invariant
           (fun acc => let '(_, _, m) := acc in
                       forall c partners, m !! c = Some partners ->
                         exists cnpj, (cnpj, partners) ∈ entries
                                      /\ removeNonDigits cnpj = c)).
  - intros c partners Hlook. by rewrite lookup_empty in Hlook.
  - intros [[bases fulls] m] [cnpj0 partners0] Hin IH. unfold splitStep.
    assert (Hnew : forall c partners,
               <[removeNonDigits cnpj0 := partners0]> m !! c = Some partners ->
               exists cnpj, (cnpj, partners) ∈ entries
                            /\ removeNonDigits cnpj = c).
    { intros c partners Hlook.
      destruct (decide (removeNonDigits cnpj0 = c)) as [<-|Hne].
      - rewrite lookup_insert_eq in Hlook. injection Hlook as <-. eauto.
      - rewrite lookup_insert_ne in Hlook by done. eauto. }
    destruct (len (removeNonDigits cnpj0) =? 8); [exact Hnew|].
    destruct (len (removeNonDigits cnpj0) =? 14); exact Hnew.
Qed.

(** When no two keys clean to the same, every entry is under its cleaned
    key. *)
Lemma splitStep_complete entries bases fulls m :
  NoDup (fst <$> entries) ->
  (forall k1 k2, k1 ∈ (fst <$> entries) -> k2 ∈ (fst <$> entries) ->
     removeNonDigits k1 = removeNonDigits k2 -> k1 = k2) ->
  let '(_, _, cnpjToPartners) := foldl splitStep (bases, fulls, m) entries in
  forall cnpj partners,
    (cnpj, partners) ∈ entries ->
    cnpjToPartners !! removeNonDigits cnpj = Some partners.
Proof.
  revert bases fulls m.
  induction entries as [|[k ps] entries IH]; intros bases fulls m Hnd Hinj.
  - destruct (foldl _ _ _) as [[? ?] ?]. intros ? ? H.
    by apply elem_of_nil in H.
  - cbn [fmap list_fmap fst] in Hnd. apply NoDup_cons in Hnd as [Hk Hnd].
    assert (Hinj' : forall k1 k2, k1 ∈ (fst <$> entries) ->
              k2 ∈ (fst <$> entries) ->
              removeNonDigits k1 = removeNonDigits k2 -> k1 = k2).
    { intros k1 k2 H1 H2. apply Hinj; cbn; by right. }
    assert (Hkeep : forall bases' fulls',
      let '(_, _, m') :=
        foldl splitStep (bases', fulls', <[removeNonDigits k := ps]> m) entries in
      forall cnpj partners, (cnpj, partners) ∈ (k, ps) :: entries ->
        m' !! removeNonDigits cnpj = Some partners).
    { intros bases' fulls'.
      specialize (IH bases' fulls' (<[removeNonDigits k := ps]> m) Hnd Hinj').
      pose proof (foldl_invariant
        (fun acc : list string * list string * gmap string (list PartnerData) =>
           snd acc !! removeNonDigits k = Some ps)
        splitStep entries
        (bases', fulls', <[removeNonDigits k := ps]> m)) as Hstay.
      destruct (foldl splitStep _ entries) as [[b' f'] m'].
      intros cnpj partners [[= -> ->]|Hin]%elem_of_cons; [|by apply IH].
      apply Hstay; [apply lookup_insert_eq|].
      intros [[b0 f0] m0] [k0 ps0] Hin0 Hm0. unfold splitStep. cbn [snd] in *.
      assert (Hne : removeNonDigits k0 <> removeNonDigits k).
      { intros Heq. apply Hk.
        assert (k0 = k) as <-.
        { apply Hinj; [|by left|done]. cbn. right.
          by apply (list_elem_of_fmap_2 fst _ (k0, ps0)). }
        by apply (list_elem_of_fmap_2 fst _ (k0, ps0)). }
      destruct (len (removeNonDigits k0) =? 8);
        [|destruct (len (removeNonDigits k0) =? 14)];
        cbn [snd]; by rewrite lookup_insert_ne. }
    cbn [foldl]. unfold splitStep at 2.
    destruct (len (removeNonDigits k) =? 8); [apply Hkeep|].
    destruct (len (removeNonDigits k) =? 14); apply Hkeep.
Qed.

Lemma appendIDs_elem m rows c id :
  id ∈ default [] (appendIDs m rows !! c) <->
  id ∈ default [] (m !! c) \/ (id, c) ∈ rows.
Proof.
  unfold appendIDs. revert m.
  induction rows as [|[id0 c0] rows IH]; intros m.
  - cbn. split; [by left|]. intros [?|H]; [done|]. by apply elem_of_nil in H.
  - cbn [foldl fst snd]. rewrite IH. unfold appendTo.
    destruct (decide (c0 = c)) as [->|Hne].
    + rewrite lookup_insert_eq. simpl. rewrite elem_of_app.
      rewrite list_elem_of_singleton, elem_of_cons.
      split.
      * intros [[?| ->]|?]; auto.
      * intros [?|[ [= ->]|?] ]; auto.
    + rewrite lookup_insert_ne by done. rewrite elem_of_cons.
      split.
      * intros [?|?]; auto.
      * intros [?|[ [= -> ->]|?] ]; auto. done.
Qed.

Lemma uniqueIDs_fold ids seen acc :
  (forall x, x ∈ seen <-> x ∈ acc) ->
  forall x, x ∈ snd (foldl uniqueStep (seen, acc) ids) <-> x ∈ acc \/ x ∈ ids.
Proof.
  revert seen acc. induction ids as [|id ids IH]; intros seen acc Hseen x.
  - cbn. split; [by left|]. intros [?|H]; [done|]. by apply elem_of_nil in H.
  - cbn [foldl]. unfold uniqueStep at 2.
    destruct (decide (id ∈ seen)) as [Hin|Hnew].
    + rewrite (IH seen acc Hseen). rewrite elem_of_cons.
      split; [intros [?|?]; auto|]. intros [?|[ ->|?]]; auto.
      left. by apply Hseen.
    + rewrite (IH ({[id]} ∪ seen) (acc ++ [id])).
      * rewrite elem_of_app, list_elem_of_singleton, elem_of_cons. tauto.
      * intros y. rewrite elem_of_union, elem_of_singleton, elem_of_app,
          list_elem_of_singleton, Hseen. tauto.
Qed.

Lemma uniqueIDs_elem ids x : x ∈ uniqueIDs ids <-> x ∈ ids.
Proof.
  unfold uniqueIDs. rewrite uniqueIDs_fold.
  - split; [intros [H|?]; [by apply elem_of_nil in H | done] | by right].
  - intros y. split; [intros H; by apply elem_of_empty in H|].
    intros H. by apply elem_of_nil in H.
Qed.

Lemma fillCNPJs_sound m rows id full :
  fillCNPJs m rows !! id = Some full ->
  m !! id = Some full \/ (id, full) ∈ rows.
Proof.
  unfold fillCNPJs. revert m.
  induction rows as [|[id0 c0] rows IH]; intros m; [by left|].
  cbn [foldl fst snd]. intros [H|H]%IH; [|right; by right].
  destruct (decide (id0 = id)) as [->|Hne].
  - rewrite lookup_insert_eq in H. injection H as ->. right. left.
  - rewrite lookup_insert_ne in H by done. by left.
Qed.

Lemma fillCNPJs_complete m rows id full :
  (id, full) ∈ rows ->
  (forall full', (id, full') ∈ rows -> full' = full) ->
  fillCNPJs m rows !! id = Some full.
Proof.
  unfold fillCNPJs. revert m.
  induction rows as [|[id0 c0] rows IH]; intros m Hin Huniq;
    [by apply elem_of_nil in Hin|].
  cbn [foldl fst snd].
  destruct (decide ((id, full) ∈ rows)) as [Hlater|Hnot].
  - apply IH; [done|]. intros full' H. apply Huniq. by right.
  - apply elem_of_cons in Hin as [[= <- <-]|?]; [|done].
    assert (Hstay : forall rows' (m' : gmap Z string),
      (forall full', (id, full') ∈ rows' -> full' = full) ->
      m' !! id = Some full ->
      foldl (fun m row => <[fst row := snd row]> m) m' rows' !! id = Some full).
    { induction rows' as [|[id1 c1] rows' IH']; intros m' Hu Hm'; [done|].
      cbn [foldl fst snd]. apply IH'; [intros; apply Hu; by right|].
      destruct (decide (id1 = id)) as [->|Hne].
      - rewrite lookup_insert_eq. f_equal. apply Hu. left.
      - by rewrite lookup_insert_ne. }
    apply Hstay; [intros; apply Huniq; by right | apply lookup_insert_eq].
Qed.

End Lookups.

(** ** Grouping the partners by venue *)

Section Grouping.
Import PG Spec.

(** A loop establishes for each element what its step establishes, when
    the later steps keep it. *)
Lemma foldl_each {A B} (P : A -> B -> Prop) (f : B -> A -> B) :
  (forall a b x, P a b -> P a (f b x)) ->
  (forall b x, P x (f b x)) ->
  forall l b x, x ∈ l -> P x (foldl f b l).
Proof.
  intros Hmono Hnew. induction l as [|y l IH]; intros b x Hx.
  - by apply elem_of_nil in Hx.
  - cbn [foldl]. apply elem_of_cons in Hx as [->|Hx]; [|by apply IH].
    apply (foldl_invariant (P y)); [apply Hnew|]. intros; by apply Hmono.
Qed.

Lemma groupIDStep_keeps cnpjOf partners0 acc id0 id (ps : list PartnerData) :
  (exists psAll, acc.1.1 !! id = Some psAll /\ forall p, p ∈ ps -> p ∈ psAll) ->
  exists psAll,
    (groupIDStep cnpjOf partners0 acc id0).1.1 !! id = Some psAll
    /\ forall p, p ∈ ps -> p ∈ psAll.
Proof.
  destruct acc as [[tp tf] ws]. unfold groupIDStep. cbn [fst].
  intros (psAll & Hlook & Hsub).
  destruct (cnpjOf !! id0); cbn [fst]; [|eauto].
  unfold appendTo. destruct (decide (id0 = id)) as [->|Hne].
  - rewrite lookup_insert_eq, Hlook. cbn. eexists. split; [done|].
    intros p Hp. apply elem_of_app. left. auto.
  - rewrite lookup_insert_ne by done. eauto.
Qed.

Lemma groupIDStep_adds cnpjOf partners acc id full :
  cnpjOf !! id = Some full ->
  exists psAll,
    (groupIDStep cnpjOf partners acc id).1.1 !! id = Some psAll
    /\ forall p, p ∈ partners -> p ∈ psAll.
Proof.
  intros Hfull. destruct acc as [[tp tf] ws]. unfold groupIDStep.
  rewrite Hfull. cbn [fst]. unfold appendTo. rewrite lookup_insert_eq.
  eexists. split; [done|]. intros p Hp. apply elem_of_app. by right.
Qed.

Lemma groupStep_keeps ids cnpjOf acc entry id (ps : list PartnerData) :
  (exists psAll, acc.1.1 !! id = Some psAll /\ forall p, p ∈ ps -> p ∈ psAll) ->
  exists psAll,
    (groupStep ids cnpjOf acc entry).1.1 !! id = Some psAll
    /\ forall p, p ∈ ps -> p ∈ psAll.
Proof.
  intros Hacc. destruct entry as [c ps0]. unfold groupStep.
  destruct (default [] (ids !! c)) as [|i rest].
  - by destruct acc as [[tp tf] ws].
  - apply (foldl_invariant
             (fun acc => exists psAll, acc.1.1 !! id = Some psAll
                                       /\ forall p, p ∈ ps -> p ∈ psAll));
      [done|].
    intros b x _. apply groupIDStep_keeps.
Qed.

(** Every partner of an entry is grouped under every venue found for the
    entry's key whose national ID was fetched. *)
Lemma groupStep_complete ids cnpjOf entries acc c ps id full :
  (c, ps) ∈ entries -> id ∈ default [] (ids !! c) ->
  cnpjOf !! id = Some full ->
  exists psAll,
    (foldl (groupStep ids cnpjOf) acc entries).1.1 !! id = Some psAll
    /\ forall p, p ∈ ps -> p ∈ psAll.
Proof.
  intros Hin Hid Hfull.
  apply (foldl_each
           (fun (e : string * list PartnerData) acc =>
              id ∈ default [] (ids !! e.1) ->
              exists psAll, acc.1.1 !! id = Some psAll
                            /\ forall p, p ∈ e.2 -> p ∈ psAll)
           (groupStep ids cnpjOf)) with (x := (c, ps)); [| |done|done].
  - intros e b x H Hid'. apply groupStep_keeps. auto.
  - intros b [c' ps'] Hid'. cbn [fst snd] in *. unfold groupStep.
    destruct (default [] (ids !! c')) as [|i rest] eqn:E;
      [by apply elem_of_nil in Hid'|].
    apply (foldl_each
             (fun i acc =>
                i = id ->
                exists psAll, acc.1.1 !! id = Some psAll
                              /\ forall p, p ∈ ps' -> p ∈ psAll)
             (groupIDStep cnpjOf ps')) with (x := id); [| |done|done].
    + intros i0 b0 x H Hi0. apply groupIDStep_keeps. auto.
    + intros b0 x ->. by eapply groupIDStep_adds.
Qed.

(** The partners grouped under a venue come from entries whose key found
    the venue, and the venue's national ID is the fetched one. *)
Lemma groupStep_sound ids cnpjOf entries :
  let '(tp, tf, _) := foldl (groupStep ids cnpjOf) (∅, ∅, []) entries in
  (forall id psAll p,
     tp !! id = Some psAll -> p ∈ psAll ->
     exists c ps, (c, ps) ∈ entries /\ p ∈ ps /\ id ∈ default [] (ids !! c))
  /\ (forall id, is_Some (tp !! id) ->
        exists full, tf !! id = Some full /\ cnpjOf !! id = Some full).
Proof.
  set (I := fun acc : gmap Z (list PartnerData) * gmap Z string * list LogEntry =>
    let '(tp, tf, _) := acc in
    (forall id psAll p,
       tp !! id = Some psAll -> p ∈ psAll ->
       exists c ps, (c, ps) ∈ entries /\ p ∈ ps /\ id ∈ default [] (ids !! c))
    /\ (forall id, is_Some (tp !! id) ->
          exists full, tf !! id = Some full /\ cnpjOf !! id = Some full)).
  apply (foldl_invariant I).
  - split.
    + intros id psAll p H. by rewrite lookup_empty in H.
    + intros id [x H]. by rewrite lookup_empty in H.
  - intros [[tp tf] ws] [c ps0] Hin IH. unfold groupStep.
    destruct (default [] (ids !! c)) as [|i0 rest] eqn:E; [exact IH|].
    rewrite <- E.
    apply (foldl_invariant I); [exact IH|].
    intros [[tp' tf'] ws'] i Hi [IH1 IH2]. unfold groupIDStep.
    destruct (cnpjOf !! i) as [full|] eqn:Hfull; [|by split].
    split.
    + intros id psAll p [[-> ->]|[_ Hold]]%appendTo_lookup Hp.
      * apply elem_of_app in Hp as [Hp|Hp].
        -- destruct (tp' !! i) as [old|] eqn:Hold; cbn in Hp.
           ++ eapply IH1; eauto.
           ++ by apply elem_of_nil in Hp.
        -- by exists c, ps0.
      * eapply IH1; eauto.
    + intros id Hsome. destruct (decide (i = id)) as [->|Hne].
      * exists full. by rewrite lookup_insert_eq.
      * rewrite lookup_insert_ne by done. apply IH2.
        unfold appendTo in Hsome. by rewrite lookup_insert_ne in Hsome.
Qed.

End Grouping.

(** ** What the lookups of [ImportPartnersBatch] find *)

Section Resolution.
Import PG Spec.

Lemma selectBusinessByBase_elem bases d id c :
  (id, c) ∈ selectBusinessByBase bases d <->
  exists b, b ∈ business d /\ b_id b = id /\ LEFT8 (b_cnpj b) = c /\ c ∈ bases.
Proof.
  unfold selectBusinessByBase. rewrite list_elem_of_fmap. split.
  - intros (b & [= -> ->] & [Hin Hb]%list_elem_of_filter). by exists b.
  - intros (b & Hb & <- & <- & Hin). exists b. split; [done|].
    by apply list_elem_of_filter.
Qed.

Lemma selectBusinessByCnpj_elem fulls d id c :
  (id, c) ∈ selectBusinessByCnpj fulls d <->
  exists b, b ∈ business d /\ b_id b = id /\ b_cnpj b = c /\ c ∈ fulls.
Proof.
  unfold selectBusinessByCnpj. rewrite list_elem_of_fmap. split.
  - intros (b & [= -> ->] & [Hin Hb]%list_elem_of_filter). by exists b.
  - intros (b & Hb & <- & <- & Hin). exists b. split; [done|].
    by apply list_elem_of_filter.
Qed.

Lemma selectBusinessById_elem ids d id c :
  (id, c) ∈ selectBusinessById ids d <->
  exists b, b ∈ business d /\ b_id b = id /\ b_cnpj b = c /\ id ∈ ids.
Proof.
  unfold selectBusinessById. rewrite list_elem_of_fmap. split.
  - intros (b & [= -> ->] & [Hin Hb]%list_elem_of_filter). by exists b.
  - intros (b & Hb & <- & <- & Hin). exists b. split; [done|].
    by apply list_elem_of_filter.
Qed.

Lemma filter_none {A} (P : A -> Prop) `{forall x, Decision (P x)} (l : list A) :
  (forall x, ~ P x) -> filter P l = [].
Proof.
  intros Hno. induction l as [|x l IH]; [done|].
  by rewrite filter_cons_False.
Qed.

(** What a lookup that succeeds gives back. *)
Lemma queryBases_inv env baseCNPJs m d m' :
  returned (queryBases env baseCNPJs m d) = Done m' ->
  m' = appendIDs m (selectBusinessByBase baseCNPJs d).
Proof.
  unfold queryBases. destruct baseCNPJs as [|c cs].
  - intros [= <-]. unfold selectBusinessByBase.
    rewrite filter_none; [done|]. intros b Hb. by apply elem_of_nil in Hb.
  - run_simpl. rewrite pool_run_returned.
    destruct (env AtQueryBases); [done|]. by intros [= <-].
Qed.

Lemma queryFull_inv env fullCNPJs m d m' :
  returned (queryFull env fullCNPJs m d) = Done m' ->
  m' = appendIDs m (selectBusinessByCnpj fullCNPJs d).
Proof.
  unfold queryFull. destruct fullCNPJs as [|c cs].
  - intros [= <-]. unfold selectBusinessByCnpj.
    rewrite filter_none; [done|]. intros b Hb. by apply elem_of_nil in Hb.
  - run_simpl. rewrite pool_run_returned.
    destruct (env AtQueryFull); [done|]. by intros [= <-].
Qed.

Lemma queryCNPJs_inv order env m d cnpjOf :
  returned (queryCNPJs order env m d) = Done cnpjOf ->
  cnpjOf = fillCNPJs ∅
             (selectBusinessById
                (uniqueIDs (concat (snd <$> range order m))) d).
Proof.
  unfold queryCNPJs. destruct (decide (m = ∅)) as [->|Hne].
  - intros [= <-]. rewrite (proj2 (range_nil order ∅)) by done.
    unfold selectBusinessById. rewrite filter_none; [done|].
    intros b Hb. by apply elem_of_nil in Hb.
  - destruct (uniqueIDs _) as [|i rest].
    + intros [= <-]. unfold selectBusinessById.
      rewrite filter_none; [done|]. intros b Hb. by apply elem_of_nil in Hb.
    + run_simpl. rewrite pool_run_returned.
      destruct (env AtQueryIds); [done|]. by intros [= <-].
Qed.

(** The statements of the lookups. *)
Lemma queryBases_statements env baseCNPJs m d :
  statements (queryBases env baseCNPJs m d) = baseLookup baseCNPJs.
Proof.
  unfold queryBases, baseLookup. destruct baseCNPJs; [done|]. run_simpl.
  destruct (returned _); run_simpl; by rewrite app_nil_r.
Qed.

Lemma queryFull_statements env fullCNPJs m d :
  statements (queryFull env fullCNPJs m d) = fullLookup fullCNPJs.
Proof.
  unfold queryFull, fullLookup. destruct fullCNPJs; [done|]. run_simpl.
  destruct (returned _); run_simpl; by rewrite app_nil_r.
Qed.

Lemma queryCNPJs_statements order env m d :
  statements (queryCNPJs order env m d) = []
  \/ exists ids, statements (queryCNPJs order env m d) = [SelectBusinessById ids].
Proof.
  unfold queryCNPJs. destruct (decide _); [by left|].
  destruct (uniqueIDs _) as [|i rest]; [by left|]. right. exists (i :: rest).
  run_simpl. destruct (returned _); run_simpl; by rewrite app_nil_r.
Qed.

Lemma importBusiness_statements env businessID fullCNPJ partners d :
  Forall (fun st => isLoopStmt st = true)
    (statements (importBusiness env businessID fullCNPJ partners d)).
Proof.
  unfold importBusiness. run_simpl.
  destruct (env (ForBusiness businessID AtBegin)); run_simpl;
    [by repeat constructor|].
  destruct (partnerRows businessID fullCNPJ partners) as [values warnings].
  run_simpl. destruct values as [|a values]; run_simpl.
  - destruct (env (ForBusiness businessID AtCommit)); run_simpl;
      by repeat constructor.
  - destruct (env (ForBusiness businessID AtInsertPartners)); run_simpl;
      [by repeat constructor|].
    destruct (env (ForBusiness businessID AtCommit)); run_simpl;
      by repeat constructor.
Qed.

Lemma importBusinesses_statements env fullOf todo d :
  Forall (fun st => isLoopStmt st = true)
    (statements (importBusinesses env fullOf todo d)).
Proof.
  revert d. induction todo as [|[businessID partners] todo IH]; intros d;
    [constructor|].
  cbn [importBusinesses]. run_simpl. apply Forall_app. split.
  - apply importBusiness_statements.
  - destruct (returned _); [constructor | apply IH].
Qed.

Lemma lookupsOf_loop stmts :
  Forall (fun st => isLoopStmt st = true) stmts -> lookupsOf stmts = [].
Proof.
  unfold lookupsOf. induction 1 as [|st stmts Hst _ IH]; [done|].
  cbn [List.filter]. rewrite IH. by destruct st.
Qed.

Lemma lookupsOf_app s1 s2 : lookupsOf (s1 ++ s2) = lookupsOf s1 ++ lookupsOf s2.
Proof. apply List.filter_app. Qed.

Lemma lookupsOf_baseLookup bases : lookupsOf (baseLookup bases) = baseLookup bases.
Proof. by destruct bases. Qed.

Lemma lookupsOf_fullLookup fulls : lookupsOf (fullLookup fulls) = fullLookup fulls.
Proof. by destruct fulls. Qed.

End Resolution.

(** ** The partners-only batch as a whole *)

Section PartnersOnly.
Import PG Spec.

Lemma insertSocioRow_prefix d a :
  socios_cnpj d `prefix_of` socios_cnpj (insertSocioRow d a).
Proof.
  unfold insertSocioRow. destruct (decide _); cbn; [done|].
  by apply prefix_app_r.
Qed.

Lemma insertSocios_prefix rows d :
  socios_cnpj d `prefix_of` socios_cnpj (insertSocios rows d).
Proof.
  unfold insertSocios. revert d. induction rows as [|a rows IH]; intros d;
    [done|].
  cbn [foldl]. etrans; [apply insertSocioRow_prefix | apply IH].
Qed.

Lemma Exists_prefix {A} (P : A -> Prop) (l1 l2 : list A) :
  l1 `prefix_of` l2 -> Exists P l1 -> Exists P l2.
Proof. intros [k ->] H. apply Exists_app. by left. Qed.

(** After the insert every proposed row is in the table or was in conflict
    with a row of the table. *)
Lemma insertSocios_has rows d a :
  a ∈ rows -> Exists (sameSocio a) (socios_cnpj (insertSocios rows d)).
Proof.
  unfold insertSocios. revert d. induction rows as [|a0 rows IH]; intros d Ha;
    [by apply elem_of_nil in Ha|].
  cbn [foldl]. apply elem_of_cons in Ha as [->|Ha]; [|by apply IH].
  eapply Exists_prefix; [apply (insertSocios_prefix rows)|].
  unfold insertSocioRow. destruct (decide _) as [Hex|Hnew]; cbn; [done|].
  apply Exists_app. right. apply Exists_cons_hd. by split.
Qed.

(** What holds of the tables and is kept by a partner insert is kept by
    the loop over the venues, and by [ImportPartnersBatch]. *)
Lemma importBusinesses_kept (P : DB -> Prop) env fullOf todo d :
  (forall rows d, P d -> P (insertSocios rows d)) ->
  P d -> P (tables (importBusinesses env fullOf todo d)).
Proof.
  intros Hkeep. revert d.
  induction todo as [|[businessID partners] todo IH]; intros d Hd; [done|].
  cbn [importBusinesses]. run_simpl.
  assert (Hstep : P (tables (importBusiness env businessID
                               (default "" (fullOf !! businessID)) partners d))).
  { destruct (importBusiness_tables env businessID
                (default "" (fullOf !! businessID)) partners d) as [->| ->];
      [done | by apply Hkeep]. }
  destruct (returned (importBusiness _ _ _ _ _)); [done|]. by apply IH.
Qed.

Lemma ImportPartnersBatch_kept (P : DB -> Prop) order env batch d :
  (forall rows d, P d -> P (insertSocios rows d)) ->
  P d -> P (tables (ImportPartnersBatch order env batch d)).
Proof.
  intros Hkeep Hd. unfold ImportPartnersBatch.
  destruct (decide (batch = ∅)); [done|].
  destruct (foldl splitStep _ _) as [[baseCNPJs fullCNPJs] cnpjToPartners].
  run_simpl. rewrite queryBases_tables.
  destruct (returned (queryBases _ _ _ _)) as [ids1|]; [|done].
  run_simpl. rewrite queryFull_tables.
  destruct (returned (queryFull _ _ _ _)) as [ids2|]; [|done].
  run_simpl. rewrite queryCNPJs_tables.
  destruct (returned (queryCNPJs _ _ _ _)) as [cnpjOf|]; [|done].
  destruct (foldl (groupStep _ _) _ _) as [[toPartners toFull] warnings].
  run_simpl. by apply importBusinesses_kept.
Qed.

Lemma importBusinesses_grow_at (R : SocioArgs -> Prop) env fullOf todo d :
  (forall businessID partners,
      (businessID, partners) ∈ todo ->
      Forall R (fst (partnerRows businessID
                       (default "" (fullOf !! businessID)) partners))) ->
  sociosGrow R d (tables (importBusinesses env fullOf todo d)).
Proof.
  revert d. induction todo as [|[businessID partners] todo IH];
    intros d Htodo; [apply sociosGrow_refl|].
  cbn [importBusinesses]. run_simpl.
  assert (Hstep : sociosGrow R d
            (tables (importBusiness env businessID
                       (default "" (fullOf !! businessID)) partners d))).
  { apply importBusiness_grow. apply Htodo. left. }
  destruct (returned (importBusiness _ _ _ _ _)); [done|].
  eapply sociosGrow_trans; [exact Hstep|]. apply IH.
  intros ? ? Hin. apply Htodo. by right.
Qed.

Lemma importBusiness_noFaults env businessID fullCNPJ partners d :
  (forall site, env site = None) ->
  tables (importBusiness env businessID fullCNPJ partners d)
  = insertSocios (omap (partnerRow businessID fullCNPJ) partners) d.
Proof.
  intros Hok. rewrite <- partnerRows_rows.
  unfold importBusiness. run_simpl. rewrite Hok. run_simpl.
  destruct (partnerRows businessID fullCNPJ partners) as [values warnings].
  run_simpl. cbn [fst]. destruct values as [|a values]; run_simpl.
  - by rewrite Hok.
  - rewrite Hok. run_simpl. by rewrite Hok.
Qed.

(** When nothing fails, the loop leaves for every partner of every venue
    a row with the partner's national ID and name. *)
Lemma importBusinesses_complete env fullOf todo d businessID partners p a :
  (forall site, env site = None) ->
  (businessID, partners) ∈ todo -> p ∈ partners ->
  partnerRow businessID (default "" (fullOf !! businessID)) p = Some a ->
  Exists (sameSocio a)
    (socios_cnpj (tables (importBusinesses env fullOf todo d))).
Proof.
  intros Hok Hin Hp Ha. revert d.
  induction todo as [|[id0 ps0] todo IH]; intros d;
    [by apply elem_of_nil in Hin|].
  cbn [importBusinesses]. run_simpl.
  rewrite importBusiness_returned, Hok, importBusiness_noFaults by done.
  apply elem_of_cons in Hin as [[= <- <-]|Hin]; [|by apply IH].
  apply (importBusinesses_kept
           (fun d' => Exists (sameSocio a) (socios_cnpj d'))).
  - intros rows d' Hd'. eapply Exists_prefix; [apply insertSocios_prefix|done].
  - apply insertSocios_has. apply list_elem_of_omap. by exists p.
Qed.

Lemma keysOfLength_elem n order batch c :
  c ∈ keysOfLength n order batch <->
  len c = n /\ exists k, is_Some (batch !! k) /\ removeNonDigits k = c.
Proof.
  unfold keysOfLength. rewrite list_elem_of_In, List.filter_In.
  rewrite <- list_elem_of_In, Z.eqb_eq, list_elem_of_fmap. split.
  - intros [(k & -> & [[k' ps] [-> Hin%range_elem]]%list_elem_of_fmap) Hlen].
    split; [done|]. exists k'. by split; [eexists|].
  - intros [Hlen (k & [ps Hk] & <-)]. split; [|done]. exists k. split; [done|].
    apply list_elem_of_fmap. exists (k, ps). split; [done|]. by apply range_elem.
Qed.

(** The venues under a key after the two lookups: those the key finds. *)
Lemma lookups_find order batch d id c :
  id ∈ default []
         (appendIDs
            (appendIDs ∅ (selectBusinessByBase (keysOfLength 8 order batch) d))
            (selectBusinessByCnpj (keysOfLength 14 order batch) d) !! c) <->
  exists b k, b ∈ business d /\ b_id b = id /\ keyFinds c b
              /\ is_Some (batch !! k) /\ removeNonDigits k = c.
Proof.
  rewrite !appendIDs_elem, lookup_empty.
  rewrite selectBusinessByBase_elem, selectBusinessByCnpj_elem.
  setoid_rewrite keysOfLength_elem. split.
  - intros [[H|(b & Hb & Hid & Hleft & Hlen & k & Hk & Hclean)]
           |(b & Hb & Hid & Hfull & Hlen & k & Hk & Hclean)].
    + by apply elem_of_nil in H.
    + exists b, k. unfold keyFinds. auto 10.
    + exists b, k. unfold keyFinds. auto 10.
  - intros (b & k & Hb & Hid & [[Hlen Hleft]|[Hlen Hfull]] & Hk & Hclean).
    + left. right. exists b. eauto 10.
    + right. exists b. eauto 10.
Qed.

End PartnersOnly.

(** ** The claim about the partners-only path *)

Section PartnersOnlyPath.
Import PG Spec.

(** Every partner row a batch adds was built from a partner of the batch
    for a venue that the partner's key finds. *)
Lemma ImportPartnersBatch_resolved order env batch d :
  NoDup (b_id <$> business d) ->
  sociosGrow (resolvedRow batch d) d
    (tables (ImportPartnersBatch order env batch d)).
Proof.
  intros Hids. unfold ImportPartnersBatch.
  destruct (decide (batch = ∅)); [apply sociosGrow_refl|].
  pose proof (splitStep_sound (range order batch)) as Hsplit.
  pose proof (splitStep_keys (range order batch) [] [] ∅) as Hkeys.
  destruct (foldl splitStep _ _) as [[baseCNPJs fullCNPJs] cnpjToPartners].
  destruct Hkeys as [Hbases Hfulls]. cbn [app] in Hbases, Hfulls.
  fold (keysOfLength 8 order batch) in Hbases.
  fold (keysOfLength 14 order batch) in Hfulls. subst baseCNPJs fullCNPJs.
  run_simpl. rewrite queryBases_tables.
  destruct (returned (queryBases _ _ _ _)) as [ids1|] eqn:E1;
    [|apply sociosGrow_refl].
  apply queryBases_inv in E1. subst ids1.
  run_simpl. rewrite queryFull_tables.
  destruct (returned (queryFull _ _ _ _)) as [ids2|] eqn:E2;
    [|apply sociosGrow_refl].
  apply queryFull_inv in E2.
  run_simpl. rewrite queryCNPJs_tables.
  destruct (returned (queryCNPJs _ _ _ _)) as [cnpjOf|] eqn:E3;
    [|apply sociosGrow_refl].
  apply queryCNPJs_inv in E3.
  pose proof (groupStep_sound ids2 cnpjOf (range order cnpjToPartners))
    as Hgroup.
  destruct (foldl (groupStep _ _) _ _) as [[toPartners toFull] warnings].
  destruct Hgroup as [Hfrom Hfull].
  run_simpl. apply importBusinesses_grow_at.
  intros businessID psAll Hin%range_elem.
  rewrite partnerRows_rows. apply Forall_forall.
  intros a (p & Hp & Ha)%list_elem_of_omap.
  destruct (Hfrom businessID psAll p Hin Hp)
    as (c & ps & Hc%range_elem & Hpps & Hid).
  destruct (Hfull businessID (mk_is_Some _ _ Hin)) as (full & Htf & Hcnpj).
  rewrite Htf in Ha. cbn [default from_option id] in Ha.
  destruct (Hsplit c ps Hc) as (k & Hk%range_elem & Hclean).
  subst ids2. apply lookups_find in Hid as (b & _ & Hb & Hbid & Hfinds & _).
  subst cnpjOf. apply fillCNPJs_sound in Hcnpj as [Hcnpj|Hcnpj];
    [by rewrite lookup_empty in Hcnpj|].
  apply selectBusinessById_elem in Hcnpj as (b' & Hb' & Hbid' & Hfull' & _).
  assert (b' = b) as ->.
  { eapply NoDup_fmap_eq; [exact Hids|done|done|congruence]. }
  exists k, ps, p, b. subst c businessID full. done.
Qed.

Lemma elem_of_concat {A} (x : A) (l : list A) (ls : list (list A)) :
  l ∈ ls -> x ∈ l -> x ∈ concat ls.
Proof.
  intros Hl Hx. induction ls as [|l0 ls IH]; [by apply elem_of_nil in Hl|].
  cbn [concat]. apply elem_of_app.
  apply elem_of_cons in Hl as [->|Hl]; [by left | right; by apply IH].
Qed.

(** When nothing fails and no two keys of the batch clean to the same,
    every partner has a row for every venue its key finds. *)
Lemma ImportPartnersBatch_complete order env batch d k ps p b a :
  (forall site, env site = None) ->
  distinctWhenClean batch ->
  NoDup (b_id <$> business d) ->
  batch !! k = Some ps -> p ∈ ps ->
  b ∈ business d -> keyFinds (removeNonDigits k) b ->
  partnerRow (b_id b) (b_cnpj b) p = Some a ->
  Exists (sameSocio a)
    (socios_cnpj (tables (ImportPartnersBatch order env batch d))).
Proof.
  intros Hok Hclean Hids Hk Hp Hb Hfinds Ha. unfold ImportPartnersBatch.
  destruct (decide (batch = ∅)) as [->|_]; [by rewrite lookup_empty in Hk|].
  pose proof (splitStep_complete (range order batch) [] [] ∅
                (range_NoDup_fst order batch)) as Hsplit.
  pose proof (splitStep_keys (range order batch) [] [] ∅) as Hkeys.
  destruct (foldl splitStep _ _) as [[baseCNPJs fullCNPJs] cnpjToPartners].
  destruct Hkeys as [Hbases Hfulls]. cbn [app] in Hbases, Hfulls.
  fold (keysOfLength 8 order batch) in Hbases.
  fold (keysOfLength 14 order batch) in Hfulls. subst baseCNPJs fullCNPJs.
  assert (Hentry : cnpjToPartners !! removeNonDigits k = Some ps).
  { apply Hsplit; [|by apply range_elem].
    intros k1 k2 [[k1' ps1] [-> H1%range_elem]]%list_elem_of_fmap
                 [[k2' ps2] [-> H2%range_elem]]%list_elem_of_fmap.
    apply Hclean; by eexists. }
  clear Hsplit.
  destruct (queryBases_returned env (keysOfLength 8 order batch) ∅ d
              (Hok _)) as [ids1 E1].
  run_simpl. rewrite queryBases_tables, E1.
  apply queryBases_inv in E1. subst ids1.
  destruct (queryFull_returned env (keysOfLength 14 order batch)
              (appendIDs ∅ (selectBusinessByBase (keysOfLength 8 order batch) d))
              d (Hok _)) as [ids2 E2].
  run_simpl. rewrite queryFull_tables, E2.
  apply queryFull_inv in E2.
  destruct (queryCNPJs_returned order env ids2 d (Hok _)) as [cnpjOf E3].
  run_simpl. rewrite queryCNPJs_tables, E3.
  apply queryCNPJs_inv in E3.
  assert (Hfound : b_id b ∈ default [] (ids2 !! removeNonDigits k)).
  { subst ids2. apply lookups_find. exists b, k.
    do 3 (split; [done|]). split; [by eexists | done]. }
  assert (Hcnpj : cnpjOf !! b_id b = Some (b_cnpj b)).
  { subst cnpjOf. apply fillCNPJs_complete.
    - apply selectBusinessById_elem. exists b. repeat split; [done|].
      apply uniqueIDs_elem.
      destruct (ids2 !! removeNonDigits k) as [found|] eqn:Efound;
        [|by apply elem_of_nil in Hfound].
      apply (elem_of_concat _ found); [|done].
      apply list_elem_of_fmap. exists (removeNonDigits k, found).
      split; [done|]. by apply range_elem.
    - intros full' (b' & Hb' & Hbid' & <- & _)%selectBusinessById_elem.
      f_equal. eapply NoDup_fmap_eq; [exact Hids|done|done|done]. }
  pose proof (groupStep_sound ids2 cnpjOf (range order cnpjToPartners))
    as Hgroup.
  pose proof (groupStep_complete ids2 cnpjOf (range order cnpjToPartners)
                (∅, ∅, []) (removeNonDigits k) ps (b_id b) (b_cnpj b)
                (proj2 (range_elem order cnpjToPartners _ _) Hentry)
                Hfound Hcnpj) as (psAll & HpsAll & Hsub).
  destruct (foldl (groupStep _ _) _ _) as [[toPartners toFull] warnings].
  destruct Hgroup as [_ Hfull]. cbn [fst] in HpsAll.
  destruct (Hfull (b_id b) (mk_is_Some _ _ HpsAll)) as (full & Htf & Hcnpj').
  assert (full = b_cnpj b) as -> by congruence.
  run_simpl.
  apply (importBusinesses_complete env toFull _ d (b_id b) psAll p a Hok).
  - by apply range_elem.
  - by apply Hsub.
  - by rewrite Htf.
Qed.

(** The lookups of a batch: the two by key, then at most one that fetches
    the national IDs of the venues found. *)
Lemma ImportPartnersBatch_lookups order env batch d :
  (exists ids,
     lookupsOf (statements (ImportPartnersBatch order env batch d))
     `prefix_of` keyLookups order batch ++ [SelectBusinessById ids])
  /\ (env AtQueryBases = None -> env AtQueryFull = None ->
      keyLookups order batch
      `prefix_of` lookupsOf (statements (ImportPartnersBatch order env batch d))).
Proof.
  unfold ImportPartnersBatch, keyLookups.
  destruct (decide (batch = ∅)) as [->|_].
  { unfold keysOfLength. rewrite (proj2 (range_nil order ∅)) by done.
    cbn. split; [exists []; apply prefix_nil | done]. }
  pose proof (splitStep_keys (range order batch) [] [] ∅) as Hkeys.
  destruct (foldl splitStep _ _) as [[baseCNPJs fullCNPJs] cnpjToPartners].
  destruct Hkeys as [Hbases Hfulls]. cbn [app] in Hbases, Hfulls.
  fold (keysOfLength 8 order batch) in Hbases.
  fold (keysOfLength 14 order batch) in Hfulls. subst baseCNPJs fullCNPJs.
  set (bases := keysOfLength 8 order batch).
  set (fulls := keysOfLength 14 order batch).
  run_simpl. rewrite queryBases_statements, queryBases_tables.
  rewrite lookupsOf_app, lookupsOf_baseLookup.
  pose proof (queryBases_returned env bases ∅ d) as Hret1.
  destruct (returned (queryBases _ _ _ _)) as [ids1|e1].
  2: { run_simpl. cbn. rewrite app_nil_r. split.
       - exists []. rewrite <- app_assoc. by apply prefix_app_r.
       - intros H1 _. by destruct (Hret1 H1). }
  clear Hret1. run_simpl. rewrite queryFull_statements, queryFull_tables.
  rewrite lookupsOf_app, lookupsOf_fullLookup.
  pose proof (queryFull_returned env fulls ids1 d) as Hret2.
  destruct (returned (queryFull _ _ _ _)) as [ids2|e2].
  2: { run_simpl. cbn. rewrite app_nil_r. split.
       - exists []. by apply prefix_app_r.
       - intros _ H2. by destruct (Hret2 H2). }
  clear Hret2. run_simpl. rewrite queryCNPJs_tables.
  assert (Hrest : lookupsOf
            (match returned (queryCNPJs order env ids2 d) with
             | Done businessIDToCNPJ =>
                 let '(businessIDToPartners, businessIDToFullCNPJ, warnings) :=
                   foldl (groupStep ids2 businessIDToCNPJ) (∅, ∅, [])
                     (range order cnpjToPartners) in
                 slogs warnings ;;
                 importBusinesses env businessIDToFullCNPJ
                   (range order businessIDToPartners)
             | Failed e => ret (Some e)
             end d).(statements) = []).
  { destruct (returned (queryCNPJs _ _ _ _)); [|done].
    destruct (foldl (groupStep _ _) _ _) as [[toPartners toFull] warnings].
    run_simpl. cbn [app]. apply lookupsOf_loop, importBusinesses_statements. }
  rewrite lookupsOf_app, Hrest, app_nil_r. clear Hrest.
  split.
  - destruct (queryCNPJs_statements order env ids2 d) as [->|[ids ->]].
    + exists []. cbn. rewrite app_nil_r. by apply prefix_app_r.
    + exists ids. cbn. by rewrite app_assoc.
  - intros _ _. rewrite app_assoc. by apply prefix_app_r.
Qed.

(** A batch writes nothing but partner rows. *)
Lemma ImportPartnersBatch_writes order env batch d :
  Forall (fun st => isWrite st = true -> isPartnerInsert st = true)
    (statements (ImportPartnersBatch order env batch d)).
Proof.
  unfold ImportPartnersBatch. destruct (decide (batch = ∅)); [constructor|].
  destruct (foldl splitStep _ _) as [[baseCNPJs fullCNPJs] cnpjToPartners].
  run_simpl. apply Forall_app. split.
  { rewrite queryBases_statements. destruct baseCNPJs; by repeat constructor. }
  rewrite queryBases_tables.
  destruct (returned (queryBases _ _ _ _)) as [ids1|]; [|constructor].
  run_simpl. apply Forall_app. split.
  { rewrite queryFull_statements. destruct fullCNPJs; by repeat constructor. }
  rewrite queryFull_tables.
  destruct (returned (queryFull _ _ _ _)) as [ids2|]; [|constructor].
  run_simpl. apply Forall_app. split.
  { destruct (queryCNPJs_statements order env ids2 d) as [->|[ids ->]];
      by repeat constructor. }
  rewrite queryCNPJs_tables.
  destruct (returned (queryCNPJs _ _ _ _)) as [cnpjOf|]; [|constructor].
  destruct (foldl (groupStep _ _) _ _) as [[toPartners toFull] warnings].
  run_simpl. cbn [app].
  eapply Forall_impl; [apply importBusinesses_statements|].
  intros st Hst. by destruct st.
Qed.

End PartnersOnlyPath.

Section PartnersOnlyClaim.
Import PG Spec.

(** C7: in the partners-only path the accepted partner rows are grouped by
    the ID in their first field into batches of at most 5,000 partners, each
    batch before the last one of exactly 5,000.  For a batch,
    [ImportPartnersBatch] sends one lookup by the first 8 digits of the
    stored national ID for the keys of 8 digits and one exact lookup for the
    keys of 14 digits, then at most one lookup that fetches the national IDs
    of the venues found, and it writes nothing but partner rows, with [ON
    CONFLICT (cnpj, nome_socio) DO NOTHING]: the venues and the partner rows
    already in the tables stay as they are, every row added was built from a
    partner of the batch for a venue that the partner's key finds, and, when
    no call fails and no two keys of the batch are the same once cleaned,
    every partner whose tax ID has at most 11 digits has afterwards a row
    with its name for every venue its key finds. *)
Theorem C7_partner_batches_are_resolved_by_two_lookups_and_inserted
    {lookups : Type}
    (newPartnerData : lookups -> list string -> outcome PartnerData)
    (l : lookups) (rows : list (list string))
    (order : MapOrder) (env : Env)
    (batch : gmap string (list PartnerData)) (d : DB) :
  batch ∈ partnerBatches lookups newPartnerData l rows ->
  NoDup (b_id <$> business d) ->
  let batches := partnerBatches lookups newPartnerData l rows in
  let r := ImportPartnersBatch order env batch d in
  ((1 <= partnersIn batch <= 5000)%nat
   /\ (forall i b, batches !! i = Some b -> (S i < length batches)%nat ->
         partnersIn b = 5000%nat)
   /\ (forall k ps p, batch !! k = Some ps -> p ∈ ps ->
         exists row, row ∈ rows
                     /\ accepted newPartnerData l row = Some (k, p))
   /\ sum_list_with partnersIn batches
      = length (omap (accepted newPartnerData l) rows))
  /\ ((exists ids,
         lookupsOf (statements r)
         `prefix_of` keyLookups order batch ++ [SelectBusinessById ids])
      /\ (env AtQueryBases = None -> env AtQueryFull = None ->
          keyLookups order batch `prefix_of` lookupsOf (statements r)))
  /\ Forall (fun st => isWrite st = true -> isPartnerInsert st = true)
       (statements r)
  /\ business (tables r) = business d
  /\ socios_cnpj d `prefix_of` socios_cnpj (tables r)
  /\ sociosGrow (resolvedRow batch d) d (tables r)
  /\ ((forall site, env site = None) -> distinctWhenClean batch ->
      forall k ps p b a,
        batch !! k = Some ps -> p ∈ ps ->
        b ∈ business d -> keyFinds (removeNonDigits k) b ->
        partnerRow (b_id b) (b_cnpj b) p = Some a ->
        Exists (sameSocio a) (socios_cnpj (tables r))).
Proof.
  intros Hbatch Hids batches r.
  destruct (partnerBatches_shape lookups newPartnerData l rows)
    as (Hsizes & Hfull & Hfrom & Htotal).
  split; [|split; [|split; [|split; [|split; [|split]]]]].
  - split; [|split; [|split]].
    + eapply Forall_forall in Hsizes; [exact Hsizes | exact Hbatch].
    + exact Hfull.
    + intros k ps p. by apply Hfrom.
    + exact Htotal.
  - apply ImportPartnersBatch_lookups.
  - apply ImportPartnersBatch_writes.
  - apply (ImportPartnersBatch_kept (fun d' => business d' = business d));
      [|done].
    intros rows' d' Hd'. by rewrite insertSocios_business.
  - apply (ImportPartnersBatch_kept
             (fun d' => socios_cnpj d `prefix_of` socios_cnpj d')); [|done].
    intros rows' d' Hd'. etrans; [exact Hd' | apply insertSocios_prefix].
  - by apply ImportPartnersBatch_resolved.
  - intros Hok Hclean k ps p b a. by apply ImportPartnersBatch_complete.
Qed.

Lemma C7_witness :
  Sample.aliceBatch ∈ partnerBatches unit Sample.decode tt [Sample.aliceFields]
  /\ NoDup (b_id <$> business Sample.oneVenue)
  /\ Exists (sameSocio Sample.aliceArgs)
       (socios_cnpj
          (tables (ImportPartnersBatch sortedOrder noFaults Sample.aliceBatch
                     Sample.oneVenue))).
Proof.
  assert (Hbatch : Sample.aliceBatch
                   ∈ partnerBatches unit Sample.decode tt [Sample.aliceFields]).
  { vm_compute. left. }
  assert (Hids : NoDup (b_id <$> business Sample.oneVenue)).
  { vm_compute. apply NoDup_singleton. }
  split; [exact Hbatch|]. split; [exact Hids|].
  destruct (C7_partner_batches_are_resolved_by_two_lookups_and_inserted
              Sample.decode tt [Sample.aliceFields] sortedOrder noFaults
              Sample.aliceBatch Sample.oneVenue Hbatch Hids)
    as (_ & _ & _ & _ & _ & _ & Hall).
  apply (Hall (fun _ => eq_refl)) with
    (k := "12345678") (ps := [Sample.partner "ALICE" "***123456**"])
    (p := Sample.partner "ALICE" "***123456**") (b := Sample.acmeRow).
  - unfold distinctWhenClean, Sample.aliceBatch.
    intros k1 k2 [x1 [<- _]%lookup_singleton_Some]
                 [x2 [<- _]%lookup_singleton_Some] _.
    reflexivity.
  - unfold Sample.aliceBatch. apply lookup_singleton_Some. by split.
  - left.
  - vm_compute. left.
  - left. split; vm_compute; reflexivity.
  - vm_compute. reflexivity.
Defined.

End PartnersOnlyClaim.

(** ** The string helpers of the writers *)

Section StringHelpers.
Import PG Spec.


Lemma removeNonDigits_digits (s : string) :
  Forall (fun c => isDigit c = true)
    (list_ascii_of_string (removeNonDigits s)).
Proof.
  induction s as [|c s IH]; [constructor|].
  cbn [removeNonDigits]. destruct (isDigit c) eqn:E; [|exact IH].
  cbn [list_ascii_of_string]. by constructor.
Qed.




Lemma truncateString_len (s : string) (maxLen : Z) :
  0 < maxLen -> len (truncateString s maxLen) = Z.min (len s) maxLen.
Proof.
  intros Hpos. unfold truncateString.
  destruct (maxLen <=? 0) eqn:E0; [lia|].
  destruct (len s <=? maxLen) eqn:E1; [lia|].
  apply Z.leb_gt in E1.
  destruct (maxLen <=? 3) eqn:E3.
  - rewrite len_prefix by lia. lia.
  - apply Z.leb_gt in E3. rewrite len_append, len_prefix by lia.
    change (len "...") with 3. lia.
Qed.

(** X2: for a positive limit, [truncateString] gives a string of
    [min(len(s), maxLen)] bytes: the argument itself when it fits, its first
    [maxLen] bytes when the limit is at most 3, and otherwise its first
    [maxLen - 3] bytes followed by three dots. *)
Theorem X2_truncateString_fits_the_limit (s : string) (maxLen : Z) :
  0 < maxLen ->
  len (truncateString s maxLen) = Z.min (len s) maxLen
  /\ (len s <= maxLen -> truncateString s maxLen = s)
  /\ (maxLen < len s -> maxLen <= 3 ->
      truncateString s maxLen = prefix maxLen s)
  /\ (maxLen < len s -> 3 < maxLen ->
      truncateString s maxLen = prefix (maxLen - 3) s +:+ "...").
Proof.
  intros Hpos. split; [by apply truncateString_len|].
  unfold truncateString.
  destruct (maxLen <=? 0) eqn:E0; [lia|].
  destruct (len s <=? maxLen) eqn:E1.
  { apply Z.leb_le in E1. repeat split; intros; (done || lia). }
  apply Z.leb_gt in E1.
  destruct (maxLen <=? 3) eqn:E3.
  - apply Z.leb_le in E3. repeat split; intros; (done || lia).
  - apply Z.leb_gt in E3. repeat split; intros; (done || lia).
Qed.

Lemma X2_witness :
  0 < 5
  /\ len (truncateString "ABCDEFGHIJ" 5) = Z.min (len "ABCDEFGHIJ") 5
  /\ truncateString "ABCDEFGHIJ" 5 = "AB...".
Proof.
  split; [lia|].
  destruct (X2_truncateString_fits_the_limit "ABCDEFGHIJ" 5 ltac:(lia))
    as (Hlen & _ & _ & Hcut).
  split; [exact Hlen|]. rewrite Hcut; [reflexivity | vm_compute; reflexivity | lia].
Defined.

(** X3: truncating twice with the same limit is truncating once, and a
    limit of zero or less cuts nothing, however long the string. *)
Theorem X3_truncateString_is_idempotent (s : string) (maxLen : Z) :
  truncateString (truncateString s maxLen) maxLen = truncateString s maxLen
  /\ (maxLen <= 0 -> truncateString s maxLen = s).
Proof.
  split.
  - destruct (Z_lt_le_dec 0 maxLen) as [Hpos|Hneg].
    + pose proof (truncateString_len s maxLen Hpos) as Hlen.
      unfold truncateString at 1.
      destruct (maxLen <=? 0) eqn:E0; [done|].
      destruct (len (truncateString s maxLen) <=? maxLen) eqn:E1; [done|].
      apply Z.leb_gt in E1. lia.
    + unfold truncateString.
      assert ((maxLen <=? 0) = true) as -> by lia. done.
  - intros Hneg. unfold truncateString.
    by assert ((maxLen <=? 0) = true) as -> by lia.
Qed.

Lemma strings_Join_two (a b sep : string) :
  strings_Join [a; b] sep = a +:+ sep +:+ b.
Proof. reflexivity. Qed.

Lemma append_empty (a b : string) : a +:+ b = "" -> a = "" /\ b = "".
Proof. destruct a; [done|]. discriminate. Qed.

(** X4: [formatPhones] joins with commas the numbers that are not empty
    among the first telephone, the second telephone and the fax, in that
    order; the result is empty exactly when the three are. *)
Theorem X4_formatPhones_joins_the_numbers_given (company : Company) :
  formatPhones company
  = strings_Join
      (List.filter (fun p => negb (String.eqb p ""))
         [Telefone1 company; Telefone2 company; Fax company]) ","
  /\ (formatPhones company = "" <->
      Telefone1 company = "" /\ Telefone2 company = "" /\ Fax company = "").
Proof.
  unfold formatPhones. cbn [List.filter].
  destruct (String.eqb_spec (Telefone1 company) "") as [->|H1];
    destruct (String.eqb_spec (Telefone2 company) "") as [->|H2];
    destruct (String.eqb_spec (Fax company) "") as [->|H3];
    cbn [negb app]; (split; [reflexivity|]).
  all: unfold strings_Join; cbn [String.concat].
  all: split; [|by intros (? & ? & ?)].
  all: try done.
  all: intros H; repeat (apply append_empty in H as [? H]); try done.
Qed.

End StringHelpers.

(** ** The stager: items, chunks and the store *)

Section Stager.
Import Bytes KV Spec.

Variable lookups : Type.
Variables loadPartnerRow loadBaseRow loadSimpleTaxesRow loadTaxRow :
  lookups -> list string -> result string.

Let newItem :=
  newKVItem lookups loadPartnerRow loadBaseRow loadSimpleTaxesRow loadTaxRow.

(** The decoder [newKVItem] uses for a kind. *)
Let loaderOf (s : sourceType) : lookups -> list string -> result string :=
  match s with
  | partners => loadPartnerRow
  | base => loadBaseRow
  | simpleTaxes => loadSimpleTaxesRow
  | _ => loadTaxRow
  end.

(** X5: [newKVItem] on the rows it cannot stage.  A kind outside the seven
    known ones gives an error, whatever the row; for a known kind a row too
    short to hold the ID field (no field at all, or a single field for the
    tax regimes) makes it panic with an index out of range before any
    decoder runs; and when the row has its ID field the outcome is the
    decoder's: its error wrapped, its panic passed on, or an item of that
    kind carrying the decoded value. *)
Theorem X5_newKVItem_on_rows_it_cannot_stage
    (s : sourceType) (l : lookups) (r : list string) :
  (forall name, s = otherSource name ->
     newItem s l r = Err ("unknown source type " +:+ name))
  /\ ((forall name, s <> otherSource name) -> idField s r = None ->
      newItem s l r = Panic "index out of range")
  /\ (forall id, idField s r = Some id ->
      match loaderOf s l r with
      | Ok v =>
          exists i, newItem s l r = Ok i /\ kind i = s /\ value i = v
                    /\ key i = if isAccumulative s
                               then keyOf s id +:+ ":" +:+ checksumFor r
                               else keyOf s id
      | Err e => newItem s l r = Err ("error loading value from source: " +:+ e)
      | Panic e => newItem s l r = Panic e
      end).
Proof.
  unfold newItem, newKVItem, keyAndLoader, index, loaderOf.
  split; [by intros name ->|]. split.
  - intros Hknown Hid. destruct s; cbn [idField] in Hid; rewrite ?Hid;
      try reflexivity.
    by destruct (Hknown name).
  - intros id Hid. destruct s; cbn [idField] in Hid; try discriminate Hid;
      rewrite Hid; cbn [isAccumulative keyOf].
    all: case_match; try reflexivity.
    all: eexists; split; [reflexivity|]; by cbn.
Qed.

Lemma length_hex_EncodeToString (bs : list Z) :
  String.length (hex_EncodeToString bs) = (2 * length bs)%nat.
Proof.
  induction bs as [|b bs IH]; [reflexivity|].
  cbn [hex_EncodeToString String.length length]. rewrite IH. lia.
Qed.

Lemma length_of_string (s : string) :
  length (of_string s) = String.length s.
Proof.
  unfold of_string. induction s as [|c s IH]; [reflexivity|].
  cbn. by rewrite IH.
Qed.

(** X6: the checksum suffix of a key is not of a fixed size: it has two
    hexadecimal characters for every byte of the concatenated row, and 32
    more. *)
Theorem X6_checksumFor_grows_with_the_row (r : list string) :
  String.length (checksumFor r)
  = (2 * String.length (strings_Join r "") + 32)%nat.
Proof.
  rewrite checksumFor_unfold, length_append, length_hex_EncodeToString,
    length_of_string.
  reflexivity.
Qed.

Lemma loadChunk_app st items1 items2 :
  loadChunk st (items1 ++ items2) = loadChunk (loadChunk st items1) items2.
Proof. apply foldl_app. Qed.

(** X7: after a [loadChunk] in which no [Set] fails, a key holds the
    value of the last item of the chunk with that key, and what it held
    before when the chunk has no such item. *)
Theorem X7_loadChunk_last_write_wins
    (st : gmap string string) (items : list item) (k : string) :
  loadChunk st items !! k
  = match last (filter (fun i => key i = k) items) with
    | Some i => Some (value i)
    | None => st !! k
    end.
Proof.
  induction items as [|i items IH] using rev_ind; [reflexivity|].
  rewrite loadChunk_app, filter_app. cbn [loadChunk foldl]. unfold txSet at 1.
  rewrite filter_cons, filter_nil.
  destruct (decide (key i = k)) as [<-|Hne].
  - by rewrite lookup_insert_eq, last_snoc.
  - by rewrite lookup_insert_ne, app_nil_r.
Qed.

End Stager.

(** ** The chunks of a source *)

Section SourceChunks.
Import Bytes KV Spec.

Variable lookups : Type.
Variables loadPartnerRow loadBaseRow loadSimpleTaxesRow loadTaxRow :
  lookups -> list string -> result string.

Let newItem :=
  newKVItem lookups loadPartnerRow loadBaseRow loadSimpleTaxesRow loadTaxRow.
Let step :=
  chunkStep lookups loadPartnerRow loadBaseRow loadSimpleTaxesRow loadTaxRow.
Let loop :=
  chunkLoop lookups loadPartnerRow loadBaseRow loadSimpleTaxesRow loadTaxRow.
Let chunksOf :=
  sourceChunks lookups loadPartnerRow loadBaseRow loadSimpleTaxesRow loadTaxRow.

(** What the loop keeps: the pending chunk is not full, the chunks sent
    are. *)
Lemma chunkLoop_ok s l rows st st' :
  (length (chunk st) < 1000)%nat ->
  Forall (fun c => length c = 1000%nat) (sentChunks st) ->
  loop s l st rows = Ok st' ->
  (length (chunk st') < 1000)%nat
  /\ Forall (fun c => length c = 1000%nat) (sentChunks st')
  /\ exists items,
       Forall2 (fun r i => newItem s l r = Ok i) rows items
       /\ concat (sentChunks st') ++ chunk st'
          = (concat (sentChunks st) ++ chunk st) ++ items.
Proof.
  revert st. induction rows as [|r rows IH]; intros st Hlen Hsent Hloop.
  - injection Hloop as <-. split; [done|]. split; [done|].
    exists []. split; [constructor | by rewrite app_nil_r].
  - cbn [loop chunkLoop] in Hloop. fold loop in Hloop.
    unfold chunkStep in Hloop. fold newItem in Hloop.
    destruct (newItem s l r) as [i| |] eqn:Hi; try discriminate Hloop.
    cbn zeta in Hloop. unfold kvChunkSize in Hloop.
    destruct (1000 <=? Z.of_nat (length (chunk st ++ [i]))) eqn:Efull.
    + apply Z.leb_le in Efull. rewrite length_app in Efull. cbn in Efull.
      apply IH in Hloop as (Hlen' & Hsent' & items & Hitems & Hcat); cbn.
      * split; [done|]. split; [done|]. exists (i :: items).
        split; [by constructor|]. rewrite Hcat. cbn.
        rewrite concat_app. cbn. by rewrite !app_nil_r, <- !app_assoc.
      * lia.
      * apply Forall_app. split; [done|]. apply Forall_singleton.
        rewrite length_app. cbn. lia.
    + apply Z.leb_gt in Efull. rewrite length_app in Efull. cbn in Efull.
      apply IH in Hloop as (Hlen' & Hsent' & items & Hitems & Hcat); cbn.
      * split; [done|]. split; [done|]. exists (i :: items).
        split; [by constructor|]. rewrite Hcat. cbn.
        by rewrite <- !app_assoc.
      * rewrite length_app. cbn. lia.
      * done.
Qed.

Lemma chunkLoop_total s l rows st :
  Forall (fun r => exists i, newItem s l r = Ok i) rows ->
  exists st', loop s l st rows = Ok st'.
Proof.
  revert st. induction rows as [|r rows IH]; intros st Hrows; [by eexists|].
  apply Forall_cons in Hrows as [[i Hi] Hrows].
  cbn [loop chunkLoop]. fold loop. unfold chunkStep. fold newItem.
  rewrite Hi. cbn zeta. destruct (kvChunkSize <=? _); by apply IH.
Qed.

Lemma chunkLoop_fails s l rows st e :
  loop s l st rows = Err e ->
  exists r e', r ∈ rows /\ newItem s l r = Err e'
               /\ e = "error creating item: " +:+ e'.
Proof.
  revert st. induction rows as [|r rows IH]; intros st Hloop; [done|].
  cbn [loop chunkLoop] in Hloop. fold loop in Hloop.
  unfold chunkStep in Hloop. fold newItem in Hloop.
  destruct (newItem s l r) as [i|e'|] eqn:Hi; try discriminate Hloop.
  - cbn zeta in Hloop.
    destruct (kvChunkSize <=? _); apply IH in Hloop as (r' & e' & ? & ? & ?);
      exists r', e'; (split; [by right | done]).
  - injection Hloop as <-. exists r, e'. split; [left | done].
Qed.

(** X8: the chunks [loadSource] hands to the workers, when every row of
    the source gives an item: they hold the items of the rows, in the order
    of the rows; every chunk has between 1 and 1,000 items and every chunk
    before the last exactly 1,000. *)
Theorem X8_sourceChunks_hold_the_items_in_order
    (s : sourceType) (l : lookups) (rows : list (list string)) :
  Forall (fun r => exists i, newItem s l r = Ok i) rows ->
  exists chunks,
    chunksOf s l rows = Ok chunks
    /\ Forall2 (fun r i => newItem s l r = Ok i) rows (concat chunks)
    /\ Forall (fun c => (1 <= length c <= 1000)%nat) chunks
    /\ (forall n c, chunks !! n = Some c -> (S n < length chunks)%nat ->
          length c = 1000%nat).
Proof.
  intros Hrows. unfold chunksOf, sourceChunks.
  destruct (chunkLoop_total s l rows {| chunk := []; sentChunks := [] |} Hrows)
    as [st Hst].
  unfold loop in Hst. rewrite Hst. fold loop in Hst.
  apply chunkLoop_ok in Hst as (Hlen & Hsent & items & Hitems & Hcat);
    [|cbn; lia|constructor].
  cbn in Hcat. subst items.
  destruct (chunk st) as [|i pending] eqn:Hpending.
  - exists (sentChunks st). split; [done|]. rewrite app_nil_r in Hitems.
    split; [done|]. split.
    + eapply Forall_impl; [exact Hsent|]. cbn. intros c ->. lia.
    + intros n c Hn _. eapply Forall_forall in Hsent; [exact Hsent|].
      by eapply list_elem_of_lookup_2.
  - exists (sentChunks st ++ [i :: pending]). split; [done|].
    split; [by rewrite concat_app; cbn; rewrite app_nil_r|]. split.
    + apply Forall_app. split.
      * eapply Forall_impl; [exact Hsent|]. cbn. intros c ->. lia.
      * apply Forall_singleton. cbn in *. lia.
    + intros n c Hn Hlast. rewrite length_app in Hlast. cbn in Hlast.
      rewrite lookup_app_l in Hn by lia.
      eapply Forall_forall in Hsent; [exact Hsent|].
      by eapply list_elem_of_lookup_2.
Qed.

(** X9: a row that gives no item stops the source: an error that
    [loadSource]'s chunk loop returns is the error [newKVItem] gave for a
    row of the source, under "error creating item". *)
Theorem X9_sourceChunks_fail_on_a_row_that_gives_no_item
    (s : sourceType) (l : lookups) (rows : list (list string)) (e : string) :
  chunksOf s l rows = Err e ->
  exists r e', r ∈ rows /\ newItem s l r = Err e'
               /\ e = "error creating item: " +:+ e'.
Proof.
  unfold chunksOf, sourceChunks. intros H.
  apply (chunkLoop_fails s l rows {| chunk := []; sentChunks := [] |}).
  unfold loop.
  destruct (chunkLoop _ _ _ _ _ _ _ _ _) as [st| |];
    [destruct (chunk st)|..]; congruence.
Qed.

Lemma loadChunk_swap st (x y : item) :
  key x <> key y -> txSet (txSet st x) y = txSet (txSet st y) x.
Proof. intros Hne. unfold txSet. by apply insert_insert_ne. Qed.

Lemma loadChunk_Permutation st items items' :
  items ≡ₚ items' -> NoDup (key <$> items) ->
  loadChunk st items = loadChunk st items'.
Proof.
  intros Hperm. revert st.
  induction Hperm as [|x l1 l2 Hperm IH|x y l1|l1 l2 l3 H12 IH12 H23 IH23];
    intros st Hnd.
  - done.
  - cbn [loadChunk foldl]. apply IH.
    cbn in Hnd. by apply NoDup_cons in Hnd as [_ Hnd].
  - cbn [loadChunk foldl]. f_equal. apply loadChunk_swap.
    cbn in Hnd. apply NoDup_cons in Hnd as [Hy _].
    intros Heq. apply Hy. rewrite Heq. left.
  - rewrite IH12 by done. apply IH23. by rewrite <- H12.
Qed.

Lemma loadChunk_concat st chunks :
  foldl loadChunk st chunks = loadChunk st (concat chunks).
Proof.
  revert st. induction chunks as [|c chunks IH]; intros st; [done|].
  cbn [foldl concat]. by rewrite IH, loadChunk_app.
Qed.

Lemma concat_Permutation {A} (ls ls' : list (list A)) :
  ls ≡ₚ ls' -> concat ls ≡ₚ concat ls'.
Proof.
  induction 1 as [|x l1 l2 _ IH|x y l1|l1 l2 l3 _ IH12 _ IH23]; cbn.
  - done.
  - by rewrite IH.
  - rewrite !app_assoc. f_equiv. apply Permutation_app_comm.
  - by rewrite IH12.
Qed.

(** X10: when no two items have the same key, the store does not depend on
    the order in which the workers load the chunks: loading them in any
    order gives what loading all the items in one chunk gives. *)
Theorem X10_chunks_with_distinct_keys_load_in_any_order
    (st : gmap string string) (chunks loaded : list (list item)) :
  NoDup (key <$> concat chunks) ->
  loaded ≡ₚ chunks ->
  foldl loadChunk st loaded = loadChunk st (concat chunks).
Proof.
  intros Hnd Hperm. rewrite loadChunk_concat. symmetry.
  apply loadChunk_Permutation; [|done].
  apply concat_Permutation. by symmetry.
Qed.

End SourceChunks.

Section SourceChunksWitnesses.
Import Bytes KV Spec.

Lemma X8_witness :
  exists chunks,
    sourceChunks unit rawLoader rawLoader rawLoader rawLoader base tt
      [["12345678"; "ACME"]; ["87654321"; "EMCA"]] = Ok chunks
    /\ length (concat chunks) = 2%nat.
Proof.
  destruct (X8_sourceChunks_hold_the_items_in_order unit
              rawLoader rawLoader rawLoader rawLoader base tt
              [["12345678"; "ACME"]; ["87654321"; "EMCA"]])
    as (chunks & Hchunks & Hitems & _).
  - repeat constructor; by eexists.
  - exists chunks. split; [exact Hchunks|].
    by rewrite <- (Forall2_length _ _ _ Hitems).
Defined.

Lemma X9_witness :
  exists r e',
    r ∈ [["12345678"; "ACME"]]
    /\ newKVItem unit rawLoader rawLoader rawLoader rawLoader
         (otherSource "other") tt r = Err e'
    /\ "error creating item: unknown source type other"
       = "error creating item: " +:+ e'.
Proof.
  apply (X9_sourceChunks_fail_on_a_row_that_gives_no_item unit
           rawLoader rawLoader rawLoader rawLoader (otherSource "other") tt
           [["12345678"; "ACME"]]).
  reflexivity.
Defined.

Lemma X10_witness :
  foldl loadChunk ∅
    [[{| key := "base:2"; value := "B"; kind := base |}];
     [{| key := "base:1"; value := "A"; kind := base |}]]
  = loadChunk ∅
      (concat [[{| key := "base:1"; value := "A"; kind := base |}];
               [{| key := "base:2"; value := "B"; kind := base |}]]).
Proof.
  apply X10_chunks_with_distinct_keys_load_in_any_order.
  - cbn. apply NoDup_cons. split; [|apply NoDup_singleton].
    by intros [=]%list_elem_of_singleton.
  - apply Permutation_swap.
Defined.

End SourceChunksWitnesses.

(** ** The partner rows of the venue writer *)

Section VenuePartners.
Import PG Spec.

Lemma insertBusinessRow_socios now acc a :
  socios_cnpj (fst (insertBusinessRow now acc a)) = socios_cnpj (fst acc).
Proof.
  destruct acc as [d returning]. unfold insertBusinessRow.
  by destruct (decide _).
Qed.

Lemma insertBusiness_socios now rows d :
  socios_cnpj (fst (insertBusiness now rows d)) = socios_cnpj d.
Proof.
  unfold insertBusiness.
  apply (foldl_invariant
           (fun acc => socios_cnpj (fst acc) = socios_cnpj d)); [done|].
  intros acc a _ IH. by rewrite insertBusinessRow_socios.
Qed.

(** The rows the venue insert returns are rows of the table after it, with
    ids drawn from the sequence; the other rows of the table were there. *)
Lemma insertBusiness_ids_fold now rows d returning :
  let acc := foldl (insertBusinessRow now) (d, returning) rows in
  business_seq d <= business_seq (fst acc)
  /\ (forall b, b ∈ business (fst acc) ->
        b ∈ business d \/ business_seq d <= b_id b)
  /\ (forall id c, (id, c) ∈ snd acc ->
        (id, c) ∈ returning
        \/ (business_seq d <= id
            /\ exists b, b ∈ business (fst acc) /\ b_id b = id /\ b_cnpj b = c)).
Proof.
  revert d returning. induction rows as [|a rows IH]; intros d returning.
  - cbn. split; [lia|]. split; [by left|]. by left.
  - cbv zeta. cbn [foldl].
    assert (Hstep : insertBusinessRow now (d, returning) a
              = if decide (a_cnpj a ∈ b_cnpj <$> business d)
                then (withBusiness (business d) (business_seq d + 1) d,
                      returning)
                else (withBusiness
                        (business d
                         ++ [{| b_id := business_seq d; b_cols := a;
                                b_created_at := now; b_updated_at := now |}])
                        (business_seq d + 1) d,
                      returning ++ [(business_seq d, a_cnpj a)]))
      by reflexivity.
    rewrite Hstep. clear Hstep.
    destruct (decide (a_cnpj a ∈ b_cnpj <$> business d)) as [Hin|Hnew].
    + specialize (IH (withBusiness (business d) (business_seq d + 1) d)
                    returning).
      cbn zeta in IH. cbn [business business_seq withBusiness] in IH.
      destruct IH as (Hseq & Hrows & Hret). cbn zeta.
      split; [lia|]. split.
      * intros b [?|?]%Hrows; [by left | right; lia].
      * intros id c [?|[? ?]]%Hret; [by left | right; split; [lia|done]].
    + set (row := {| b_id := business_seq d; b_cols := a;
                     b_created_at := now; b_updated_at := now |}).
      pose proof (insertBusiness_fold now rows
                    (withBusiness (business d ++ [row]) (business_seq d + 1) d)
                    (returning ++ [(business_seq d, a_cnpj a)]))
        as (new & Heq & _).
      specialize (IH (withBusiness (business d ++ [row]) (business_seq d + 1) d)
                    (returning ++ [(business_seq d, a_cnpj a)])).
      cbn zeta in IH. cbn [business business_seq withBusiness] in IH, Heq.
      destruct IH as (Hseq & Hrows & Hret). cbn zeta.
      split; [lia|]. split.
      * intros b [[?| ->%list_elem_of_singleton]%elem_of_app|?]%Hrows.
        -- by left.
        -- right. cbn. lia.
        -- right. lia.
      * intros id c [[?|[= -> ->]%list_elem_of_singleton]%elem_of_app|[? ?]]%Hret.
        -- by left.
        -- right. split; [lia|]. exists row. split; [|done].
           rewrite Heq. apply elem_of_app. left. apply elem_of_app. right.
           left.
        -- right. split; [lia|done].
Qed.

Lemma insertBusiness_ids now rows d :
  (forall b, b ∈ business (fst (insertBusiness now rows d)) ->
     b ∈ business d \/ business_seq d <= b_id b)
  /\ (forall id c, (id, c) ∈ snd (insertBusiness now rows d) ->
        business_seq d <= id
        /\ exists b, b ∈ business (fst (insertBusiness now rows d))
                     /\ b_id b = id /\ b_cnpj b = c).
Proof.
  destruct (insertBusiness_ids_fold now rows d []) as (_ & Hrows & Hret).
  split; [exact Hrows|].
  intros id c [H|H]%Hret; [by apply elem_of_nil in H | done].
Qed.

Lemma fillIDs_sound m rows c id :
  fillIDs m rows !! c = Some id -> m !! c = Some id \/ (id, c) ∈ rows.
Proof.
  unfold fillIDs. revert m.
  induction rows as [|[id0 c0] rows IH]; intros m; [by left|].
  cbn [foldl fst snd]. intros [H|H]%IH; [|right; by right].
  destruct (decide (c0 = c)) as [->|Hne].
  - rewrite lookup_insert_eq in H. injection H as ->. right. left.
  - rewrite lookup_insert_ne in H by done. by left.
Qed.

Lemma fillIDs_other m rows c :
  c ∉ (snd <$> rows) -> fillIDs m rows !! c = m !! c.
Proof.
  unfold fillIDs. revert m.
  induction rows as [|[id0 c0] rows IH]; intros m Hc; [done|].
  cbn [foldl fst snd]. cbn in Hc. apply not_elem_of_cons in Hc as [Hne Hc].
  rewrite IH by done. by rewrite lookup_insert_ne.
Qed.

Lemma fillIDs_found m rows c :
  c ∈ (snd <$> rows) ->
  exists id, fillIDs m rows !! c = Some id /\ (id, c) ∈ rows.
Proof.
  unfold fillIDs. revert m.
  induction rows as [|[id0 c0] rows IH]; intros m Hc;
    [by apply elem_of_nil in Hc|].
  cbn [foldl fst snd]. cbn in Hc.
  destruct (decide (c ∈ (snd <$> rows))) as [Hlater|Hnot].
  - destruct (IH (<[c0 := id0]> m) Hlater) as (id & Hid & Hin).
    exists id. split; [done | by right].
  - apply elem_of_cons in Hc as [->|?]; [|done].
    exists id0. split; [|left].
    rewrite (fillIDs_other (<[c0 := id0]> m) rows c0 Hnot).
    apply lookup_insert_eq.
Qed.

Lemma zeroIDs_lookup (values : list BusinessArgs) (m : gmap string Z) c :
  foldl (fun m a => <[a_cnpj a := 0]> m) m values !! c
  = if decide (c ∈ (a_cnpj <$> values)) then Some 0 else m !! c.
Proof.
  revert m. induction values as [|a values IH]; intros m.
  - cbn. destruct (decide _) as [H|_]; [by apply elem_of_nil in H | done].
  - cbn [foldl fmap list_fmap]. rewrite IH.
    destruct (decide (c ∈ a_cnpj <$> values)) as [Hin|Hnot].
    + rewrite decide_True; [done | by right].
    + destruct (decide (a_cnpj a = c)) as [<-|Hne].
      * rewrite lookup_insert_eq. rewrite decide_True; [done | left].
      * rewrite lookup_insert_ne by done.
        rewrite decide_False; [done|].
        intros [?|?]%elem_of_cons; [congruence | done].
Qed.

(** An id the venue writer has for a national ID is 0 or the id of a row of
    the table with that national ID. *)
Lemma venueIDs_sound order env now batch d c id :
  venueIDs order env now batch d !! c = Some id ->
  id = 0
  \/ exists b, b ∈ business (fst (insertBusiness now (validArgs batch) d))
               /\ b_id b = id /\ b_cnpj b = c.
Proof.
  unfold venueIDs.
  assert (Hzero : forall id,
             foldl (fun m a => <[a_cnpj a := 0]> m) (∅ : gmap string Z)
               (validArgs batch) !! c
             = Some id -> id = 0).
  { intros id'. rewrite zeroIDs_lookup. destruct (decide _); [congruence|].
    by rewrite lookup_empty. }
  destruct (validArgs batch) as [|a values] eqn:Hvalues;
    [intros H; left; by apply Hzero|].
  rewrite <- Hvalues in *. clear Hvalues a values.
  unfold resolvedIDs.
  set (m0 := foldl _ ∅ _) in *.
  set (rows := snd (insertBusiness now (validArgs batch) d)).
  assert (Hm1 : forall id, fillIDs m0 rows !! c = Some id ->
                id = 0 \/ exists b,
                    b ∈ business (fst (insertBusiness now (validArgs batch) d))
                    /\ b_id b = id /\ b_cnpj b = c).
  { intros id' [H|H]%fillIDs_sound; [left; by apply Hzero|]. right.
    by apply (insertBusiness_ids now (validArgs batch) d). }
  destruct (missingOf _ _ _) as [|c0 missing]; [apply Hm1|].
  destruct (env AtSelectExisting); [apply Hm1|].
  intros [H|H]%fillIDs_sound; [by apply Hm1|]. right.
  apply selectBusinessByCnpj_elem in H as (b & ? & ? & ? & _). by exists b.
Qed.

(** The tables after a run of the venue writer that returns no error. *)
Lemma CCSD_tables_exact order env now batch d :
  returned (CreateCompaniesStructuredDirect order env now batch d) = None ->
  let tx := fst (insertBusiness now (validArgs batch) d) in
  let partnerValues :=
    concat (venuePartnerRows (venueIDs order env now batch d) <$> batch) in
  tables (CreateCompaniesStructuredDirect order env now batch d)
  = match partnerValues, env AtInsertPartners with
    | _ :: _, None => insertSocios partnerValues tx
    | _, _ => tx
    end.
Proof.
  rewrite CCSD_returned. unfold venueIDs.
  unfold CreateCompaniesStructuredDirect. run_simpl.
  destruct (env AtBegin); [done|]. run_simpl.
  rewrite businessLoop_closed. run_simpl.
  rewrite insertBusinesses_returned, !insertBusinesses_tables.
  set (m0 := foldl _ ∅ _).
  destruct (validArgs batch) as [|a values] eqn:Hvalues.
  - intros Hret. cbn zeta.
    pose proof (partnersLoop_rows m0 batch) as Hpv.
    destruct (partnersLoop m0 batch) as [pv ws]. cbn [fst] in Hpv. subst pv.
    run_simpl.
    rewrite insertPartners_tables, commitBatch_tables, insertPartners_returned.
    destruct (env AtCommit); [done|].
    destruct (concat _) as [|p pv]; [done|]. by destruct (env AtInsertPartners).
  - destruct (env AtInsertBusiness) as [e|]; [done|].
    intros Hret. cbn zeta.
    assert (Hcommit : env AtCommit = None) by by destruct (env AtCommit).
    set (m := resolvedIDs _ _ _ _ _ _).
    pose proof (partnersLoop_rows m batch) as Hpv.
    destruct (partnersLoop m batch) as [pv ws]. cbn [fst] in Hpv. subst pv.
    run_simpl.
    rewrite insertPartners_tables, commitBatch_tables, insertPartners_returned.
    rewrite Hcommit.
    destruct (concat _) as [|p pv]; [done|]. by destruct (env AtInsertPartners).
Qed.

Lemma venuePartnerRows_elem m company a :
  a ∈ venuePartnerRows m company ->
  exists id partner,
    len (removeNonDigits (CNPJ company)) = 14
    /\ m !! removeNonDigits (CNPJ company) = Some id /\ id <> 0
    /\ partner ∈ QuadroSocietario company
    /\ venuePartnerRow id (removeNonDigits (CNPJ company)) partner = Some a.
Proof.
  unfold venuePartnerRows.
  destruct (len (removeNonDigits (CNPJ company)) =? 14) eqn:Elen;
    [|by intros H%elem_of_nil].
  apply Z.eqb_eq in Elen.
  destruct (m !! removeNonDigits (CNPJ company)) as [id|] eqn:Hid;
    [|by intros H%elem_of_nil].
  destruct (id =? 0) eqn:Ezero; [by intros H%elem_of_nil|].
  apply Z.eqb_neq in Ezero.
  intros (partner & Hp & Ha)%list_elem_of_omap. by exists id, partner.
Qed.

Lemma elem_of_concat_inv {A} (x : A) (ls : list (list A)) :
  x ∈ concat ls -> exists l, l ∈ ls /\ x ∈ l.
Proof.
  induction ls as [|l0 ls IH]; cbn [concat]; [by intros H%elem_of_nil|].
  intros [H|H]%elem_of_app.
  - exists l0. split; [left | done].
  - destruct (IH H) as (l & Hl & Hx). exists l. split; [by right | done].
Qed.

(** Every partner row the venue writer adds was built from a partner of a
    company of the batch for a venue row of the table. *)
Lemma CCSD_partner_rows order env now batch d :
  sociosGrow
    (venuePartnerOf batch
       (tables (CreateCompaniesStructuredDirect order env now batch d)))
    d (tables (CreateCompaniesStructuredDirect order env now batch d)).
Proof.
  pose proof (CCSD_tables order env now batch d) as Hany.
  pose proof (CCSD_tables_exact order env now batch d) as Hexact.
  destruct (returned _) as [e|]; [rewrite Hany; apply sociosGrow_refl|].
  clear Hany. specialize (Hexact eq_refl). cbn zeta in Hexact.
  set (tx := fst (insertBusiness now (validArgs batch) d)) in *.
  remember (concat (venuePartnerRows (venueIDs order env now batch d) <$> batch))
    as pv eqn:Hpv.
  assert (Htx : sociosGrow
            (venuePartnerOf batch
               (tables (CreateCompaniesStructuredDirect order env now batch d)))
            d tx).
  { intros row Hrow. left. unfold tx in Hrow.
    by rewrite insertBusiness_socios in Hrow. }
  assert (Hbusiness :
            business (tables (CreateCompaniesStructuredDirect order env now batch d))
            = business tx).
  { rewrite Hexact. destruct pv; [done|].
    destruct (env AtInsertPartners); [done|]. apply insertSocios_business. }
  rewrite Hexact at 2.
  destruct pv as [|p pv']; [exact Htx|].
  destruct (env AtInsertPartners); [exact Htx|].
  eapply sociosGrow_trans; [exact Htx|].
  apply insertSocios_grow. apply Forall_forall. intros a Ha.
  rewrite Hpv in Ha. clear Hpv Hexact.
  apply elem_of_concat_inv in Ha as (rows & Hrows & Ha).
  apply list_elem_of_fmap in Hrows as (company & -> & Hcompany).
  apply venuePartnerRows_elem in Ha as (id & partner & Hlen & Hid & Hnz & Hp & Ha).
  apply venueIDs_sound in Hid as [?|(b & Hb & <- & Hcnpj)]; [done|].
  exists company, partner, b. rewrite Hbusiness, Hcnpj. by repeat split.
Qed.

Lemma cut200_len (s : string) :
  len (cut200 s) <= 200 /\ (len s <= 200 -> cut200 s = s).
Proof.
  unfold cut200. destruct (200 <? len s) eqn:E.
  - apply Z.ltb_lt in E. rewrite len_prefix by lia. split; lia.
  - apply Z.ltb_ge in E. split; [lia | done].
Qed.

Lemma venuePartnerRow_sizes businessID cleanCNPJ partner a :
  len cleanCNPJ = 14 ->
  venuePartnerRow businessID cleanCNPJ partner = Some a ->
  venuePartnerSizes a
  /\ s_business_id a = businessID /\ s_cnpj a = cleanCNPJ
  /\ s_nome_socio a = cut200 (NomeSocio partner)
  /\ s_qualificacao a = cut200 (getStringValue (QualificaoSocio partner)).
Proof.
  unfold venuePartnerRow. intros Hlen.
  destruct (11 <? len (removeNonDigits (CNPJCPFDoSocio partner))) eqn:E;
    [done|].
  apply Z.ltb_ge in E. intros [= <-]. unfold venuePartnerSizes. cbn.
  split; [|done]. split; [done|].
  split; [apply cut200_len|]. split; [apply cut200_len|].
  destruct (String.eqb_spec (removeNonDigits (CNPJCPFDoSocio partner)) "")
    as [Hempty|Hne]; [done|].
  split; [|done].
  destruct (removeNonDigits (CNPJCPFDoSocio partner)); [done|].
  unfold len. cbn. lia.
Qed.

(** X11: every partner row the venue writer adds points to a venue of the
    table: it was built from a partner of a company of the batch whose
    national ID has 14 digits, and its [business_id] and [cnpj] are the id
    and the national ID of one venue row of the table after the write. *)
Theorem X11_venue_writer_partner_rows_point_to_a_venue
    (order : MapOrder) (env : Env) (now : Time) (batch : list Company)
    (d : DB) :
  let r := CreateCompaniesStructuredDirect order env now batch d in
  sociosGrow (venuePartnerOf batch (tables r)) d (tables r)
  /\ (forall a, venuePartnerOf batch (tables r) a ->
        exists b, b ∈ business (tables r)
                  /\ b_id b = s_business_id a /\ b_cnpj b = s_cnpj a).
Proof.
  intros r. split; [apply CCSD_partner_rows|].
  intros a (company & partner & b & Hc & Hvalid & Hp & Hb & Hcnpj & Ha).
  exists b. split; [done|].
  apply venuePartnerRow_sizes in Ha as (_ & ? & ? & _); [done|].
  by rewrite Hcnpj.
Qed.

(** X12: the venue writer cuts the name and the qualification of a partner
    to their first 200 bytes, with no dots and not at 120: every partner
    row it adds has a national ID of 14 bytes, a name and a qualification of
    at most 200 bytes, each the partner's own when that has at most 200, and
    a tax ID that is absent or has between 1 and 11 bytes. *)
Theorem X12_venue_writer_cuts_partner_strings_at_200
    (order : MapOrder) (env : Env) (now : Time) (batch : list Company)
    (d : DB) :
  sociosGrow
    (fun a =>
       venuePartnerSizes a
       /\ exists company partner,
            company ∈ batch /\ partner ∈ QuadroSocietario company
            /\ s_nome_socio a = cut200 (NomeSocio partner)
            /\ s_qualificacao a
               = cut200 (getStringValue (QualificaoSocio partner))
            /\ (len (NomeSocio partner) <= 200 ->
                s_nome_socio a = NomeSocio partner))
    d (tables (CreateCompaniesStructuredDirect order env now batch d)).
Proof.
  intros row [Hold|Hnew]%CCSD_partner_rows; [by left|]. right.
  destruct Hnew as (company & partner & b & Hc & Hvalid & Hp & Hb & Hcnpj & Ha).
  apply venuePartnerRow_sizes in Ha as (Hsizes & _ & _ & Hname & Hqual);
    [|by rewrite Hcnpj].
  split; [done|]. exists company, partner.
  repeat split; try done.
  intros Hshort. rewrite Hname. by apply cut200_len.
Qed.

Lemma venueIDs_nonempty order env now batch d :
  validArgs batch <> [] ->
  venueIDs order env now batch d
  = resolvedIDs order env now (validArgs batch)
      (foldl (fun m a => <[a_cnpj a := 0]> m) ∅ (validArgs batch)) d.
Proof. unfold venueIDs. by destruct (validArgs batch). Qed.

(** When the lookup of the venues that were there does not fail, the venue
    writer has an id other than 0 for every valid national ID of the
    batch. *)
Lemma venueIDs_found order env now batch d a :
  env AtSelectExisting = None -> idsFromOne d -> a ∈ validArgs batch ->
  exists id, venueIDs order env now batch d !! a_cnpj a = Some id /\ id <> 0.
Proof.
  intros Hsel [Hseq Hrows] Ha.
  rewrite venueIDs_nonempty by (intros Hnil; rewrite Hnil in Ha;
                                by apply elem_of_nil in Ha).
  unfold resolvedIDs. rewrite Hsel.
  set (m0 := foldl _ ∅ _).
  set (rows := snd (insertBusiness now (validArgs batch) d)).
  set (tx := fst (insertBusiness now (validArgs batch) d)).
  destruct (insertBusiness_ids now (validArgs batch) d) as [Htx Hret].
  fold tx in Htx, Hret. fold rows in Hret.
  assert (Hnz : forall b, b ∈ business tx -> b_id b <> 0).
  { intros b [Hb|Hb]%Htx; [|lia].
    eapply Forall_forall in Hrows; [exact Hrows | exact Hb]. }
  assert (Hm0 : m0 !! a_cnpj a = Some 0).
  { unfold m0. rewrite zeroIDs_lookup. rewrite decide_True; [done|].
    by apply list_elem_of_fmap_2. }
  destruct (decide (a_cnpj a ∈ (snd <$> rows))) as [Hin|Hnot].
  - destruct (fillIDs_found m0 rows (a_cnpj a) Hin) as (id & Hid & Hrow).
    assert (id <> 0) by (apply Hret in Hrow as [? _]; lia).
    exists id. split; [|done].
    destruct (missingOf _ _ _) as [|c0 missing] eqn:Hmissing; [done|].
    rewrite fillIDs_other; [done|].
    intros ([id' c] & Hc & Hsel')%list_elem_of_fmap. cbn in Hc. subst c.
    apply selectBusinessByCnpj_elem in Hsel' as (_ & _ & _ & _ & Hmiss).
    rewrite <- Hmissing in Hmiss. unfold missingOf in Hmiss.
    apply list_elem_of_filter in Hmiss as [Hmiss _]. apply Hmiss.
    by apply elem_of_list_to_set.
  - assert (Hm1 : fillIDs m0 rows !! a_cnpj a = Some 0)
      by by rewrite fillIDs_other.
    assert (Hmiss : a_cnpj a
                    ∈ missingOf order (fillIDs m0 rows) (list_to_set (snd <$> rows))).
    { unfold missingOf. apply list_elem_of_filter. split.
      - by rewrite elem_of_list_to_set.
      - apply list_elem_of_fmap. exists (a_cnpj a, 0). split; [done|].
        by apply range_elem. }
    destruct (missingOf _ _ _) as [|c0 missing] eqn:Hmissing;
      [by apply elem_of_nil in Hmiss|].
    assert (Hthere : a_cnpj a ∈ cnpjs tx).
    { destruct (insertBusiness_appends now (validArgs batch) d)
        as (new & Heq & _ & Hall & _).
      unfold cnpjs, tx. rewrite Heq, fmap_app. apply elem_of_app.
      by apply Hall. }
    apply list_elem_of_fmap in Hthere as (b & Hcnpj & Hb).
    destruct (fillIDs_found (fillIDs m0 rows)
                (selectBusinessByCnpj (c0 :: missing) tx) (a_cnpj a))
      as (id & Hid & Hrow).
    { apply list_elem_of_fmap. exists (b_id b, a_cnpj a). split; [done|].
      apply selectBusinessByCnpj_elem. by exists b. }
    exists id. split; [done|].
    apply selectBusinessByCnpj_elem in Hrow as (b' & Hb' & <- & _).
    by apply Hnz.
Qed.

(** When nothing fails, every partner of a valid company of the batch has a
    row afterwards, whether the venue is new or was there. *)
Lemma CCSD_partner_present
    (order : MapOrder) (env : Env) (now : Time) (batch : list Company)
    (d : DB) (company : Company) (partner : PartnerData) :
  (forall site, env site = None) ->
  idsFromOne d ->
  company ∈ batch -> validCNPJ company ->
  partner ∈ QuadroSocietario company -> shortTaxID partner ->
  Exists (fun row =>
            s_cnpj (s_cols row) = removeNonDigits (CNPJ company)
            /\ s_nome_socio (s_cols row) = cut200 (NomeSocio partner))
    (socios_cnpj
       (tables (CreateCompaniesStructuredDirect order env now batch d))).
Proof.
  intros Hok Hids Hc Hvalid Hp Hshort.
  assert (Hvenue : businessArgs company (removeNonDigits (CNPJ company))
                   ∈ validArgs batch).
  { apply list_elem_of_omap. exists company. split; [done|].
    unfold venueArgs. unfold validCNPJ in Hvalid. rewrite Hvalid. done. }
  destruct (venueIDs_found order env now batch d _ (Hok _) Hids Hvenue)
    as (id & Hid & Hnz).
  cbn [a_cnpj businessArgs] in Hid.
  destruct (venuePartnerRow id (removeNonDigits (CNPJ company)) partner)
    as [a|] eqn:Ha.
  2: { unfold venuePartnerRow, shortTaxID in *.
       destruct (11 <? _) eqn:E; [apply Z.ltb_lt in E; lia | done]. }
  assert (Hrow : a ∈ concat (venuePartnerRows
                               (venueIDs order env now batch d) <$> batch)).
  { apply (elem_of_concat _ (venuePartnerRows
                               (venueIDs order env now batch d) company)).
    - by apply list_elem_of_fmap_2.
    - unfold venuePartnerRows. unfold validCNPJ in Hvalid.
      rewrite Hvalid, Hid. cbn.
      assert ((id =? 0) = false) as -> by lia.
      apply list_elem_of_omap. by exists partner. }
  rewrite CCSD_tables_exact by (rewrite CCSD_returned, !Hok;
                                by destruct (validArgs batch)).
  destruct (concat _) as [|p pv] eqn:Hpv; [by apply elem_of_nil in Hrow|].
  rewrite Hok. rewrite <- Hpv in *.
  eapply Exists_impl; [apply insertSocios_has, Hrow|].
  intros row [Hcnpj Hname].
  apply venuePartnerRow_sizes in Ha as (_ & _ & Ha1 & Ha2 & _); [|done].
  by rewrite Hcnpj, Hname.
Qed.

(** X13: the venue writer also adds the partners of venues that were
    already there.  When no call fails and the sequence of venue ids started
    above 0, every partner with a tax ID of at most 11 digits, of every
    company of the batch with a national ID of 14 digits, has afterwards a
    partner row with that national ID and its name cut to 200 bytes. *)
Theorem X13_venue_writer_leaves_a_row_for_every_partner
    (order : MapOrder) (env : Env) (now : Time) (batch : list Company)
    (d : DB) (company : Company) (partner : PartnerData) :
  (forall site, env site = None) ->
  idsFromOne d ->
  company ∈ batch -> validCNPJ company ->
  partner ∈ QuadroSocietario company -> shortTaxID partner ->
  Exists (fun row =>
            s_cnpj (s_cols row) = removeNonDigits (CNPJ company)
            /\ s_nome_socio (s_cols row) = cut200 (NomeSocio partner))
    (socios_cnpj
       (tables (CreateCompaniesStructuredDirect order env now batch d))).
Proof. apply CCSD_partner_present. Qed.


End VenuePartners.

(** ** Running a partners-only batch again *)

Section BatchAgain.
Import PG Spec.

Lemma insertSocios_present rows d :
  (forall a, a ∈ rows -> Exists (sameSocio a) (socios_cnpj d)) ->
  socios_cnpj (insertSocios rows d) = socios_cnpj d.
Proof.
  unfold insertSocios. revert d. induction rows as [|a rows IH]; intros d Hall;
    [done|].
  cbn [foldl].
  assert (Hstep : socios_cnpj (insertSocioRow d a) = socios_cnpj d).
  { unfold insertSocioRow. rewrite decide_True; [done|]. apply Hall. left. }
  rewrite IH; [done|]. intros a' Ha'. rewrite Hstep. apply Hall. by right.
Qed.

(** What holds of the tables and is kept by every partner insert the loop
    can send is kept by the loop. *)
Lemma importBusinesses_kept_rows (P : DB -> Prop) (R : SocioArgs -> Prop)
    env fullOf todo d :
  (forall businessID partners,
      (businessID, partners) ∈ todo ->
      Forall R (fst (partnerRows businessID
                       (default "" (fullOf !! businessID)) partners))) ->
  (forall rows d', P d' -> Forall R rows -> P (insertSocios rows d')) ->
  P d -> P (tables (importBusinesses env fullOf todo d)).
Proof.
  intros Htodo Hkeep. revert d.
  induction todo as [|[businessID partners] todo IH]; intros d Hd; [done|].
  cbn [importBusinesses]. run_simpl.
  assert (Hstep : P (tables (importBusiness env businessID
                               (default "" (fullOf !! businessID)) partners d))).
  { destruct (importBusiness_tables env businessID
                (default "" (fullOf !! businessID)) partners d) as [->| ->];
      [done|].
    apply Hkeep; [done|]. apply Htodo. left. }
  destruct (returned (importBusiness _ _ _ _ _)); [done|].
  apply IH; [|done]. intros ? ? Hin. apply Htodo. by right.
Qed.

(** The rows of the partner inserts of a batch are rows for venues the keys
    of the batch find. *)
Lemma ImportPartnersBatch_kept_rows (P : DB -> Prop) order env batch d :
  NoDup (b_id <$> business d) ->
  (forall rows d', P d' -> Forall (resolvedRow batch d) rows ->
                   P (insertSocios rows d')) ->
  P d -> P (tables (ImportPartnersBatch order env batch d)).
Proof.
  intros Hids Hkeep Hd. unfold ImportPartnersBatch.
  destruct (decide (batch = ∅)); [done|].
  pose proof (splitStep_sound (range order batch)) as Hsplit.
  pose proof (splitStep_keys (range order batch) [] [] ∅) as Hkeys.
  destruct (foldl splitStep _ _) as [[baseCNPJs fullCNPJs] cnpjToPartners].
  destruct Hkeys as [Hbases Hfulls]. cbn [app] in Hbases, Hfulls.
  fold (keysOfLength 8 order batch) in Hbases.
  fold (keysOfLength 14 order batch) in Hfulls. subst baseCNPJs fullCNPJs.
  run_simpl. rewrite queryBases_tables.
  destruct (returned (queryBases _ _ _ _)) as [ids1|] eqn:E1; [|done].
  apply queryBases_inv in E1. subst ids1.
  run_simpl. rewrite queryFull_tables.
  destruct (returned (queryFull _ _ _ _)) as [ids2|] eqn:E2; [|done].
  apply queryFull_inv in E2.
  run_simpl. rewrite queryCNPJs_tables.
  destruct (returned (queryCNPJs _ _ _ _)) as [cnpjOf|] eqn:E3; [|done].
  apply queryCNPJs_inv in E3.
  pose proof (groupStep_sound ids2 cnpjOf (range order cnpjToPartners))
    as Hgroup.
  destruct (foldl (groupStep _ _) _ _) as [[toPartners toFull] warnings].
  destruct Hgroup as [Hfrom Hfull].
  run_simpl.
  apply (importBusinesses_kept_rows P (resolvedRow batch d)); [|done|done].
  intros businessID psAll Hin%range_elem.
  rewrite partnerRows_rows. apply Forall_forall.
  intros a (p & Hp & Ha)%list_elem_of_omap.
  destruct (Hfrom businessID psAll p Hin Hp)
    as (c & ps & Hc%range_elem & Hpps & Hid).
  destruct (Hfull businessID (mk_is_Some _ _ Hin)) as (full & Htf & Hcnpj).
  rewrite Htf in Ha. cbn [default from_option id] in Ha.
  destruct (Hsplit c ps Hc) as (k & Hk%range_elem & Hclean).
  subst ids2. apply lookups_find in Hid as (b & _ & Hb & Hbid & Hfinds & _).
  subst cnpjOf. apply fillCNPJs_sound in Hcnpj as [Hcnpj|Hcnpj];
    [by rewrite lookup_empty in Hcnpj|].
  apply selectBusinessById_elem in Hcnpj as (b' & Hb' & Hbid' & Hfull' & _).
  assert (b' = b) as ->.
  { eapply NoDup_fmap_eq; [exact Hids|done|done|congruence]. }
  exists k, ps, p, b. subst c businessID full. done.
Qed.

(** X15: importing a batch a second time adds nothing.  After a run of
    [ImportPartnersBatch] in which no call failed, on a batch whose keys are
    distinct once cleaned, a further run over the same batch leaves the
    partner rows and the venues as they are, in whatever order it ranges
    over its maps and whatever fails in it. *)
Theorem X15_ImportPartnersBatch_again_adds_nothing
    (order order' : MapOrder) (env env' : Env)
    (batch : gmap string (list PartnerData)) (d : DB) :
  (forall site, env site = None) ->
  distinctWhenClean batch ->
  NoDup (b_id <$> business d) ->
  let d1 := tables (ImportPartnersBatch order env batch d) in
  socios_cnpj (tables (ImportPartnersBatch order' env' batch d1))
  = socios_cnpj d1
  /\ business (tables (ImportPartnersBatch order' env' batch d1))
     = business d.
Proof.
  intros Hok Hclean Hids d1.
  assert (Hbusiness : business d1 = business d).
  { apply (ImportPartnersBatch_kept (fun d' => business d' = business d));
      [|done].
    intros rows d' Hd'. by rewrite insertSocios_business. }
  split.
  - apply (ImportPartnersBatch_kept_rows
             (fun d' => socios_cnpj d' = socios_cnpj d1));
      [by rewrite Hbusiness | | done].
    intros rows d' Hd' Hrows. rewrite <- Hd'. apply insertSocios_present.
    intros a Ha. rewrite Hd'.
    eapply Forall_forall in Hrows; [|exact Ha].
    destruct Hrows as (k & ps & p & b & Hk & Hp & Hb & Hfinds & Hrow).
    rewrite Hbusiness in Hb.
    by apply (ImportPartnersBatch_complete order env batch d k ps p b a).
  - apply (ImportPartnersBatch_kept (fun d' => business d' = business d));
      [|done].
    intros rows d' Hd'. by rewrite insertSocios_business.
Qed.

End BatchAgain.

Section BatchAgainWitness.
Import PG Spec.

Lemma X15_witness :
  socios_cnpj
    (tables (ImportPartnersBatch sortedOrder Sample.commitFails
               Sample.aliceBatch
               (tables (ImportPartnersBatch sortedOrder noFaults
                          Sample.aliceBatch Sample.oneVenue))))
  = socios_cnpj
      (tables (ImportPartnersBatch sortedOrder noFaults Sample.aliceBatch
                 Sample.oneVenue)).
Proof.
  apply (X15_ImportPartnersBatch_again_adds_nothing sortedOrder sortedOrder
           noFaults Sample.commitFails Sample.aliceBatch Sample.oneVenue).
  - done.
  - unfold distinctWhenClean, Sample.aliceBatch.
    intros k1 k2 [x1 [<- _]%lookup_singleton_Some]
                 [x2 [<- _]%lookup_singleton_Some] _.
    reflexivity.
  - vm_compute. apply NoDup_singleton.
Defined.

End BatchAgainWitness.

(** ** Keys that are neither base IDs nor national IDs *)

Section OtherKeys.
Import PG Spec.

Lemma groupStep_none cnpjOf entries tp tf ws :
  foldl (groupStep ∅ cnpjOf) (tp, tf, ws) entries
  = (tp, tf,
     ws ++ ((fun e : string * list PartnerData =>
               Warn "No businesses found for CNPJ, skipping partners"
                 [AttrStr "cnpj" e.1]) <$> entries)).
Proof.
  revert ws. induction entries as [|[c ps] entries IH]; intros ws.
  - cbn. by rewrite app_nil_r.
  - cbn [foldl fmap list_fmap]. unfold groupStep at 2.
    rewrite lookup_empty. cbn [default from_option]. rewrite IH.
    by rewrite <- app_assoc.
Qed.

Lemma splitStep_dom entries acc k ps :
  (k, ps) ∈ entries ->
  is_Some ((foldl splitStep acc entries).2 !! removeNonDigits k).
Proof.
  intros Hin.
  apply (foldl_each
           (fun (e : string * list PartnerData) acc =>
              is_Some (acc.2 !! removeNonDigits e.1)) splitStep)
    with (x := (k, ps)); [| |done].
  - intros [k1 ps1] [[bases fulls] m] [k2 ps2] Hsome. unfold splitStep.
    cbn [fst snd] in *.
    assert (is_Some (<[removeNonDigits k2 := ps2]> m !! removeNonDigits k1)).
    { apply lookup_insert_is_Some'. by right. }
    destruct (len (removeNonDigits k2) =? 8); [done|].
    by destruct (len (removeNonDigits k2) =? 14).
  - intros [[bases fulls] m] [k1 ps1]. unfold splitStep. cbn [fst snd].
    assert (is_Some (<[removeNonDigits k1 := ps1]> m !! removeNonDigits k1)).
    { apply lookup_insert_is_Some'. by left. }
    destruct (len (removeNonDigits k1) =? 8); [done|].
    by destruct (len (removeNonDigits k1) =? 14).
Qed.

Lemma keysOfLength_none n order batch :
  (forall k, is_Some (batch !! k) -> len (removeNonDigits k) <> n) ->
  keysOfLength n order batch = [].
Proof.
  intros Hnone. destruct (keysOfLength n order batch) as [|c cs] eqn:E; [done|].
  assert (Hc : c ∈ keysOfLength n order batch) by (rewrite E; left).
  apply keysOfLength_elem in Hc as (Hlen & k & Hk & <-).
  by destruct (Hnone k Hk).
Qed.

(** X16: [ImportPartnersBatch] passes over the keys that have neither 8 nor
    14 digits once cleaned.  For a batch with only such keys it sends no
    statement, leaves the tables as they are and returns no error; each key
    gets the warning that no venue was found for it. *)
Theorem X16_ImportPartnersBatch_passes_over_other_keys
    (order : MapOrder) (env : Env) (batch : gmap string (list PartnerData))
    (d : DB) :
  (forall k, is_Some (batch !! k) ->
     len (removeNonDigits k) <> 8 /\ len (removeNonDigits k) <> 14) ->
  let r := ImportPartnersBatch order env batch d in
  returned r = None /\ statements r = [] /\ tables r = d
  /\ (forall k, is_Some (batch !! k) ->
        Warn "No businesses found for CNPJ, skipping partners"
          [AttrStr "cnpj" (removeNonDigits k)] ∈ logged r).
Proof.
  intros Hother. cbv zeta. unfold ImportPartnersBatch.
  destruct (decide (batch = ∅)) as [->|Hne].
  { repeat split. intros k [x Hk]. by rewrite lookup_empty in Hk. }
  pose proof (splitStep_keys (range order batch) [] [] ∅) as Hkeys.
  pose proof (fun k ps => splitStep_dom (range order batch) ([], [], ∅) k ps)
    as Hdom.
  destruct (foldl splitStep _ _) as [[baseCNPJs fullCNPJs] cnpjToPartners].
  destruct Hkeys as [Hbases Hfulls]. cbn [app] in Hbases, Hfulls.
  fold (keysOfLength 8 order batch) in Hbases.
  fold (keysOfLength 14 order batch) in Hfulls.
  rewrite keysOfLength_none in Hbases by (intros k Hk; by apply Hother).
  rewrite keysOfLength_none in Hfulls by (intros k Hk; by apply Hother).
  subst baseCNPJs fullCNPJs. cbn [snd] in Hdom.
  unfold queryBases, queryFull. run_simpl.
  unfold queryCNPJs. rewrite !decide_True by done.
  run_simpl. rewrite groupStep_none. run_simpl.
  rewrite (proj2 (range_nil order (∅ : gmap Z (list PartnerData)))) by done.
  cbn [importBusinesses]. run_simpl. rewrite app_nil_r.
  split; [done|]. split; [done|]. split; [done|].
  intros k [ps Hk]. cbn [app]. rewrite ?app_nil_r.
  destruct (Hdom k ps) as [ps' Hps']; [by apply range_elem|].
  apply list_elem_of_fmap. exists (removeNonDigits k, ps'). split; [done|].
  by apply range_elem.
Qed.

End OtherKeys.

Section OtherKeysWitness.
Import PG Spec.

Lemma X16_witness :
  returned (ImportPartnersBatch sortedOrder noFaults
              {[ "123" := [Sample.partner "ALICE" "***123456**"] ]}
              Sample.oneVenue) = None
  /\ tables (ImportPartnersBatch sortedOrder noFaults
               {[ "123" := [Sample.partner "ALICE" "***123456**"] ]}
               Sample.oneVenue) = Sample.oneVenue.
Proof.
  destruct (X16_ImportPartnersBatch_passes_over_other_keys sortedOrder noFaults
              {[ "123" := [Sample.partner "ALICE" "***123456**"] ]}
              Sample.oneVenue) as (Hret & _ & Htables & _).
  - intros k [x [<- _]%lookup_singleton_Some]. by vm_compute.
  - by split.
Defined.

End OtherKeysWitness.

(** ** [ImportPartnersOnly] against the venues its key finds *)

Section OnlyOneVenues.
Import PG Spec.

Lemma selectIdByPrefix_elem p d id :
  id ∈ selectIdByPrefix p d <->
  exists b, b ∈ business d /\ b_id b = id /\ String.prefix p (b_cnpj b) = true.
Proof.
  unfold selectIdByPrefix. rewrite list_elem_of_fmap. split.
  - intros (b & -> & [Hp Hb]%list_elem_of_filter). by exists b.
  - intros (b & Hb & <- & Hp). exists b. split; [done|].
    by apply list_elem_of_filter.
Qed.

Lemma selectIdByCnpj_elem c d id :
  id ∈ selectIdByCnpj c d <->
  exists b, b ∈ business d /\ b_id b = id /\ b_cnpj b = c.
Proof.
  unfold selectIdByCnpj. rewrite list_elem_of_fmap. split.
  - intros (b & -> & [Hp Hb]%list_elem_of_filter). by exists b.
  - intros (b & Hb & <- & Hp). exists b. split; [done|].
    by apply list_elem_of_filter.
Qed.

Lemma selectCnpjById_elem id d c :
  c ∈ selectCnpjById id d <->
  exists b, b ∈ business d /\ b_id b = id /\ b_cnpj b = c.
Proof.
  unfold selectCnpjById. rewrite list_elem_of_fmap. split.
  - intros (b & -> & [Hp Hb]%list_elem_of_filter). by exists b.
  - intros (b & Hb & <- & Hp). exists b. split; [done|].
    by apply list_elem_of_filter.
Qed.

(** [cnpj LIKE key || '%'] and [LEFT(cnpj, 8) = key] find the same rows
    for a key of 8 bytes. *)
Lemma prefix_LEFT8 (key s : string) :
  len key = 8 -> String.prefix key s = true <-> LEFT8 s = key.
Proof.
  unfold len, LEFT8. intros Hlen. rewrite prefix_correct.
  assert (String.length key = 8%nat) as -> by lia. done.
Qed.

Lemma fallbackInserts_kept_rows (P : DB -> Prop) (R : SocioArgs -> Prop)
    env businessID fullCNPJ i partners tx d :
  Forall R (omap (partnerRow businessID fullCNPJ) partners) ->
  (forall rows d', P d' -> Forall R rows -> P (insertSocios rows d')) ->
  P tx ->
  P (returned (fallbackInserts env businessID fullCNPJ i partners tx d)).
Proof.
  intros HR Hkeep. revert i tx.
  induction partners as [|p ps IH]; intros i tx Htx; [done|].
  rewrite omap_cons in HR. cbn [fallbackInserts].
  pose proof (partnerRowStep_fold businessID fullCNPJ [p] [] []) as Hrow.
  cbn [foldl app] in Hrow.
  destruct (partnerRowStep businessID fullCNPJ ([], []) p) as [row ws].
  cbn [fst] in Hrow. subst row. rewrite omap_cons. cbn [omap].
  destruct (partnerRow businessID fullCNPJ p) as [a|].
  - apply Forall_cons in HR as [Ha HR]. run_simpl.
    destruct (env (ForBusiness businessID (AtFallbackInsert i))).
    + run_simpl. by apply IH.
    + cbn [exec fst snd]. run_simpl. apply IH; [done|].
      apply Hkeep; [done|]. by apply Forall_singleton.
  - run_simpl. by apply IH.
Qed.

Lemma importOnlyBusiness_kept_rows (P : DB -> Prop) (R : SocioArgs -> Prop)
    env partners businessID d :
  (forall fullCNPJ, head (selectCnpjById businessID d) = Some fullCNPJ ->
     Forall R (omap (partnerRow businessID fullCNPJ) partners)) ->
  (forall rows d', P d' -> Forall R rows -> P (insertSocios rows d')) ->
  P d -> P (tables (importOnlyBusiness env partners businessID d)).
Proof.
  intros HR Hkeep Hd. unfold importOnlyBusiness. run_simpl.
  rewrite ?pool_run_tables_query, pool_run_returned. cbn [query snd].
  destruct (env (ForBusiness businessID AtQueryCnpj)); [by run_simpl|].
  destruct (selectCnpjById businessID d) as [|fullCNPJ rest]; [by run_simpl|].
  specialize (HR fullCNPJ eq_refl). run_simpl.
  destruct (env (ForBusiness businessID AtBegin)); [done|].
  run_simpl.
  pose proof (partnerRows_rows businessID fullCNPJ partners) as Hrows.
  destruct (partnerRows businessID fullCNPJ partners) as [values warnings].
  cbn [fst] in Hrows. subst values. run_simpl.
  destruct (omap (partnerRow businessID fullCNPJ) partners) as [|a values] eqn:E.
  - run_simpl. by destruct (env (ForBusiness businessID AtCommit)).
  - run_simpl.
    destruct (env (ForBusiness businessID AtInsertPartners)).
    + run_simpl.
      assert (HR' : Forall R (omap (partnerRow businessID fullCNPJ) partners))
        by (by rewrite E).
      destruct (fallbackInserts_grow R env businessID fullCNPJ 0 partners d d HR')
        as [Ht _].
      rewrite Ht.
      destruct (env (ForBusiness businessID AtCommit)); [done|].
      by apply (fallbackInserts_kept_rows P R).
    + cbn [exec fst snd]. run_simpl.
      destruct (env (ForBusiness businessID AtCommit)); [done|].
      by apply Hkeep.
Qed.

Lemma selectCnpjById_business id d d' :
  business d' = business d -> selectCnpjById id d' = selectCnpjById id d.
Proof. unfold selectCnpjById. by intros ->. Qed.

Lemma importOnlyBusinesses_kept_rows (P : DB -> Prop) (R : SocioArgs -> Prop)
    env partners ids d :
  (forall businessID fullCNPJ,
     businessID ∈ ids -> head (selectCnpjById businessID d) = Some fullCNPJ ->
     Forall R (omap (partnerRow businessID fullCNPJ) partners)) ->
  (forall rows d', P d' -> Forall R rows -> P (insertSocios rows d')) ->
  P d ->
  P (tables (importOnlyBusinesses env partners ids d))
  /\ business (tables (importOnlyBusinesses env partners ids d)) = business d.
Proof.
  intros HR Hkeep. revert d HR.
  induction ids as [|businessID ids IH]; intros d HR Hd; [done|].
  cbn [importOnlyBusinesses]. run_simpl.
  assert (Hstep : P (tables (importOnlyBusiness env partners businessID d))
                  /\ business (tables (importOnlyBusiness env partners businessID d))
                     = business d).
  { apply (importOnlyBusiness_kept_rows
             (fun d' => P d' /\ business d' = business d) R);
      [intros; apply HR; [left | done] | | done].
    intros rows d' [Hd' Hb] Hrows. split; [by apply Hkeep|].
    by rewrite insertSocios_business. }
  destruct Hstep as [Hstep Hb].
  destruct (returned (importOnlyBusiness _ _ _ _)); [done|].
  destruct (IH (tables (importOnlyBusiness env partners businessID d)))
    as [HP Hb']; [|done|].
  - intros id full Hid Hfull. rewrite (selectCnpjById_business _ d) in Hfull
      by done.
    apply HR; [by right | done].
  - split; [done|]. by rewrite Hb'.
Qed.

(** The rows of the partner inserts of [ImportPartnersOnly] are rows for
    venues its key finds. *)
Lemma ImportPartnersOnly_kept_rows (P : DB -> Prop) env partners cnpj d :
  NoDup (b_id <$> business d) ->
  (forall rows d', P d' ->
     Forall (resolvedRow {[ cnpj := partners ]} d) rows ->
     P (insertSocios rows d')) ->
  P d -> P (tables (ImportPartnersOnly env partners cnpj d)).
Proof.
  intros Hids Hkeep Hd.
  assert (HR : forall ids : list Z,
     (forall id, id ∈ ids ->
        exists b, b ∈ business d /\ b_id b = id
                  /\ keyFinds (removeNonDigits cnpj) b) ->
     forall businessID fullCNPJ,
       businessID ∈ ids ->
       head (selectCnpjById businessID d) = Some fullCNPJ ->
       Forall (resolvedRow {[ cnpj := partners ]} d)
         (omap (partnerRow businessID fullCNPJ) partners)).
  { intros ids Hfound id full Hid Hfull.
    destruct (Hfound id Hid) as (b & Hb & Hbid & Hfinds).
    assert (Hin : full ∈ selectCnpjById id d).
    { destruct (selectCnpjById id d); [done|]. injection Hfull as ->. left. }
    apply selectCnpjById_elem in Hin as (b' & Hb' & Hbid' & Hcnpj).
    assert (b' = b) as ->.
    { eapply NoDup_fmap_eq; [exact Hids|done|done|congruence]. }
    apply Forall_forall. intros a (p & Hp & Ha)%list_elem_of_omap.
    exists cnpj, partners, p, b. rewrite lookup_singleton_eq. subst id full.
    done. }
  unfold ImportPartnersOnly.
  destruct (len (removeNonDigits cnpj) =? 8) eqn:E8.
  - apply Z.eqb_eq in E8. run_simpl.
    rewrite ?pool_run_tables_query, pool_run_returned. cbn [query snd].
    destruct (env AtQueryBases); [by run_simpl|].
    destruct (selectIdByPrefix (removeNonDigits cnpj) d) as [|id ids] eqn:Eids;
      [by run_simpl|].
    apply (importOnlyBusinesses_kept_rows P
             (resolvedRow {[ cnpj := partners ]} d)); [|done|done].
    apply HR. intros id' Hid'. rewrite <- Eids in Hid'.
    apply selectIdByPrefix_elem in Hid' as (b & Hb & Hbid & Hprefix).
    exists b. split; [done|]. split; [done|]. left. split; [done|].
    by apply prefix_LEFT8.
  - destruct (len (removeNonDigits cnpj) =? 14) eqn:E14; [|done].
    apply Z.eqb_eq in E14. run_simpl.
    rewrite ?pool_run_tables_query, pool_run_returned. cbn [query snd].
    destruct (env AtQueryOne); [by run_simpl|].
    destruct (selectIdByCnpj (removeNonDigits cnpj) d) as [|id ids] eqn:Eids;
      [by run_simpl|].
    apply (importOnlyBusinesses_kept_rows P
             (resolvedRow {[ cnpj := partners ]} d)); [|done|done].
    apply HR. intros id' ->%list_elem_of_singleton.
    assert (Hid : id ∈ selectIdByCnpj (removeNonDigits cnpj) d)
      by (rewrite Eids; left).
    apply selectIdByCnpj_elem in Hid as (b & Hb & Hbid & Hcnpj).
    exists b. split; [done|]. split; [done|]. right. by split.
Qed.

Lemma importOnlyBusiness_noFaults env partners businessID d :
  (forall site, env site = None) ->
  returned (importOnlyBusiness env partners businessID d) = None
  /\ tables (importOnlyBusiness env partners businessID d)
     = match head (selectCnpjById businessID d) with
       | Some fullCNPJ =>
           insertSocios (omap (partnerRow businessID fullCNPJ) partners) d
       | None => d
       end.
Proof.
  intros Hok. unfold importOnlyBusiness. run_simpl.
  rewrite ?pool_run_tables_query, pool_run_returned, Hok. cbn [query snd].
  destruct (selectCnpjById businessID d) as [|fullCNPJ rest]; [by run_simpl|].
  cbn [head]. run_simpl. rewrite Hok. run_simpl.
  rewrite <- partnerRows_rows.
  destruct (partnerRows businessID fullCNPJ partners) as [values warnings].
  run_simpl. cbn [fst]. destruct values as [|a values]; run_simpl.
  - by rewrite ?Hok.
  - rewrite !Hok. run_simpl. by rewrite ?Hok.
Qed.

Lemma importOnlyBusinesses_complete env partners ids d b p a :
  (forall site, env site = None) ->
  NoDup (b_id <$> business d) ->
  b_id b ∈ ids -> b ∈ business d -> p ∈ partners ->
  partnerRow (b_id b) (b_cnpj b) p = Some a ->
  Exists (sameSocio a)
    (socios_cnpj (tables (importOnlyBusinesses env partners ids d))).
Proof.
  intros Hok Hids Hid Hb Hp Ha. revert d Hids Hb.
  induction ids as [|id0 ids IH]; intros d Hids Hb;
    [by apply elem_of_nil in Hid|].
  cbn [importOnlyBusinesses]. run_simpl.
  destruct (importOnlyBusiness_noFaults env partners id0 d Hok) as [-> Ht].
  assert (Hbusiness : business (tables (importOnlyBusiness env partners id0 d))
                      = business d).
  { rewrite Ht. destruct (head _); [apply insertSocios_business | done]. }
  destruct (decide (id0 = b_id b)) as [->|Hne].
  - apply (importOnlyBusinesses_kept_rows
             (fun d' => Exists (sameSocio a) (socios_cnpj d'))
             (fun _ => True)).
    + intros. apply Forall_forall. done.
    + intros rows d' Hd' _. eapply Exists_prefix; [|exact Hd'].
      apply insertSocios_prefix.
    + rewrite Ht.
      assert (Hin : b_cnpj b ∈ selectCnpjById (b_id b) d)
        by (apply selectCnpjById_elem; by exists b).
      destruct (selectCnpjById (b_id b) d) as [|full rest] eqn:E;
        [by apply elem_of_nil in Hin|].
      cbn [head].
      assert (Hfull : full ∈ selectCnpjById (b_id b) d) by (rewrite E; left).
      apply selectCnpjById_elem in Hfull as (b' & Hb' & Hbid' & <-).
      assert (b' = b) as -> by (eapply NoDup_fmap_eq; eauto).
      apply insertSocios_has. apply list_elem_of_omap. by exists p.
  - apply elem_of_cons in Hid as [?|Hid]; [congruence|].
    apply IH; [done | by rewrite Hbusiness | by rewrite Hbusiness].
Qed.

Lemma ImportPartnersOnly_complete env partners cnpj d p b a :
  (forall site, env site = None) ->
  NoDup (b_id <$> business d) -> NoDup (cnpjs d) ->
  p ∈ partners -> b ∈ business d -> keyFinds (removeNonDigits cnpj) b ->
  partnerRow (b_id b) (b_cnpj b) p = Some a ->
  Exists (sameSocio a)
    (socios_cnpj (tables (ImportPartnersOnly env partners cnpj d))).
Proof.
  intros Hok Hids Hcnpjs Hp Hb Hfinds Ha. unfold ImportPartnersOnly.
  destruct Hfinds as [[Hlen Hleft]|[Hlen Hfull]].
  - assert ((len (removeNonDigits cnpj) =? 8) = true) as -> by lia.
    run_simpl.
    rewrite ?pool_run_tables_query, pool_run_returned, Hok. cbn [query snd].
    assert (Hid : b_id b ∈ selectIdByPrefix (removeNonDigits cnpj) d).
    { apply selectIdByPrefix_elem. exists b. split; [done|]. split; [done|].
      by apply prefix_LEFT8. }
    destruct (selectIdByPrefix (removeNonDigits cnpj) d) as [|id ids];
      [by apply elem_of_nil in Hid|].
    by apply (importOnlyBusinesses_complete env partners _ d b p a).
  - assert ((len (removeNonDigits cnpj) =? 8) = false) as -> by lia.
    assert ((len (removeNonDigits cnpj) =? 14) = true) as -> by lia.
    run_simpl.
    rewrite ?pool_run_tables_query, pool_run_returned, Hok. cbn [query snd].
    assert (Hid : b_id b ∈ selectIdByCnpj (removeNonDigits cnpj) d).
    { apply selectIdByCnpj_elem. by exists b. }
    destruct (selectIdByCnpj (removeNonDigits cnpj) d) as [|id ids] eqn:E;
      [by apply elem_of_nil in Hid|].
    assert (Hfirst : id ∈ selectIdByCnpj (removeNonDigits cnpj) d)
      by (rewrite E; left).
    apply selectIdByCnpj_elem in Hfirst as (b' & Hb' & <- & Hcnpj').
    assert (b' = b) as ->.
    { eapply (NoDup_fmap_eq b_cnpj); [exact Hcnpjs|done|done|congruence]. }
    apply (importOnlyBusinesses_complete env partners _ d b p a);
      try done. left.
Qed.

(** X17: [ImportPartnersOnly] keeps the contract of the batch import for
    its one key.  Every partner row it adds was built from one of the given
    partners for a venue the key finds (a venue whose national ID starts
    with a key of 8 digits, or is a key of 14), with that venue's id and
    national ID; the venues and the partner rows that were there stay; and
    when no call fails and the national IDs of the table are distinct, every
    given partner whose tax ID has at most 11 digits has afterwards a row
    with its name for every such venue. *)
Theorem X17_ImportPartnersOnly_adds_rows_for_the_venues_its_key_finds
    (env : Env) (partners : list PartnerData) (cnpj : string) (d : DB) :
  NoDup (b_id <$> business d) ->
  let r := ImportPartnersOnly env partners cnpj d in
  sociosGrow (resolvedRow {[ cnpj := partners ]} d) d (tables r)
  /\ business (tables r) = business d
  /\ socios_cnpj d `prefix_of` socios_cnpj (tables r)
  /\ ((forall site, env site = None) -> NoDup (cnpjs d) ->
      forall p b a,
        p ∈ partners -> b ∈ business d ->
        keyFinds (removeNonDigits cnpj) b ->
        partnerRow (b_id b) (b_cnpj b) p = Some a ->
        Exists (sameSocio a) (socios_cnpj (tables r))).
Proof.
  intros Hids r. subst r. split; [|split; [|split]].
  - apply (ImportPartnersOnly_kept_rows
             (fun d' => sociosGrow (resolvedRow {[ cnpj := partners ]} d) d d'));
      [done | | apply sociosGrow_refl].
    intros rows d' Hd' Hrows. eapply sociosGrow_trans; [exact Hd'|].
    by apply insertSocios_grow.
  - apply (ImportPartnersOnly_kept_rows (fun d' => business d' = business d));
      [done | | done].
    intros rows d' Hd' _. by rewrite insertSocios_business.
  - apply (ImportPartnersOnly_kept_rows
             (fun d' => socios_cnpj d `prefix_of` socios_cnpj d'));
      [done | | done].
    intros rows d' Hd' _. etrans; [exact Hd' | apply insertSocios_prefix].
  - intros Hok Hcnpjs p b a. by apply ImportPartnersOnly_complete.
Qed.

Lemma filter_nil_iff {A} (P : A -> Prop) `{forall x, Decision (P x)}
    (l : list A) :
  filter P l = [] <-> forall x, x ∈ l -> ~ P x.
Proof.
  split.
  - intros Hnil x Hx HP.
    assert (x ∈ filter P l) by by apply list_elem_of_filter.
    rewrite Hnil in H0. by apply elem_of_nil in H0.
  - intros Hno. destruct (filter P l) as [|x rest] eqn:E; [done|].
    assert (Hx : x ∈ filter P l) by (rewrite E; left).
    apply list_elem_of_filter in Hx as [HP Hx]. by destruct (Hno x Hx).
Qed.

(** X18: [ImportPartnersOnly] when there is nothing to import.  A key that
    has neither 8 nor 14 digits once cleaned is an error, returned before
    anything is sent; a key of 8 or 14 digits that finds no venue is not:
    the call sends its one lookup, logs a warning, writes nothing and
    returns no error. *)
Theorem X18_ImportPartnersOnly_with_no_venue_to_import_into
    (env : Env) (partners : list PartnerData) (cnpj : string) (d : DB) :
  let cleanCNPJ := removeNonDigits cnpj in
  let r := ImportPartnersOnly env partners cnpj d in
  (len cleanCNPJ <> 8 -> len cleanCNPJ <> 14 ->
   returned r
   = Some ("invalid CNPJ length (expected 8 or 14 digits): " +:+ cleanCNPJ
           +:+ " (length: " +:+ Itoa (len cleanCNPJ) +:+ ")")
   /\ statements r = [] /\ logged r = [] /\ tables r = d)
  /\ (len cleanCNPJ = 8 -> env AtQueryBases = None ->
      (forall b, b ∈ business d -> LEFT8 (b_cnpj b) <> cleanCNPJ) ->
      returned r = None
      /\ statements r = [SelectIdByPrefix cleanCNPJ]
      /\ logged r
         = [Warn "No businesses found for CNPJ base, skipping partners"
              [AttrStr "cnpj_base" cleanCNPJ]]
      /\ tables r = d)
  /\ (len cleanCNPJ = 14 -> env AtQueryOne = None ->
      (forall b, b ∈ business d -> b_cnpj b <> cleanCNPJ) ->
      returned r = None
      /\ statements r = [SelectIdByCnpj cleanCNPJ]
      /\ logged r
         = [Warn "Business not found for CNPJ, skipping partners"
              [AttrStr "cnpj" cleanCNPJ]]
      /\ tables r = d).
Proof.
  cbv zeta. unfold ImportPartnersOnly. split; [|split].
  - intros H8 H14.
    assert ((len (removeNonDigits cnpj) =? 8) = false) as -> by lia.
    assert ((len (removeNonDigits cnpj) =? 14) = false) as -> by lia.
    done.
  - intros H8 Hok Hnone.
    assert ((len (removeNonDigits cnpj) =? 8) = true) as -> by lia.
    assert (Hempty : selectIdByPrefix (removeNonDigits cnpj) d = []).
    { unfold selectIdByPrefix.
      rewrite (proj2 (filter_nil_iff _ _)); [done|].
      intros b Hb Hp. apply (Hnone b Hb). by apply prefix_LEFT8. }
    run_simpl. rewrite ?pool_run_tables_query, pool_run_returned, Hok.
    cbn [query snd]. rewrite Hempty. by run_simpl.
  - intros H14 Hok Hnone.
    assert ((len (removeNonDigits cnpj) =? 8) = false) as -> by lia.
    assert ((len (removeNonDigits cnpj) =? 14) = true) as -> by lia.
    assert (Hempty : selectIdByCnpj (removeNonDigits cnpj) d = []).
    { unfold selectIdByCnpj.
      rewrite (proj2 (filter_nil_iff _ _)); [done|].
      intros b Hb Hp. by apply (Hnone b Hb). }
    run_simpl. rewrite ?pool_run_tables_query, pool_run_returned, Hok.
    cbn [query snd]. rewrite Hempty. by run_simpl.
Qed.

End OnlyOneVenues.

Section OnlyOneVenuesWitness.
Import PG Spec.

Lemma X17_witness :
  NoDup (b_id <$> business Sample.oneVenue)
  /\ Exists (sameSocio Sample.aliceArgs)
       (socios_cnpj
          (tables (ImportPartnersOnly noFaults
                     [Sample.partner "ALICE" "***123456**"] "12345678"
                     Sample.oneVenue))).
Proof.
  assert (Hids : NoDup (b_id <$> business Sample.oneVenue)).
  { vm_compute. apply NoDup_singleton. }
  split; [exact Hids|].
  destruct (X17_ImportPartnersOnly_adds_rows_for_the_venues_its_key_finds
              noFaults [Sample.partner "ALICE" "***123456**"] "12345678"
              Sample.oneVenue Hids) as (_ & _ & _ & Hall).
  apply (Hall (fun _ => eq_refl)) with
    (p := Sample.partner "ALICE" "***123456**") (b := Sample.acmeRow).
  - vm_compute. apply NoDup_singleton.
  - left.
  - vm_compute. left.
  - left. split; vm_compute; reflexivity.
  - vm_compute. reflexivity.
Defined.

End OnlyOneVenuesWitness.

(** ** The date of the data and the extra indexes *)

Section Housekeeping.
Import PG Spec.

(** X19: [saveUpdatedAt] never trips over the 16-byte limit of the
    metadata keys.  When the file cannot be read it returns the error of the
    read and sends nothing; otherwise it returns no error exactly when the
    template renders and the statement runs, and then it has sent the one
    statement that saves the content of the file under "updated-at". *)
Theorem X19_saveUpdatedAt_saves_the_file_under_its_key
    (env : Env) (p : string) (file : outcome string) (d : DB) :
  let r := saveUpdatedAt env p file d in
  returned r
  <> Some "metatable can only take keys that are at maximum 16 chars long"
  /\ (forall e, file = Failed e ->
        returned r = Some ("error reading " +:+ p +:+ ": " +:+ e)
        /\ statements r = [] /\ tables r = d)
  /\ (forall v, file = Done v ->
        (returned r = None <->
         env (AtRenderTemplate "meta_save") = None /\ env AtMetaExec = None)
        /\ (returned r = None ->
            statements r = [MetaSaveSQL "updated-at" v]
            /\ tables r = metaSave "updated-at" v d)
        /\ (returned r <> None -> tables r = d)).
Proof.
  cbv zeta. unfold saveUpdatedAt. destruct file as [v|e]; run_simpl.
  - unfold MetaSave. change (16 <? len "updated-at") with false. cbv iota.
    unfold renderTemplate.
    destruct (env (AtRenderTemplate "meta_save")) as [e1|] eqn:E1.
    + run_simpl. split; [by intros [= H]|]. split; [done|].
      intros v' [= <-]. split; [|done]. split; [done | by intros [? _]].
    + run_simpl. rewrite pool_run_returned, pool_run_tables.
      destruct (env AtMetaExec) as [e2|] eqn:E2.
      * split; [by intros [= H]|]. split; [done|].
        intros v' [= <-]. split; [|done]. split; [done | by intros [_ ?]].
      * split; [done|]. split; [done|].
        intros v' [= <-]. split; [done|]. split; [|done]. intros _.
        split; [|done]. by rewrite ?pool_run_statements.
  - split; [by intros [= H]|]. split; [|done].
    by intros e' [= <-].
Qed.

Lemma splitN2_cut (a b : string) :
  containsDot a = false -> splitN2 (a +:+ "." +:+ b) = [a; b].
Proof.
  induction a as [|c a IH]; [reflexivity|].
  cbn [containsDot]. destruct (Ascii.eqb c ".") eqn:E; [done|].
  intros Ha. change (String c a +:+ "." +:+ b) with (String c (a +:+ "." +:+ b)).
  cbn [splitN2]. rewrite E. by rewrite IH.
Qed.

Lemma containsDot_cut (s : string) :
  containsDot s = true ->
  exists a b, containsDot a = false /\ s = a +:+ "." +:+ b.
Proof.
  induction s as [|c s IH]; [done|].
  cbn [containsDot]. destruct (Ascii.eqb c ".") eqn:E.
  - apply Ascii.eqb_eq in E as ->. intros _. by exists "", s.
  - intros (a & b & Ha & ->)%IH. exists (String c a), b.
    split; [|done]. cbn [containsDot]. by rewrite E.
Qed.

Lemma append_not_empty (a b : string) : a <> "" -> a +:+ b <> "".
Proof. by destruct a. Qed.

(** X20: the nested path of an index [CreateExtraIndexes] builds.  An index
    whose name has no dot is at the root and has no nested path: the result
    is empty, with the error for root indexes in the log.  A name with a
    dot is cut at its first dot, [a.b] giving [$.a[*].b]; the failure to
    parse the name is never logged for such an index. *)
Theorem X20_NestedPath_cuts_at_the_first_dot (idx : string) :
  let e := newExtraIndex idx in
  (containsDot idx = false ->
   NestedPath e
   = ("", [Error "cannot not parse nested path for index at the root of the json"
             [AttrStr "index" idx]]))
  /\ (forall a b, containsDot a = false -> idx = a +:+ "." +:+ b ->
        NestedPath e = ("$." +:+ a +:+ "[*]." +:+ b, []))
  /\ (fst (NestedPath e) = "" <-> containsDot idx = false)
  /\ snd (NestedPath e)
     <> [Error "could not parse nested path" [AttrStr "index" idx]].
Proof.
  cbv zeta. unfold NestedPath, newExtraIndex. cbn [IsRoot Value].
  assert (Hcut : forall a b, containsDot a = false -> idx = a +:+ "." +:+ b ->
            containsDot idx = true).
  { intros a b Ha ->. clear -Ha. induction a as [|c a IH]; [done|].
    cbn [containsDot] in Ha.
    change (String c a +:+ "." +:+ b) with (String c (a +:+ "." +:+ b)).
    cbn [containsDot]. destruct (Ascii.eqb c "."); [done | by apply IH]. }
  destruct (containsDot idx) eqn:Hdot; cbn [negb].
  - destruct (containsDot_cut idx Hdot) as (a & b & Ha & ->).
    rewrite splitN2_cut by done.
    split; [done|]. split; [|split; [|done]].
    + intros a' b' Ha' Heq. pose proof (splitN2_cut a' b' Ha') as Hsplit.
      rewrite <- Heq, splitN2_cut in Hsplit by done.
      by injection Hsplit as <- <-.
    + cbn [fst]. split; [|done]. intros H. exfalso. revert H.
      by apply append_not_empty.
  - split; [done|]. split; [|split; [by split | by intros [=]]].
    intros a b Ha Heq. by specialize (Hcut a b Ha Heq).
Qed.

End Housekeeping.

(** ** The keys of the venue table *)

Section VenueKeys.
Import PG Spec.

Lemma businessArgs_sizes company :
  validCNPJ company ->
  venueRowSizes (businessArgs company (removeNonDigits (CNPJ company))).
Proof.
  intros Hvalid. unfold venueRowSizes, businessArgs. cbn.
  split; [done|]. split; [apply removeNonDigits_digits|].
  assert (Hcep : forall s,
            len (if 8 <? len (removeNonDigits s)
                 then prefix 8 (removeNonDigits s) else removeNonDigits s) <= 8
            /\ Forall (fun c => isDigit c = true)
                 (list_ascii_of_string
                    (if 8 <? len (removeNonDigits s)
                     then prefix 8 (removeNonDigits s) else removeNonDigits s))).
  { intros s. destruct (8 <? len (removeNonDigits s)) eqn:E.
    - apply Z.ltb_lt in E. split; [rewrite len_prefix; lia|].
      pose proof (removeNonDigits_digits s) as Hd.
      unfold prefix. change (Z.to_nat 8) with 8%nat.
      generalize dependent (removeNonDigits s). intros t _ Hd.
      generalize 8%nat. intros n. revert n.
      induction t as [|c t IH]; intros [|n]; cbn; try constructor.
      + by apply Forall_cons in Hd as [? _].
      + apply IH. by apply Forall_cons in Hd as [_ ?].
    - apply Z.ltb_ge in E. split; [lia | apply removeNonDigits_digits]. }
  split; [apply Hcep|]. split; [apply Hcep|].
  do 6 (split; [apply cut200_len|]). split; [done|].
  unfold situacaoCadastralToString. rewrite !elem_of_cons.
  repeat case_match; auto 10.
Qed.

(** X21: every venue row the venue writer adds has a national ID of
    exactly 14 ASCII digits, a postal code of at most 8 digits, at most 200
    bytes in each of the company name, the trade name, the street, the
    district, the city and the address complement, the address type 0
    whatever the kind of street, and a registration status that is empty or
    one of NULA, ATIVA, SUSPENSA, INAPTA and BAIXADA. *)
Theorem X21_venue_writer_rows_have_bounded_fields
    (order : MapOrder) (env : Env) (now : Time) (batch : list Company)
    (d : DB) (row : BusinessRow) :
  row ∈ business (tables (CreateCompaniesStructuredDirect order env now batch d)) ->
  row ∈ business d \/ venueRowSizes (b_cols row).
Proof.
  destruct (CCSD_business order env now batch d) as (new & Heq & Hfresh & _).
  rewrite Heq. intros [?|Hnew]%elem_of_app; [by left|]. right.
  eapply Forall_forall in Hfresh; [|exact Hnew].
  destruct Hfresh as (Hcols & _).
  apply list_elem_of_omap in Hcols as (company & Hc & Hargs).
  unfold venueArgs in Hargs.
  destruct (len (removeNonDigits (CNPJ company)) =? 14) eqn:E; [|done].
  injection Hargs as <-. apply businessArgs_sizes. by apply Z.eqb_eq.
Qed.

Lemma insertBusinessRow_wellKeyed now acc a :
  wellKeyed (fst acc) -> wellKeyed (fst (insertBusinessRow now acc a)).
Proof.
  destruct acc as [d returning]. cbn [fst].
  intros (Hids & Hcnpjs & Hbelow & Hseq). unfold insertBusinessRow.
  destruct (decide (a_cnpj a ∈ b_cnpj <$> business d)) as [Hin|Hnew];
    cbn [fst]; unfold wellKeyed, cnpjs; cbn [business business_seq withBusiness].
  - split; [done|]. split; [done|]. split; [|lia].
    eapply Forall_impl; [exact Hbelow|]. cbn. intros; lia.
  - rewrite !fmap_app. cbn [fmap list_fmap b_id].
    split; [|split; [|split; [|lia]]].
    + apply NoDup_app. split; [done|]. split; [|apply NoDup_singleton].
      intros id (b & -> & Hb)%list_elem_of_fmap Heq%list_elem_of_singleton.
      eapply Forall_forall in Hbelow; [|exact Hb]. cbn in Hbelow, Heq. lia.
    + apply NoDup_app. split; [done|]. split; [|apply NoDup_singleton].
      intros c Hc ->%list_elem_of_singleton. by apply Hnew.
    + apply Forall_app. split.
      * eapply Forall_impl; [exact Hbelow|]. cbn. intros; lia.
      * apply Forall_singleton. cbn. lia.
Qed.

Lemma insertBusiness_wellKeyed now rows d :
  wellKeyed d -> wellKeyed (fst (insertBusiness now rows d)).
Proof.
  intros Hd. unfold insertBusiness.
  apply (foldl_invariant (fun acc => wellKeyed (fst acc))); [done|].
  intros acc a _. apply insertBusinessRow_wellKeyed.
Qed.

Lemma insertSocioRow_business_seq d a :
  business_seq (insertSocioRow d a) = business_seq d.
Proof. unfold insertSocioRow. by destruct (decide _). Qed.

Lemma insertSocios_wellKeyed rows d :
  wellKeyed d -> wellKeyed (insertSocios rows d).
Proof.
  unfold insertSocios. revert d. induction rows as [|a rows IH]; intros d Hd;
    [done|].
  cbn [foldl]. apply IH. unfold wellKeyed, cnpjs in *.
  by rewrite insertSocioRow_business, insertSocioRow_business_seq.
Qed.

Lemma CCSD_wellKeyed order env now batch d :
  wellKeyed d ->
  wellKeyed (tables (CreateCompaniesStructuredDirect order env now batch d)).
Proof.
  intros Hd.
  pose proof (CCSD_tables order env now batch d) as Hany.
  pose proof (CCSD_tables_exact order env now batch d) as Hexact.
  destruct (returned _) as [e|]; [by rewrite Hany|].
  rewrite Hexact by done. cbn zeta.
  pose proof (insertBusiness_wellKeyed now (validArgs batch) d Hd) as Htx.
  destruct (concat _); [done|]. destruct (env AtInsertPartners); [done|].
  by apply insertSocios_wellKeyed.
Qed.

(** X22: the writers keep the keys of the venue table in order.  When the
    venue ids are distinct, above 0 and below the next value of the
    sequence, and the national IDs are distinct, the same holds after a run
    of the venue writer, of [ImportPartnersBatch] or of
    [ImportPartnersOnly], whatever fails in it. *)
Theorem X22_writers_keep_the_venue_keys_in_order
    (order : MapOrder) (env : Env) (now : Time) (batch : list Company)
    (partnersBatch : gmap string (list PartnerData))
    (partners : list PartnerData) (cnpj : string) (d : DB) :
  wellKeyed d ->
  wellKeyed (tables (CreateCompaniesStructuredDirect order env now batch d))
  /\ wellKeyed (tables (ImportPartnersBatch order env partnersBatch d))
  /\ wellKeyed (tables (ImportPartnersOnly env partners cnpj d)).
Proof.
  intros Hd. split; [|split].
  - by apply CCSD_wellKeyed.
  - apply (ImportPartnersBatch_kept wellKeyed); [|done].
    intros rows d'. apply insertSocios_wellKeyed.
  - destruct Hd as (Hids & Hrest).
    apply (ImportPartnersOnly_kept_rows wellKeyed); [done| |by split].
    intros rows d' Hd' _. by apply insertSocios_wellKeyed.
Qed.

End VenueKeys.

Section VenueKeysWitness.
Import PG Spec.

Lemma X21_witness :
  Sample.acmeRow
  ∈ business (tables (CreateCompaniesStructuredDirect sortedOrder noFaults 10
                        [Sample.venue "12.345.678/0001-99" "ACME LTDA" []]
                        emptyDB))
  /\ (Sample.acmeRow ∈ business emptyDB
      \/ venueRowSizes (b_cols Sample.acmeRow)).
Proof.
  assert (Hin : Sample.acmeRow
                ∈ business (tables (CreateCompaniesStructuredDirect sortedOrder
                                      noFaults 10
                                      [Sample.venue "12.345.678/0001-99"
                                         "ACME LTDA" []]
                                      emptyDB))).
  { vm_compute. left. }
  split; [exact Hin|].
  exact (X21_venue_writer_rows_have_bounded_fields sortedOrder noFaults 10
           [Sample.venue "12.345.678/0001-99" "ACME LTDA" []] emptyDB
           Sample.acmeRow Hin).
Defined.

Lemma X22_witness :
  wellKeyed Sample.oneVenue
  /\ wellKeyed
       (tables (CreateCompaniesStructuredDirect sortedOrder noFaults 20
                  [Sample.venue "98.765.432/0001-10" "EMCA LTDA" []]
                  Sample.oneVenue)).
Proof.
  assert (Hd : wellKeyed Sample.oneVenue).
  { unfold wellKeyed, cnpjs. vm_compute business. vm_compute business_seq.
    cbn [fmap list_fmap].
    split; [apply NoDup_singleton|]. split; [apply NoDup_singleton|].
    split; [|lia]. apply Forall_singleton. cbn. lia. }
  split; [exact Hd|].
  apply (X22_writers_keep_the_venue_keys_in_order sortedOrder noFaults 20
           [Sample.venue "98.765.432/0001-10" "EMCA LTDA" []] ∅ [] ""
           Sample.oneVenue Hd).
Defined.

End VenueKeysWitness.

(** ** No partner twice *)

Section DistinctPartners.
Import PG Spec.

Lemma sameSocio_key a rows :
  Exists (sameSocio a) rows
  <-> socioKey a ∈ ((fun row => socioKey (s_cols row)) <$> rows).
Proof.
  rewrite Exists_exists, list_elem_of_fmap. unfold sameSocio, socioKey. split.
  - intros (row & Hrow & Hc & Hn). exists row. split; [|done]. by rewrite Hc, Hn.
  - intros (row & [= Hc Hn] & Hrow). exists row. by split.
Qed.

Lemma insertSocioRow_distinct d a :
  distinctSocios d -> distinctSocios (insertSocioRow d a).
Proof.
  unfold distinctSocios, insertSocioRow. intros Hd.
  destruct (decide (Exists (sameSocio a) (socios_cnpj d))) as [Hex|Hnew];
    cbn [socios_cnpj withSocios]; [done|].
  rewrite fmap_app. apply NoDup_app. split; [done|].
  split; [|apply NoDup_singleton].
  intros key Hkey ->%list_elem_of_singleton. apply Hnew.
  by apply sameSocio_key.
Qed.

Lemma insertSocios_distinct rows d :
  distinctSocios d -> distinctSocios (insertSocios rows d).
Proof.
  intros Hd. unfold insertSocios.
  apply (foldl_invariant distinctSocios); [done|].
  intros d' a _. apply insertSocioRow_distinct.
Qed.

(** X23: the writers never store a partner twice.  When no two partner
    rows have the same national ID and name, the same holds after a run of
    the venue writer, of [ImportPartnersBatch] or of [ImportPartnersOnly],
    whatever the batch repeats and whatever fails. *)
Theorem X23_writers_never_store_a_partner_twice
    (order : MapOrder) (env : Env) (now : Time) (batch : list Company)
    (partnersBatch : gmap string (list PartnerData))
    (partners : list PartnerData) (cnpj : string) (d : DB) :
  distinctSocios d ->
  distinctSocios (tables (CreateCompaniesStructuredDirect order env now batch d))
  /\ distinctSocios (tables (ImportPartnersBatch order env partnersBatch d))
  /\ (NoDup (b_id <$> business d) ->
      distinctSocios (tables (ImportPartnersOnly env partners cnpj d))).
Proof.
  intros Hd. split; [|split].
  - pose proof (CCSD_tables order env now batch d) as Hany.
    pose proof (CCSD_tables_exact order env now batch d) as Hexact.
    destruct (returned _) as [e|]; [by rewrite Hany|].
    rewrite Hexact by done. cbn zeta.
    assert (Htx : distinctSocios (fst (insertBusiness now (validArgs batch) d)))
      by (unfold distinctSocios; by rewrite insertBusiness_socios).
    destruct (concat _); [done|]. destruct (env AtInsertPartners); [done|].
    by apply insertSocios_distinct.
  - apply (ImportPartnersBatch_kept distinctSocios); [|done].
    intros rows d'. apply insertSocios_distinct.
  - intros Hids.
    apply (ImportPartnersOnly_kept_rows distinctSocios); [done| |done].
    intros rows d' Hd' _. by apply insertSocios_distinct.
Qed.

End DistinctPartners.

Section DistinctPartnersWitness.
Import PG Spec.

Lemma X23_witness :
  distinctSocios Sample.oneVenue
  /\ distinctSocios
       (tables (ImportPartnersBatch sortedOrder noFaults
                  {[ "12345678" := [Sample.partner "ALICE" "***123456**";
                                    Sample.partner "ALICE" "***654321**"] ]}
                  Sample.oneVenue)).
Proof.
  assert (Hd : distinctSocios Sample.oneVenue)
    by (unfold distinctSocios; vm_compute; constructor).
  split; [exact Hd|].
  apply (X23_writers_never_store_a_partner_twice sortedOrder noFaults 0 []
           {[ "12345678" := [Sample.partner "ALICE" "***123456**";
                             Sample.partner "ALICE" "***654321**"] ]}
           [] "" Sample.oneVenue Hd).
Defined.

Lemma X13_witness :
  Exists (fun row =>
            s_cnpj (s_cols row) = "12345678000199"
            /\ s_nome_socio (s_cols row) = "ALICE")
    (socios_cnpj
       (tables (CreateCompaniesStructuredDirect sortedOrder noFaults 20
                  [Sample.venue "12.345.678/0001-99" "ACME LTDA"
                     [Sample.partner "ALICE" "***123456**"]]
                  Sample.oneVenue))).
Proof.
  apply (X13_venue_writer_leaves_a_row_for_every_partner sortedOrder noFaults
           20
           [Sample.venue "12.345.678/0001-99" "ACME LTDA"
              [Sample.partner "ALICE" "***123456**"]]
           Sample.oneVenue
           (Sample.venue "12.345.678/0001-99" "ACME LTDA"
              [Sample.partner "ALICE" "***123456**"])
           (Sample.partner "ALICE" "***123456**")).
  - done.
  - split; [by vm_compute|]. vm_compute business. apply Forall_singleton.
    by cbn.
  - left.
  - by vm_compute.
  - left.
  - unfold shortTaxID. by vm_compute.
Defined.

End DistinctPartnersWitness.

(** ** The venue writer again, and the two paths together *)

Section TwoPaths.
Import PG Spec.

Lemma wellKeyed_idsFromOne d : wellKeyed d -> idsFromOne d.
Proof.
  intros (_ & _ & Hbelow & Hseq). split; [done|].
  eapply Forall_impl; [exact Hbelow|]. cbn. intros; lia.
Qed.

(** The partner rows the venue writer proposes are rows of companies of the
    batch with a valid ID, with the name cut to 200 bytes. *)
Lemma venuePartnerRows_proposed m batch a :
  a ∈ concat (venuePartnerRows m <$> batch) ->
  exists company partner,
    company ∈ batch /\ validCNPJ company
    /\ partner ∈ QuadroSocietario company /\ shortTaxID partner
    /\ s_cnpj a = removeNonDigits (CNPJ company)
    /\ s_nome_socio a = cut200 (NomeSocio partner).
Proof.
  intros (rows & Hrows & Ha)%elem_of_concat_inv.
  apply list_elem_of_fmap in Hrows as (company & -> & Hcompany).
  apply venuePartnerRows_elem in Ha as (id & partner & Hlen & _ & _ & Hp & Ha).
  exists company, partner. split; [done|]. split; [done|]. split; [done|].
  assert (Hshort : shortTaxID partner).
  { unfold shortTaxID. unfold venuePartnerRow in Ha.
    destruct (11 <? _) eqn:E; [done|]. by apply Z.ltb_ge in E. }
  split; [done|].
  by apply venuePartnerRow_sizes in Ha as (_ & _ & ? & ? & _).
Qed.

(** X24: writing a batch of venues a second time adds no partner row.
    After a run of the venue writer in which no call failed, a further run
    over the same batch leaves the partner rows as they are, whatever its
    clock and whatever fails in it. *)
Theorem X24_venue_writer_again_adds_no_partner_row
    (order order' : MapOrder) (env env' : Env) (now now' : Time)
    (batch : list Company) (d : DB) :
  (forall site, env site = None) ->
  idsFromOne d ->
  let d1 := tables (CreateCompaniesStructuredDirect order env now batch d) in
  socios_cnpj (tables (CreateCompaniesStructuredDirect order' env' now' batch d1))
  = socios_cnpj d1.
Proof.
  intros Hok Hids d1.
  pose proof (CCSD_tables order' env' now' batch d1) as Hany.
  pose proof (CCSD_tables_exact order' env' now' batch d1) as Hexact.
  destruct (returned _) as [e|]; [by rewrite Hany|].
  rewrite Hexact by done. cbn zeta.
  remember (concat (venuePartnerRows (venueIDs order' env' now' batch d1) <$> batch))
    as pv eqn:Hpv.
  destruct pv as [|a0 pv]; [apply insertBusiness_socios|].
  destruct (env' AtInsertPartners); [apply insertBusiness_socios|].
  rewrite insertSocios_present; [apply insertBusiness_socios|].
  intros a Ha. rewrite insertBusiness_socios. rewrite Hpv in Ha.
  apply venuePartnerRows_proposed
    in Ha as (company & partner & Hc & Hvalid & Hp & Hshort & Hcnpj & Hname).
  eapply Exists_impl;
    [by apply (CCSD_partner_present order env now batch d company partner)|].
  intros row [Hrc Hrn]. split; congruence.
Qed.

Lemma cut200_long (s : string) : 120 < len s -> 120 < len (cut200 s).
Proof.
  intros Hlong. unfold cut200. destruct (200 <? len s) eqn:E; [|done].
  apply Z.ltb_lt in E. rewrite len_prefix; lia.
Qed.

(** X25: the two paths do not store a long name alike.  A partner name of
    more than 120 bytes is stored by the venue writer cut to 200 bytes and by
    [ImportPartnersBatch] as its first 117 bytes and three dots; the two
    differ, so after the venue writer and then the batch import have both
    written the partner, with no call failing, the table has a row with each
    of the two names for it. *)
Theorem X25_the_two_paths_store_a_long_name_differently
    (order : MapOrder) (env : Env) (now : Time) (batch : list Company)
    (d : DB) (company : Company) (partner : PartnerData) :
  (forall site, env site = None) ->
  wellKeyed d ->
  company ∈ batch -> validCNPJ company ->
  partner ∈ QuadroSocietario company -> shortTaxID partner ->
  120 < len (NomeSocio partner) ->
  let cleanCNPJ := removeNonDigits (CNPJ company) in
  let d1 := tables (CreateCompaniesStructuredDirect order env now batch d) in
  let d2 :=
    tables (ImportPartnersBatch order env
              {[ CNPJ company := QuadroSocietario company ]} d1) in
  cut200 (NomeSocio partner) <> truncateTo120 (NomeSocio partner)
  /\ Exists (fun row =>
               s_cnpj (s_cols row) = cleanCNPJ
               /\ s_nome_socio (s_cols row) = cut200 (NomeSocio partner))
       (socios_cnpj d2)
  /\ Exists (fun row =>
               s_cnpj (s_cols row) = cleanCNPJ
               /\ s_nome_socio (s_cols row) = truncateTo120 (NomeSocio partner))
       (socios_cnpj d2).
Proof.
  intros Hok Hd Hc Hvalid Hp Hshort Hlong cleanCNPJ d1 d2.
  split; [|split].
  - intros Heq. pose proof (cut200_long _ Hlong) as H200.
    rewrite Heq in H200. unfold truncateTo120 in H200.
    rewrite truncateString_len in H200; lia.
  - apply (ImportPartnersBatch_kept
             (fun d' => Exists (fun row =>
                          s_cnpj (s_cols row) = cleanCNPJ
                          /\ s_nome_socio (s_cols row)
                             = cut200 (NomeSocio partner))
                          (socios_cnpj d'))).
    + intros rows d' Hd'. eapply Exists_prefix; [|exact Hd'].
      apply insertSocios_prefix.
    + apply CCSD_partner_present; try done. by apply wellKeyed_idsFromOne.
  - assert (Hret : returned (CreateCompaniesStructuredDirect order env now batch d)
                   = None).
    { rewrite CCSD_returned, !Hok. by destruct (validArgs batch). }
    assert (Hvenue : businessArgs company cleanCNPJ ∈ validArgs batch).
    { apply list_elem_of_omap. exists company. split; [done|].
      unfold venueArgs. unfold validCNPJ in Hvalid. by rewrite Hvalid. }
    pose proof (CCSD_success_present order env now batch d _ Hret Hvenue)
      as Hthere.
    apply list_elem_of_fmap in Hthere as (b & Hcnpj & Hb).
    cbn [a_cnpj businessArgs] in Hcnpj. fold d1 in Hb.
    destruct (partnerRow (b_id b) (b_cnpj b) partner) as [a|] eqn:Ha.
    2: { unfold partnerRow, shortTaxID in *.
         destruct (11 <? _) eqn:E; [apply Z.ltb_lt in E; lia | done]. }
    assert (Hrow : Exists (sameSocio a) (socios_cnpj d2)).
    { apply (ImportPartnersBatch_complete order env _ d1 (CNPJ company)
               (QuadroSocietario company) partner b a); try done.
      - intros k1 k2 [x1 [<- _]%lookup_singleton_Some]
                     [x2 [<- _]%lookup_singleton_Some] _.
        reflexivity.
      - by apply CCSD_wellKeyed.
      - apply lookup_singleton_eq.
      - right. split; [done | by symmetry]. }
    eapply Exists_impl; [exact Hrow|]. intros row [Hrc Hrn].
    unfold partnerRow in Ha. destruct (11 <? _); [done|].
    injection Ha as <-. cbn in Hrc, Hrn. split; [congruence | done].
Qed.

End TwoPaths.

Section TwoPathsWitness.
Import PG Spec.

Lemma X24_witness :
  socios_cnpj
    (tables (CreateCompaniesStructuredDirect sortedOrder Sample.commitFails 30
               [Sample.venue "12.345.678/0001-99" "ACME LTDA"
                  [Sample.partner "ALICE" "***123456**"]]
               (tables (CreateCompaniesStructuredDirect sortedOrder noFaults 20
                          [Sample.venue "12.345.678/0001-99" "ACME LTDA"
                             [Sample.partner "ALICE" "***123456**"]]
                          Sample.oneVenue))))
  = socios_cnpj
      (tables (CreateCompaniesStructuredDirect sortedOrder noFaults 20
                 [Sample.venue "12.345.678/0001-99" "ACME LTDA"
                    [Sample.partner "ALICE" "***123456**"]]
                 Sample.oneVenue)).
Proof.
  apply (X24_venue_writer_again_adds_no_partner_row sortedOrder sortedOrder
           noFaults Sample.commitFails 20 30).
  - done.
  - split; [by vm_compute|]. vm_compute business. apply Forall_singleton.
    by cbn.
Defined.

Lemma X25_witness :
  cut200 Sample.longName <> truncateTo120 Sample.longName.
Proof.
  assert (Hd : wellKeyed Sample.oneVenue).
  { unfold wellKeyed, cnpjs. vm_compute business. vm_compute business_seq.
    cbn [fmap list_fmap].
    split; [apply NoDup_singleton|]. split; [apply NoDup_singleton|].
    split; [|lia]. apply Forall_singleton. cbn. lia. }
  apply (X25_the_two_paths_store_a_long_name_differently sortedOrder noFaults
           20
           [Sample.venue "12.345.678/0001-99" "ACME LTDA"
              [Sample.partner Sample.longName "***123456**"]]
           Sample.oneVenue
           (Sample.venue "12.345.678/0001-99" "ACME LTDA"
              [Sample.partner Sample.longName "***123456**"])
           (Sample.partner Sample.longName "***123456**")).
  - done.
  - exact Hd.
  - left.
  - by vm_compute.
  - left.
  - unfold shortTaxID. by vm_compute.
  - by vm_compute.
Defined.

End TwoPathsWitness.

(** ** Kinds that do not accumulate *)

Section Replacing.
Import Bytes KV Spec.

Variable lookups : Type.
Variables loadPartnerRow loadBaseRow loadSimpleTaxesRow loadTaxRow :
  lookups -> list string -> result string.

Let newItem :=
  newKVItem lookups loadPartnerRow loadBaseRow loadSimpleTaxesRow loadTaxRow.

(** X26: for a kind that does not accumulate, the key of an item is the
    key of its ID alone: two rows with the same ID are staged under the same
    key, and after both are set the key holds the value of the later one. *)
Theorem X26_rows_of_a_kind_that_does_not_accumulate_replace_each_other
    (s : sourceType) (l : lookups) (r1 r2 : list string) (i1 i2 : item)
    (st : gmap string string) :
  isAccumulative s = false ->
  idField s r1 = idField s r2 ->
  newItem s l r1 = Ok i1 ->
  newItem s l r2 = Ok i2 ->
  key i1 = key i2
  /\ loadChunk st [i1; i2] !! key i1 = Some (value i2).
Proof.
  intros Hacc Hid H1 H2.
  assert (Hkey : forall r i, newItem s l r = Ok i ->
            exists id, idField s r = Some id /\ key i = keyOf s id).
  { intros r i Hnew. unfold newItem, newKVItem, keyAndLoader, index in Hnew.
    destruct s; try discriminate Hacc; try discriminate Hnew;
      cbn [idField keyOf isAccumulative] in *.
    destruct (r !! _) as [id|]; [|discriminate Hnew].
    case_match; try discriminate Hnew.
    injection Hnew as <-. cbn [key]. by exists id. }
  destruct (Hkey r1 i1 H1) as (id1 & Hid1 & Hk1).
  destruct (Hkey r2 i2 H2) as (id2 & Hid2 & Hk2).
  assert (id1 = id2) as <- by congruence.
  assert (Heq : key i1 = key i2) by congruence.
  split; [done|]. cbn [loadChunk foldl]. unfold txSet.
  rewrite Heq. apply lookup_insert_eq.
Qed.

End Replacing.

Section ReplacingWitness.
Import Bytes KV Spec.

Lemma X26_witness :
  exists i1 i2,
    stage base ["12345678"; "ACME LTDA"] = Ok i1
    /\ stage base ["12345678"; "ACME SA"] = Ok i2
    /\ key i1 = key i2
    /\ loadChunk ∅ [i1; i2] !! key i1 = Some (value i2).
Proof.
  eexists _, _. split; [reflexivity|]. split; [reflexivity|].
  apply (X26_rows_of_a_kind_that_does_not_accumulate_replace_each_other
           unit rawLoader rawLoader rawLoader rawLoader base tt
           ["12345678"; "ACME LTDA"] ["12345678"; "ACME SA"]);
    reflexivity.
Defined.

End ReplacingWitness.

(** ** No partner left out of the batches *)

Section BatchingComplete.
Import PG Spec.

Variable lookups : Type.
Variable newPartnerData : lookups -> list string -> outcome PartnerData.
Variable l : lookups.

Lemma appendTo_keeps {K} `{Countable K} {A} (m : gmap K (list A)) k xs k' ys y :
  m !! k' = Some ys -> y ∈ ys ->
  exists ys', appendTo m k xs !! k' = Some ys' /\ y ∈ ys'.
Proof.
  intros Hk' Hy. unfold appendTo. destruct (decide (k = k')) as [->|Hne].
  - rewrite lookup_insert_eq, Hk'. cbn. eexists. split; [done|].
    apply elem_of_app. by left.
  - rewrite lookup_insert_ne by done. eauto.
Qed.

(** Every accepted row so far has its partner in a batch, sent or being
    filled. *)
Lemma produceStep_holds rows st row :
  (forall row' k p, row' ∈ rows ->
     accepted newPartnerData l row' = Some (k, p) ->
     exists b ps, b ∈ sentBatches st ++ [batch st]
                  /\ b !! k = Some ps /\ p ∈ ps) ->
  forall row' k p, row' ∈ rows ++ [row] ->
    accepted newPartnerData l row' = Some (k, p) ->
    exists b ps,
      b ∈ sentBatches (produceStep lookups newPartnerData l st row)
          ++ [batch (produceStep lookups newPartnerData l st row)]
      /\ b !! k = Some ps /\ p ∈ ps.
Proof.
  intros Hold row' k p Hin Hacc.
  assert (Hsame : produceStep lookups newPartnerData l st row = st ->
            accepted newPartnerData l row = None ->
            exists b ps,
              b ∈ sentBatches (produceStep lookups newPartnerData l st row)
                  ++ [batch (produceStep lookups newPartnerData l st row)]
              /\ b !! k = Some ps /\ p ∈ ps).
  { intros -> Hnone.
    apply elem_of_app in Hin as [Hin| ->%list_elem_of_singleton];
      [by eapply Hold | congruence]. }
  unfold produceStep, accepted in *.
  destruct (Z.of_nat (length row) <? 11) eqn:Elen; [by apply Hsame|].
  destruct (newPartnerData l row) as [partner|e] eqn:Edec; [|by apply Hsame].
  destruct row as [|cnpj fields] eqn:Erow; [by apply Hsame|].
  clear Hsame.
  assert (Hnew : exists b ps,
            b ∈ sentBatches st ++ [appendTo (batch st) cnpj [partner]]
            /\ b !! k = Some ps /\ p ∈ ps).
  { apply elem_of_app in Hin as [Hin|Hin%list_elem_of_singleton].
    - destruct (Hold row' k p Hin Hacc) as (b & ps & Hb & Hk & Hp).
      apply elem_of_app in Hb as [Hb| ->%list_elem_of_singleton].
      + exists b, ps. split; [apply elem_of_app; by left | done].
      + destruct (appendTo_keeps (batch st) cnpj [partner] k ps p Hk Hp)
          as (ps' & Hk' & Hp').
        exists (appendTo (batch st) cnpj [partner]), ps'.
        split; [|done]. apply elem_of_app. right. left.
    - subst row'. rewrite Elen, Edec in Hacc. injection Hacc as <- <-.
      exists (appendTo (batch st) cnpj [partner]),
        (default [] (batch st !! cnpj) ++ [partner]).
      split; [apply elem_of_app; right; left|].
      split; [apply lookup_insert_eq|]. apply elem_of_app. right. left. }
  destruct (batchSize <=? currentBatchCount st + 1);
    cbn [batch sentBatches]; [|done].
  destruct Hnew as (b & ps & Hb & Hk & Hp). exists b, ps.
  split; [|done]. apply elem_of_app. by left.
Qed.

Lemma produce_holds rows :
  forall row k p, row ∈ rows ->
    accepted newPartnerData l row = Some (k, p) ->
    exists b ps,
      b ∈ partnerBatches lookups newPartnerData l rows
      /\ b !! k = Some ps /\ p ∈ ps.
Proof.
  assert (Hall : forall row k p, row ∈ rows ->
            accepted newPartnerData l row = Some (k, p) ->
            let st := foldl (produceStep lookups newPartnerData l)
                        {| batch := ∅; currentBatchCount := 0;
                           sentBatches := [] |} rows in
            exists b ps, b ∈ sentBatches st ++ [batch st]
                         /\ b !! k = Some ps /\ p ∈ ps).
  { induction rows as [|row rows IH] using rev_ind.
    - intros row k p Hin. by apply elem_of_nil in Hin.
    - intros row' k p Hin Hacc. cbv zeta. rewrite foldl_app. cbn [foldl].
      by apply (produceStep_holds rows _ row IH row' k p). }
  intros row k p Hin Hacc. unfold partnerBatches.
  destruct (Hall row k p Hin Hacc) as (b & ps & Hb & Hk & Hp).
  destruct (decide (batch _ = ∅)) as [Hempty|Hne]; [|by exists b, ps].
  exists b, ps. split; [|done].
  apply elem_of_app in Hb as [Hb| ->%list_elem_of_singleton]; [done|].
  by rewrite Hempty, lookup_empty in Hk.
Qed.

End BatchingComplete.

Section BatchingCompleteClaim.
Import PG Spec.

(** X27: no accepted partner is left out.  Every row of the partner source
    with at least 11 fields that decodes has its partner in one of the
    batches the workers receive, under the ID in the row's first field. *)
Theorem X27_every_accepted_partner_is_in_a_batch
    {lookups : Type}
    (newPartnerData : lookups -> list string -> outcome PartnerData)
    (l : lookups) (rows : list (list string)) (row : list string)
    (k : string) (p : PartnerData) :
  row ∈ rows ->
  accepted newPartnerData l row = Some (k, p) ->
  exists b ps,
    b ∈ partnerBatches lookups newPartnerData l rows
    /\ b !! k = Some ps /\ p ∈ ps.
Proof. apply produce_holds. Qed.

Lemma X27_witness :
  exists b ps,
    b ∈ partnerBatches unit Sample.decode tt [Sample.aliceFields]
    /\ b !! "12345678" = Some ps
    /\ Sample.partner "ALICE" "***123456**" ∈ ps.
Proof.
  apply (X27_every_accepted_partner_is_in_a_batch Sample.decode tt
           [Sample.aliceFields] Sample.aliceFields).
  - left.
  - reflexivity.
Defined.

End BatchingCompleteClaim.

(** ** The lookup of the national IDs *)

Section IdLookup.
Import PG Spec.

Lemma uniqueIDs_NoDup ids : NoDup (uniqueIDs ids).
Proof.
  unfold uniqueIDs.
  assert (Hinv : forall seen acc,
            NoDup acc -> (forall x, x ∈ seen <-> x ∈ acc) ->
            NoDup (snd (foldl uniqueStep (seen, acc) ids))).
  { induction ids as [|id ids IH]; intros seen acc Hnd Hseen; [done|].
    cbn [foldl]. unfold uniqueStep at 2.
    destruct (decide (id ∈ seen)) as [Hin|Hnew]; [by apply IH|].
    apply IH.
    - apply NoDup_app. split; [done|]. split; [|apply NoDup_singleton].
      intros x Hx ->%list_elem_of_singleton. apply Hnew. by apply Hseen.
    - intros y. rewrite elem_of_union, elem_of_singleton, elem_of_app,
        list_elem_of_singleton, Hseen. tauto. }
  apply Hinv; [constructor|].
  intros x. split; [intros H; by apply elem_of_empty in H|].
  intros H. by apply elem_of_nil in H.
Qed.

Lemma queryCNPJs_statements_exact order env m d :
  statements (queryCNPJs order env m d)
  = match uniqueIDs (concat (snd <$> range order m)) with
    | [] => []
    | ids => [SelectBusinessById ids]
    end.
Proof.
  unfold queryCNPJs. destruct (decide (m = ∅)) as [->|Hne].
  - by rewrite (proj2 (range_nil order ∅)).
  - destruct (uniqueIDs _) as [|i rest]; [done|].
    run_simpl. destruct (returned _); run_simpl; by rewrite app_nil_r.
Qed.

(** The ids of the third lookup of a batch. *)
Lemma ImportPartnersBatch_id_lookup order env batch d ids :
  SelectBusinessById ids ∈ statements (ImportPartnersBatch order env batch d) ->
  ids = uniqueIDs
          (concat
             (snd <$> range order
                (appendIDs
                   (appendIDs ∅
                      (selectBusinessByBase (keysOfLength 8 order batch) d))
                   (selectBusinessByCnpj (keysOfLength 14 order batch) d)))).
Proof.
  unfold ImportPartnersBatch.
  destruct (decide (batch = ∅)); [by intros H%elem_of_nil|].
  pose proof (splitStep_keys (range order batch) [] [] ∅) as Hkeys.
  destruct (foldl splitStep _ _) as [[baseCNPJs fullCNPJs] cnpjToPartners].
  destruct Hkeys as [Hbases Hfulls]. cbn [app] in Hbases, Hfulls.
  fold (keysOfLength 8 order batch) in Hbases.
  fold (keysOfLength 14 order batch) in Hfulls. subst baseCNPJs fullCNPJs.
  run_simpl. rewrite queryBases_statements, queryBases_tables.
  intros [H|H]%elem_of_app.
  { unfold baseLookup in H. destruct (keysOfLength 8 order batch);
      [by apply elem_of_nil in H|].
    by apply list_elem_of_singleton in H. }
  destruct (returned (queryBases _ _ _ _)) as [ids1|] eqn:E1;
    [|by apply elem_of_nil in H].
  apply queryBases_inv in E1. subst ids1.
  revert H. run_simpl. rewrite queryFull_statements, queryFull_tables.
  intros [H|H]%elem_of_app.
  { unfold fullLookup in H. destruct (keysOfLength 14 order batch);
      [by apply elem_of_nil in H|].
    by apply list_elem_of_singleton in H. }
  destruct (returned (queryFull _ _ _ _)) as [ids2|] eqn:E2;
    [|by apply elem_of_nil in H].
  apply queryFull_inv in E2. subst ids2.
  revert H. run_simpl. rewrite queryCNPJs_statements_exact, queryCNPJs_tables.
  intros [H|H]%elem_of_app.
  { destruct (uniqueIDs _) as [|i rest] eqn:E; [by apply elem_of_nil in H|].
    apply list_elem_of_singleton in H. by injection H as ->. }
  exfalso.
  destruct (returned (queryCNPJs _ _ _ _)); [|by apply elem_of_nil in H].
  destruct (foldl (groupStep _ _) _ _) as [[toPartners toFull] warnings].
  revert H. run_simpl. cbn [app]. intros H.
  pose proof (importBusinesses_statements env toFull
                (range order toPartners) d) as Hloop.
  eapply Forall_forall in Hloop; [|exact H]. done.
Qed.

(** X28: the third lookup of [ImportPartnersBatch] asks for each venue
    once: the ids it sends are distinct, and they are the ids of the venues
    that the keys of the batch find. *)
Theorem X28_ImportPartnersBatch_fetches_each_venue_found_once
    (order : MapOrder) (env : Env) (batch : gmap string (list PartnerData))
    (d : DB) (ids : list Z) :
  SelectBusinessById ids ∈ statements (ImportPartnersBatch order env batch d) ->
  NoDup ids
  /\ (forall id,
        id ∈ ids <->
        exists b k, b ∈ business d /\ b_id b = id
                    /\ is_Some (batch !! k)
                    /\ keyFinds (removeNonDigits k) b).
Proof.
  intros ->%ImportPartnersBatch_id_lookup. split; [apply uniqueIDs_NoDup|].
  intros id. rewrite uniqueIDs_elem. split.
  - intros (found & Hfound & Hid)%elem_of_concat_inv.
    apply list_elem_of_fmap in Hfound as ([c found'] & -> & Hc%range_elem).
    cbn [snd] in Hid.
    assert (Hdef : id ∈ default [] (appendIDs
                     (appendIDs ∅
                        (selectBusinessByBase (keysOfLength 8 order batch) d))
                     (selectBusinessByCnpj (keysOfLength 14 order batch) d)
                     !! c)) by by rewrite Hc.
    apply lookups_find in Hdef as (b & k & Hb & Hbid & Hfinds & Hk & <-).
    by exists b, k.
  - intros (b & k & Hb & Hbid & Hk & Hfinds).
    assert (Hdef : id ∈ default [] (appendIDs
                     (appendIDs ∅
                        (selectBusinessByBase (keysOfLength 8 order batch) d))
                     (selectBusinessByCnpj (keysOfLength 14 order batch) d)
                     !! removeNonDigits k)).
    { apply lookups_find. by exists b, k. }
    destruct (appendIDs _ _ !! removeNonDigits k) as [found|] eqn:E;
      [|by apply elem_of_nil in Hdef].
    apply (elem_of_concat _ found); [|done].
    apply list_elem_of_fmap. exists (removeNonDigits k, found).
    split; [done|]. by apply range_elem.
Qed.

Lemma X28_witness :
  SelectBusinessById [1]
  ∈ statements (ImportPartnersBatch sortedOrder noFaults Sample.aliceBatch
                  Sample.oneVenue)
  /\ NoDup [1].
Proof.
  assert (Hsent : SelectBusinessById [1]
                  ∈ statements (ImportPartnersBatch sortedOrder noFaults
                                  Sample.aliceBatch Sample.oneVenue)).
  { vm_compute. right. left. }
  split; [exact Hsent|].
  apply (X28_ImportPartnersBatch_fetches_each_venue_found_once sortedOrder
           noFaults Sample.aliceBatch Sample.oneVenue [1] Hsent).
Defined.

End IdLookup.
